(** * Checkpointed, concurrency-governed LLM task dispatcher

    A shallow embedding of the dispatcher code shared by the scripts
    [Code/assess_mastery.py], [Code/generate_tutoring_content.py],
    [Code/run_experiment.py] and [Code/data_script/llm_utils.py], and the
    properties of it that the specification states.

    A Python [str] is modelled by the [string] of the bytes of its UTF-8
    encoding: equality, concatenation, [startswith], [in] and the splits at
    a line feed or a colon are then the same on the bytes as on the
    characters, and the primitives that look at characters ([strip], [len],
    slices) are written out on the encoding.  Python dictionaries used as
    records become Rocq records, the set of processed pairs a [gset], and
    the coroutines an explicit interleaving semantics. *)

From Stdlib Require Import ZArith List Ascii String Bool Lia Permutation Sorted.
From stdpp Require Import base decidable numbers option list gmap sets strings.

Local Open Scope string_scope.
Local Open Scope list_scope.

(** ** Python string primitives *)

Module PyStr.

(** The character [chr(10)]. *)
Definition nl : ascii := ascii_of_nat 10.

(** The white space of the ASCII range, one byte each: tab, line feed,
    vertical tab, form feed, carriage return, the four separators
    0x1c..0x1f and the blank. *)
Definition ascii_space (n : nat) : bool :=
  ((9 <=? n)%nat && (n <=? 13)%nat) || ((28 <=? n)%nat && (n <=? 32)%nat).

(** The number of bytes of the white-space character [s] starts with, [0]
    when it starts with none.  White space is what [str.isspace] and
    [str.strip] take for it: beside the ASCII ones, U+0085 and U+00A0
    (bytes C2 85, C2 A0), U+1680 (E1 9A 80), U+2000..U+200A, U+2028,
    U+2029, U+202F (E2 80 80..8A, A8, A9, AF), U+205F (E2 81 9F) and
    U+3000 (E3 80 80). *)
Definition space_width (s : string) : nat :=
  match s with
  | EmptyString => 0
  | String c r =>
      let n := nat_of_ascii c in
      if ascii_space n then 1
      else if (n =? 194)%nat then
        match r with
        | String d _ =>
            let m := nat_of_ascii d in
            if (m =? 133)%nat || (m =? 160)%nat then 2 else 0
        | EmptyString => 0
        end
      else if (n =? 225)%nat then
        match r with
        | String d (String e _) =>
            if (nat_of_ascii d =? 154)%nat && (nat_of_ascii e =? 128)%nat
            then 3 else 0
        | _ => 0
        end
      else if (n =? 226)%nat then
        match r with
        | String d (String e _) =>
            let m := nat_of_ascii d in
            let k := nat_of_ascii e in
            if (m =? 128)%nat
               && (((128 <=? k)%nat && (k <=? 138)%nat)
                   || (k =? 168)%nat || (k =? 169)%nat || (k =? 175)%nat)
            then 3
            else if (m =? 129)%nat && (k =? 159)%nat then 3 else 0
        | _ => 0
        end
      else if (n =? 227)%nat then
        match r with
        | String d (String e _) =>
            if (nat_of_ascii d =? 128)%nat && (nat_of_ascii e =? 128)%nat
            then 3 else 0
        | _ => 0
        end
      else 0
  end.

(** [s.lstrip()]: the white-space characters [s] starts with go. *)
Fixpoint lstrip (s : string) : string :=
  match s with
  | EmptyString => EmptyString
  | String _ r1 =>
      match space_width s with
      | 0 => s
      | 1 => lstrip r1
      | 2 => match r1 with
             | String _ r2 => lstrip r2
             | EmptyString => s
             end
      | _ => match r1 with
             | String _ (String _ r3) => lstrip r3
             | _ => s
             end
      end
  end.

(** [s.isspace()] or [s] empty: nothing but white space. *)
Definition all_space (s : string) : bool :=
  match lstrip s with
  | EmptyString => true
  | String _ _ => false
  end.

(** [s.rstrip()]: the text ends where nothing but white space follows. *)
Fixpoint rstrip (s : string) : string :=
  match s with
  | EmptyString => EmptyString
  | String c r => if all_space s then EmptyString else String c (rstrip r)
  end.

(** [s.strip()] *)
Definition strip (s : string) : string := rstrip (lstrip s).

(** [s.split('\n')]: never empty, the pieces carry no line feed. *)
Fixpoint split_nl (s : string) : list string :=
  match s with
  | EmptyString => [EmptyString]
  | String c r =>
      if Ascii.eqb c nl then EmptyString :: split_nl r
      else match split_nl r with
           | h :: t => String c h :: t
           | [] => [String c EmptyString]
           end
  end.

(** [s.startswith(p)] *)
Definition startswith (s p : string) : bool := String.prefix p s.

(** [s.split(":", 1)[1]]: what follows the first colon.  Every call site
    is guarded by a [startswith] test on a prefix that ends in a colon, so
    the [IndexError] of a colon-free string cannot occur there; the model
    returns the empty string for it. *)
Fixpoint after_colon (s : string) : string :=
  match s with
  | EmptyString => EmptyString
  | String c r => if Ascii.eqb c ":"%char then r else after_colon r
  end.

(** [c.lower()] for one character: only A..Z change. *)
Definition lower_ascii (c : ascii) : ascii :=
  let n := nat_of_ascii c in
  if ((65 <=? n)%nat && (n <=? 90)%nat) then ascii_of_nat (n + 32) else c.

(** [s.lower()], as far as its callers see it.  They ask whether one of
    "qwen", "doubao", "gpt", "429", "rate limit" and "too many requests"
    occurs in the result.  The lower case of a character beyond the ASCII
    range is beyond it too, but for the Kelvin sign, which gives a k, and
    the dotted capital I, which gives an i followed by a combining dot:
    neither can take part in one of these texts. *)
Fixpoint lower (s : string) : string :=
  match s with
  | EmptyString => EmptyString
  | String c r => String (lower_ascii c) (lower r)
  end.

(** [needle in hay] on strings. *)
Fixpoint contains (needle hay : string) : bool :=
  String.prefix needle hay
  || match hay with
     | EmptyString => false
     | String _ r => contains needle r
     end.

(** A byte 10xxxxxx continues the character begun before it. *)
Definition is_continuation (c : ascii) : bool :=
  let n := nat_of_ascii c in (128 <=? n)%nat && (n <? 192)%nat.

(** [len(s)]: the characters of [s], one for each byte that begins one. *)
Fixpoint len (s : string) : nat :=
  match s with
  | EmptyString => 0
  | String c r => if is_continuation c then len r else S (len r)
  end.

(** [s[:n]]: the first [n] characters of [s]. *)
Fixpoint take_chars (n : nat) (s : string) : string :=
  match s with
  | EmptyString => EmptyString
  | String c r =>
      if is_continuation c then String c (take_chars n r)
      else match n with
           | O => EmptyString
           | S k => String c (take_chars k r)
           end
  end.

(** [chr(n)]: the character of code point [n], on one to four bytes. *)
Definition chr (n : nat) : string :=
  let m := N.of_nat n in
  let tail k := ascii_of_N (128 + k mod 64)%N in
  if (m <? 128)%N then String (ascii_of_N m) EmptyString
  else if (m <? 2048)%N then
    String (ascii_of_N (192 + m / 64)%N) (String (tail m) EmptyString)
  else if (m <? 65536)%N then
    String (ascii_of_N (224 + m / 4096)%N)
      (String (tail (m / 64)%N) (String (tail m) EmptyString))
  else
    String (ascii_of_N (240 + m / 262144)%N)
      (String (tail (m / 4096)%N)
         (String (tail (m / 64)%N) (String (tail m) EmptyString))).

(** A word of the ASCII range: no byte of [s] is beyond it or white
    space. *)
Fixpoint ascii_word (s : string) : bool :=
  match s with
  | EmptyString => true
  | String c r =>
      (nat_of_ascii c <? 128)%nat && negb (ascii_space (nat_of_ascii c))
      && ascii_word r
  end.

(** Every byte of [s] is of the ASCII range. *)
Fixpoint ascii_only (s : string) : bool :=
  match s with
  | EmptyString => true
  | String c r => (nat_of_ascii c <? 128)%nat && ascii_only r
  end.

(** [chr(10) not in s] *)
Fixpoint single_line (s : string) : bool :=
  match s with
  | EmptyString => true
  | String c r => negb (Ascii.eqb c nl) && single_line r
  end.

(** [b] is empty or starts with a byte of the ASCII range. *)
Definition starts_ascii (b : string) : bool :=
  match b with
  | EmptyString => true
  | String c _ => (nat_of_ascii c <? 128)%nat
  end.

(** A text [rstrip] leaves as it is and that is not empty. *)
Definition kept (b : string) : Prop := rstrip b = b /\ b <> "".

(** [s] occurs in [t] as a contiguous block. *)
Definition substring_of (s t : string) : Prop :=
  exists pre post, t = String.append pre (String.append s post).

End PyStr.

(** ** [Code/data_script/llm_utils.py] *)

Module LlmUtils.
Import PyStr.

(** The three modules of [backend.llms] a model name can be routed to. *)
Inductive llm_module : Type := qwen | doubao | mid_journey.

Definition get_llm_module (model_name : string) : llm_module :=
  let model_lower := lower model_name in
  if contains "qwen" model_lower then qwen
  else if contains "doubao" model_lower then doubao
  else if contains "gpt" model_lower then mid_journey
  else doubao.

(** What [await user_sys_call_with_model(...)] does, seen from a caller:
    it returns a text, or raises an exception [e], given by [str(e)] and
    [type(e).__name__]. *)
Inductive call_outcome : Type :=
| Returned (text : string)
| Raised (str_e type_name : string).

(** *** [concurrent_user_sys_call_with_retry] *)

(** An element of the list [concurrent_user_sys_call] returns; [error] is
    [None] when [result.get('error')] is absent or [None]. *)
Record call_result : Type := mkCallResult {
  cr_result : option string;
  cr_error : option string
}.

(** An exception out of [concurrent_user_sys_call]: whether it is an
    instance of [openai.APIError] (of which [RateLimitError] is a
    subclass), and its text. *)
Record exception : Type := mkException {
  is_api_error : bool;
  exc_text : string
}.

Inductive batch_outcome : Type :=
| BatchReturned (results : list call_result)
| BatchRaised (e : exception).

(** The test of lines 138-140 on one result. *)
Definition is_rate_limit_text (error_msg : string) : bool :=
  contains "429" error_msg || contains "rate limit" error_msg
  || contains "too many requests" error_msg.

Definition result_is_rate_limited (r : call_result) : bool :=
  match cr_error r with
  | None => false
  | Some e => negb (String.eqb e "") && is_rate_limit_text (lower e)
  end.

Definition has_rate_limit_error (results : list call_result) : bool :=
  existsb result_is_rate_limited results.

(** The test of line 160 on the text of a caught exception. *)
Definition exception_is_rate_limited (e : exception) : bool :=
  let error_msg := lower (exc_text e) in
  contains "429" error_msg || contains "rate limit" error_msg.

(** How a call of the function ends. *)
Inductive final : Type :=
| ReturnResults (results : list call_result)
| Reraise (e : exception).

(** What can be seen of a retry loop from outside: a call of the remote
    function, numbered by its attempt, or a sleep of some seconds. *)
Inductive event : Type :=
| Called (attempt : nat)
| Slept (delay : Z).

(** What a call of the function does: the calls of
    [concurrent_user_sys_call] and the sleeps, in the order they happen,
    and how it ends. *)
Record run : Type := mkRun {
  trace : list event;
  outcome : final
}.

Definition after_sleep (attempt : nat) (delay : Z) (r : run) : run :=
  mkRun (Called attempt :: Slept delay :: trace r) (outcome r).

(** The loop [for attempt in range(max_retries + 1)], entered at
    [attempt] with [later = retry_delays[attempt:]]: so
    [attempt < max_retries] exactly when [later] is not empty, and
    [retry_delays[attempt]] is then its head.  [call k] is what the
    [k]-th call of [concurrent_user_sys_call] does; [openai_installed] is
    false when the import fails, which makes both names [Exception]. *)
Fixpoint retry_from (openai_installed : bool) (call : nat -> batch_outcome)
    (attempt : nat) (later : list Z) : run :=
  match call attempt with
  | BatchReturned results =>
      if has_rate_limit_error results then
        match later with
        | delay :: later' =>
            after_sleep attempt delay (retry_from openai_installed call (S attempt) later')
        | [] => mkRun [Called attempt] (ReturnResults results)
        end
      else mkRun [Called attempt] (ReturnResults results)
  | BatchRaised e =>
      if negb openai_installed || is_api_error e then
        if exception_is_rate_limited e then
          match later with
          | delay :: later' =>
              after_sleep attempt delay
                (retry_from openai_installed call (S attempt) later')
          | [] => mkRun [Called attempt] (Reraise e)
          end
        else mkRun [Called attempt] (Reraise e)
      else mkRun [Called attempt] (Reraise e)
  end.

Definition default_retry_delays : list Z := [5; 10; 30]%Z.

(** The module the batch is sent to: that of the first request, doubao for
    an empty list; a request without a model name counts as
    ["doubao-seed-1-6-250615"]. *)
Definition module_for (requests : list (option string)) : llm_module :=
  match requests with
  | first :: _ => get_llm_module (default "doubao-seed-1-6-250615" first)
  | [] => doubao
  end.

(** [concurrent_user_sys_call_with_retry(requests, retry_delays=...)];
    [call m k] is the [k]-th call of [m.concurrent_user_sys_call]. *)
Definition concurrent_user_sys_call_with_retry (openai_installed : bool)
    (call : llm_module -> nat -> batch_outcome)
    (requests : list (option string)) (retry_delays : list Z) : run :=
  retry_from openai_installed (call (module_for requests)) 0 retry_delays.

(** *** [prepare_model_kwargs] *)

(** The dictionary [kwargs]: its ["temperature"], and the
    ["max_input_tokens"] of its ["extra_body"] when there is one. *)
Record model_kwargs : Type := mkKwargs {
  temperature : Z;
  max_input_tokens : option Z
}.

Definition prepare_model_kwargs (model_name : string) : model_kwargs :=
  if contains "qwen" (lower model_name)
  then mkKwargs 0 (Some 800000%Z)
  else mkKwargs 0 None.

End LlmUtils.

(** ** [pandas.read_csv] as the scripts call it

    Every [pd.read_csv(path)] of the scripts keeps the default
    [keep_default_na=True, na_values=None]: a text cell equal to one of the
    tokens below is read back as NaN, any other cell as the text itself. *)

Module Pandas.

Definition STR_NA_VALUES : list string :=
  [ ""; "#N/A"; "#N/A N/A"; "#NA"; "-1.#IND"; "-1.#QNAN"; "-NaN"; "-nan";
    "1.#IND"; "1.#QNAN"; "<NA>"; "N/A"; "NA"; "NULL"; "NaN"; "None";
    "n/a"; "nan"; "null" ].

(** A cell as [read_csv] yields it: [None] is NaN. *)
Definition read_cell (s : string) : option string :=
  if existsb (String.eqb s) STR_NA_VALUES then None else Some s.

(** [series.notna() & (series != '')] on one cell. *)
Definition notna_and_nonempty (c : option string) : bool :=
  match c with
  | None => false
  | Some s => negb (String.eqb s "")
  end.

End Pandas.

(** ** The batch persister ([save_results_batch] and its two callers)

    [Code/assess_mastery.py] and [Code/generate_tutoring_content.py] carry
    the same [save_results_batch]; the record type is a parameter. *)

Module Persister.

Section WithRecord.
Context {R : Type}.

(** A line of the results file. *)
Inductive csv_line : Type :=
| Header
| Row (r : R).

(** The results file: [None] while [os.path.exists(results_path)] is
    false. *)
Definition csv_file : Type := option (list csv_line).

Definition path_exists (f : csv_file) : bool :=
  match f with Some _ => true | None => false end.

Inductive log_event : Type :=
| SavedToFile (n : nat)
| BatchSaveFailed.

(** [save_results_batch(batch_results, results_path, is_first_batch)].
    [write_ok] is the environment's answer to the [to_csv] call: [false]
    when it raises, in which case the [except] branch prints the failure
    and the function returns normally; the file is then taken to be as
    it was before the call. *)
Definition save_results_batch (batch_results : list R) (file : csv_file)
    (is_first_batch write_ok : bool) : csv_file * list log_event :=
  match batch_results with
  | [] => (file, [])
  | _ :: _ =>
      if write_ok then
        if is_first_batch || negb (path_exists file) then
          (Some (Header :: map Row batch_results),
           [SavedToFile (length batch_results)])
        else
          (Some (default [] file ++ map Row batch_results),
           [SavedToFile (length batch_results)])
      else (file, [BatchSaveFailed])
  end.

(** The variables the coroutines share. *)
Record state : Type := mkState {
  batch_results : list R;
  results_file : csv_file;
  is_first_batch : bool;
  total_saved : nat;
  log : list log_event
}.

(** [is_first_batch = not os.path.exists(results_path)] *)
Definition init (file : csv_file) : state :=
  mkState [] file (negb (path_exists file)) 0 [].

Variable threshold : nat.

(** The block under [async with batch_lock] in [delayed_request] and
    [controlled_request]: append one record, and at the threshold save,
    count, clear and reset the first-batch flag. *)
Definition append_and_maybe_flush (st : state) (result_record : R)
    (write_ok : bool) : state :=
  let batch := batch_results st ++ [result_record] in
  if (threshold <=? length batch)%nat then
    let '(file', events) :=
      save_results_batch batch (results_file st) (is_first_batch st) write_ok in
    mkState [] file' false (total_saved st + length batch) (log st ++ events)
  else
    mkState batch (results_file st) (is_first_batch st) (total_saved st) (log st).

(** The block after [asyncio.gather]: save what is left. *)
Definition flush_remaining (st : state) (write_ok : bool) : state :=
  match batch_results st with
  | [] => st
  | _ :: _ =>
      let '(file', events) :=
        save_results_batch (batch_results st) (results_file st)
          (is_first_batch st) write_ok in
      mkState [] file' (is_first_batch st)
        (total_saved st + length (batch_results st)) (log st ++ events)
  end.

(** One turn of the [as_completed] loop of
    [generate_tutoring_content.main]: a student's whole result list is
    appended at once (nothing on an error), then the size is tested. *)
Definition extend_and_maybe_flush (st : state) (results : list R)
    (error : option string) (write_ok : bool) : state :=
  let all_results :=
    match error with
    | Some _ => batch_results st
    | None => batch_results st ++ results
    end in
  if (threshold <=? length all_results)%nat then
    let '(file', events) :=
      save_results_batch all_results (results_file st) (is_first_batch st)
        write_ok in
    mkState [] file' false (total_saved st) (log st ++ events)
  else
    mkState all_results (results_file st) (is_first_batch st) (total_saved st)
      (log st).

(** The largest size the buffer takes while the outcomes are processed,
    measured right after each append, before the size test. *)
Definition size_after_append (st : state) (result_record : R) : nat :=
  length (batch_results st ++ [result_record]).

Definition size_after_extend (st : state) (results : list R)
    (error : option string) : nat :=
  match error with
  | Some _ => length (batch_results st)
  | None => length (batch_results st ++ results)
  end.

(** The data rows of a file, in file order. *)
Fixpoint rows_of (lines : list csv_line) : list R :=
  match lines with
  | [] => []
  | Header :: rest => rows_of rest
  | Row r :: rest => r :: rows_of rest
  end.

Definition data_rows (f : csv_file) : list R := rows_of (default [] f).

(** How many header lines a file holds. *)
Definition is_header (l : csv_line) : bool :=
  match l with Header => true | Row _ => false end.

Definition header_count (f : csv_file) : nat :=
  length (List.filter is_header (default [] f)).

End WithRecord.

Arguments csv_line : clear implicits.
Arguments csv_file : clear implicits.
Arguments state : clear implicits.

End Persister.

(** ** [Code/assess_mastery.py] *)

Module AssessMastery.
Import PyStr LlmUtils.

(** *** [parse_llm_response] *)

Inductive field_key : Type := MasteryLevel | Rationale | Suggestions.

(** The dictionary [parsed_data], whose three keys never change. *)
Record parsed_data : Type := mkParsed {
  pd_mastery_level : string;
  pd_rationale : string;
  pd_suggestions : string
}.

Definition get_field (k : field_key) (p : parsed_data) : string :=
  match k with
  | MasteryLevel => pd_mastery_level p
  | Rationale => pd_rationale p
  | Suggestions => pd_suggestions p
  end.

Definition set_field (k : field_key) (v : string) (p : parsed_data)
  : parsed_data :=
  match k with
  | MasteryLevel => mkParsed v (pd_rationale p) (pd_suggestions p)
  | Rationale => mkParsed (pd_mastery_level p) v (pd_suggestions p)
  | Suggestions => mkParsed (pd_mastery_level p) (pd_rationale p) v
  end.

Definition unparsed : parsed_data := mkParsed "N/A" "N/A" "N/A".

(** The body of the [for line in ...] loop. *)
Definition parse_line (st : option field_key * parsed_data) (raw_line : string)
  : option field_key * parsed_data :=
  let line := strip raw_line in
  let '(current_key, parsed) := st in
  if startswith line "Mastery Level:" then
    (Some MasteryLevel, set_field MasteryLevel (strip (after_colon line)) parsed)
  else if startswith line "Rationale:" then
    (Some Rationale, set_field Rationale (strip (after_colon line)) parsed)
  else if startswith line "Suggestions:" then
    (Some Suggestions, set_field Suggestions (strip (after_colon line)) parsed)
  else
    match current_key with
    | Some k =>
        (current_key,
         set_field k (String.append (get_field k parsed)
                        (String.append " " line)) parsed)
    | None => st
    end.

(** [text] is [None] for a value that is not a [str]. *)
Definition parse_llm_response (text : option string) : parsed_data :=
  match text with
  | None => unparsed
  | Some t => snd (fold_left parse_line (split_nl (strip t)) (None, unparsed))
  end.

(** *** Manifest, results and requests *)

(** A row of the manifest as [load_request_manifest] uses it (the four
    result columns of the manifest are written empty and never read). *)
Record manifest_row : Type := mkManifestRow {
  mf_student_id : Z;
  mf_kc_name : string;
  mf_system_prompt : string;
  mf_user_prompt : string
}.

(** The dictionary [result_record] that is buffered and written. *)
Record result_record : Type := mkResult {
  student_id : Z;
  kc_name : string;
  mastery_level : string;
  rationale : string;
  suggestions : string;
  llm_raw_response : string;
  prompt_system : string;
  prompt_user : string
}.

(** A row of [results_df], reduced to the columns that are read. *)
Record results_row : Type := mkResultsRow {
  df_student_id : Z;
  df_kc_name : string;
  df_mastery_level : option string
}.

Definition pair_of_row (r : results_row) : Z * string :=
  (df_student_id r, df_kc_name r).

(** An element of [pending_requests]. *)
Record request : Type := mkRequest {
  rq_index : nat;
  rq_system_prompt : string;
  rq_user_prompt : string;
  rq_model_name : string;
  rq_context : Z * string
}.

Definition completed (r : results_row) : bool :=
  Pandas.notna_and_nonempty (df_mastery_level r).

(** [set(zip(completed_df['student_id'], completed_df['kc_name']))] *)
Definition processed_pairs_of (results_df : list results_row)
  : gset (Z * string) :=
  list_to_set (map pair_of_row (List.filter completed results_df)).

(** The loop over [manifest_df.iterrows()], [idx] being the row label. *)
Fixpoint pending_from (MODEL_NAME : string) (processed_pairs : gset (Z * string))
    (idx : nat) (rows : list manifest_row) : list request :=
  match rows with
  | [] => []
  | row :: rest =>
      if bool_decide ((mf_student_id row, mf_kc_name row) ∈ processed_pairs)
      then pending_from MODEL_NAME processed_pairs (S idx) rest
      else mkRequest idx (mf_system_prompt row) (mf_user_prompt row) MODEL_NAME
             (mf_student_id row, mf_kc_name row)
           :: pending_from MODEL_NAME processed_pairs (S idx) rest
  end.

(** [load_request_manifest(manifest_path, results_path)].  The two paths
    are given by what [read_csv] returns for them, [None] for a path that
    does not exist. *)
Definition load_request_manifest (MODEL_NAME : string)
    (manifest : option (list manifest_row))
    (results : option (list results_row))
  : option (list manifest_row) * list request :=
  match manifest with
  | None => (None, [])
  | Some manifest_df =>
      let processed_pairs :=
        match results with
        | Some results_df => processed_pairs_of results_df
        | None => ∅
        end in
      (Some manifest_df, pending_from MODEL_NAME processed_pairs 0 manifest_df)
  end.

(** A written record as [read_csv] gives it back: the two key columns
    as they were written, the [mastery_level] cell through the test for
    missing values. *)
Definition row_of_record (r : result_record) : results_row :=
  mkResultsRow (student_id r) (kc_name r) (Pandas.read_cell (mastery_level r)).

(** [pd.read_csv(results_path)] on a file that the persister wrote, a
    header line followed by data rows. *)
Definition read_results_csv (f : Persister.csv_file result_record)
  : option (list results_row) :=
  match f with
  | None => None
  | Some _ => Some (map row_of_record (Persister.data_rows f))
  end.

(** *** [delayed_request] / [controlled_request] *)

Definition EMPTY_ERROR_NOTE : string := ": (空错误信息)".

(** [error_msg] of the [except] branch. *)
Definition error_msg_of (str_e type_name : string) : string :=
  if String.eqb str_e "" then String.append type_name EMPTY_ERROR_NOTE
  else str_e.

(** [(raw_resp, error)] after the [try] block. *)
Definition response_of (o : call_outcome) : string * option string :=
  match o with
  | Returned text => (text, None)
  | Raised str_e type_name =>
      let error_msg := error_msg_of str_e type_name in
      (String.append "LLM_CALL_FAILED: " error_msg, Some error_msg)
  end.

Definition make_result_record (req : request) (o : call_outcome)
  : result_record :=
  let raw_resp := fst (response_of o) in
  let parsed_resp := parse_llm_response (Some raw_resp) in
  mkResult (fst (rq_context req)) (snd (rq_context req))
    (pd_mastery_level parsed_resp) (pd_rationale parsed_resp)
    (pd_suggestions parsed_resp) raw_resp
    (rq_system_prompt req) (rq_user_prompt req).

Definition BATCH_SIZE : nat := 100.

(** One request reaching the end of its coroutine. *)
Record completion : Type := mkCompletion {
  c_request : request;
  c_outcome : call_outcome;
  c_write_ok : bool
}.

Definition on_completion (st : Persister.state result_record) (c : completion)
  : Persister.state result_record :=
  Persister.append_and_maybe_flush BATCH_SIZE st
    (make_result_record (c_request c) (c_outcome c)) (c_write_ok c).

(** *** Stage 4 of [main]: the results of [asyncio.gather] once more *)

Definition STUDENTS_PER_BATCH : nat := 30.

(** The dictionary a coroutine returns and [llm_results] keeps. *)
Record llm_result : Type := mkLlmResult {
  lr_index : nat;
  lr_result : string;
  lr_error : option string
}.

(** [{"index": index, "result": raw_resp, "error": error}] *)
Definition llm_result_of (index : nat) (o : call_outcome) : llm_result :=
  mkLlmResult index (fst (response_of o)) (snd (response_of o)).

(** The record stage 4 builds from [llm_results[i]] and
    [all_requests[i]]: with an error the raw response is made again from
    the error text. *)
Definition rebuilt_record (req : request) (result : llm_result)
  : result_record :=
  let raw_resp :=
    match lr_error result with
    | Some error =>
        if String.eqb error "" then lr_result result
        else String.append "LLM_CALL_FAILED: " error
    | None => lr_result result
    end in
  let parsed_resp := parse_llm_response (Some raw_resp) in
  mkResult (fst (rq_context req)) (snd (rq_context req))
    (pd_mastery_level parsed_resp) (pd_rationale parsed_resp)
    (pd_suggestions parsed_resp) raw_resp
    (rq_system_prompt req) (rq_user_prompt req).

(** The variables of the loop of stage 4; of [student_results_map] the
    keys are kept, its length being all the loop asks of it. *)
Record regrouping : Type := mkRegrouping {
  rg_store : Persister.state result_record;
  student_results_map : gset Z
}.

(** One turn of the loop over [enumerate(llm_results)]: the record is
    built again and appended, and once the batch holds the records of
    [STUDENTS_PER_BATCH] students it is saved, counted and cleared.  (The
    loop also writes the failures to a log file of their own, which is
    left out.) *)
Definition on_result (write_ok : nat -> bool) (rg : regrouping)
    (x : request * llm_result) : regrouping :=
  let st := rg_store rg in
  let result_record := rebuilt_record (fst x) (snd x) in
  let students := {[ student_id result_record ]} ∪ student_results_map rg in
  let batch := Persister.batch_results st ++ [result_record] in
  if (STUDENTS_PER_BATCH <=? size students)%nat then
    let '(file', events) :=
      Persister.save_results_batch batch (Persister.results_file st)
        (Persister.is_first_batch st) (write_ok (lr_index (snd x))) in
    mkRegrouping
      (Persister.mkState [] file' false
         (Persister.total_saved st + length batch)
         (Persister.log st ++ events))
      ∅
  else
    mkRegrouping
      (Persister.mkState batch (Persister.results_file st)
         (Persister.is_first_batch st) (Persister.total_saved st)
         (Persister.log st))
      students.

(** Stage 4 as a whole, from the file stage 3 left: the loop, then the
    save of what is left in the batch.  The result is the file. *)
Definition process_results (all_requests : list request)
    (llm_results : list llm_result) (file : Persister.csv_file result_record)
    (write_ok : nat -> bool) (last_write_ok : bool)
  : Persister.csv_file result_record :=
  let rg :=
    fold_left (on_result write_ok) (zip all_requests llm_results)
      (mkRegrouping (Persister.init file) ∅) in
  fst (Persister.save_results_batch
         (Persister.batch_results (rg_store rg))
         (Persister.results_file (rg_store rg))
         (Persister.is_first_batch (rg_store rg)) last_write_ok).

(** What the environment does during one pass: the outcome of the remote
    call of the request at each place of [all_requests], the order in
    which the coroutines reach the batch lock, and whether the writes
    that the two stages attempt succeed (those of the loops are named by
    the place of the request that triggers them). *)
Record pass : Type := mkPass {
  outcome_of : nat -> call_outcome;
  ended : list nat;
  stage3_write_ok : nat -> bool;
  stage3_last_write_ok : bool;
  stage4_write_ok : nat -> bool;
  stage4_last_write_ok : bool
}.

(** The coroutines of stage 3 in the order in which they end. *)
Definition completions_of (all_requests : list request) (p : pass)
  : list completion :=
  omap (fun i =>
          match all_requests !! i with
          | Some req => Some (mkCompletion req (outcome_of p i) (stage3_write_ok p i))
          | None => None
          end)
       (ended p).

(** [llm_results]: what [asyncio.gather] returns, in the order of the
    tasks.  No coroutine ends with an exception: the call of the model is
    under a [try] that catches them all, and the keys read from the
    request are those [load_request_manifest] sets. *)
Definition gathered (all_requests : list request) (p : pass)
  : list llm_result :=
  imap (fun i _ => llm_result_of i (outcome_of p i)) all_requests.

(** One pass of [main] over one mode whose manifest exists: resolve the
    pending requests and, unless there is none, run them all and save
    what is left (stage 3), then go through the gathered results in
    request order and save every record again (stage 4).  The result is
    the number of requests sent and the results file afterwards. *)
Definition run_mode (MODEL_NAME : string) (manifest_df : list manifest_row)
    (file : Persister.csv_file result_record) (p : pass)
  : nat * Persister.csv_file result_record :=
  let '(_, all_requests) :=
    load_request_manifest MODEL_NAME (Some manifest_df) (read_results_csv file) in
  match all_requests with
  | [] => (0%nat, file)
  | _ :: _ =>
      let st :=
        Persister.flush_remaining
          (fold_left on_completion (completions_of all_requests p)
             (Persister.init file))
          (stage3_last_write_ok p) in
      (length all_requests,
       process_results all_requests (gathered all_requests p)
         (Persister.results_file st) (stage4_write_ok p)
         (stage4_last_write_ok p))
  end.

End AssessMastery.

(** ** [Code/run_experiment.py] *)

Module RunExperiment.
Import PyStr LlmUtils.

(** The dictionary a request coroutine returns. *)
Record request_result : Type := mkRequestResult {
  rr_index : nat;
  rr_result : option string;
  rr_error : option string
}.

(** What [execute_single_request] does inside the semaphore: the calls
    of [user_sys_call_with_model] and the sleeps, in the order they
    happen, and the dictionary returned. *)
Record run : Type := mkRun {
  trace : list event;
  returned : request_result
}.

Definition after_sleep (attempt : nat) (retry_delay : Z) (r : run) : run :=
  mkRun (Called attempt :: Slept retry_delay :: trace r) (returned r).

(** [last_error = str(e) if str(e) else f"{type(e).__name__}"] *)
Definition last_error_of (str_e type_name : string) : string :=
  if String.eqb str_e "" then type_name else str_e.

(** The loop [for attempt in range(len(retry_delays) + 1)], entered at
    [attempt] with [later = retry_delays[attempt:]]: the handler returns
    the error when [attempt == len(retry_delays)], that is when [later]
    is empty, and otherwise goes on to attempt [attempt + 1], which
    starts by sleeping [retry_delays[attempt]], the head of [later].
    [call k] is what the [k]-th call of [user_sys_call_with_model]
    does. *)
Fixpoint attempt_from (index : nat) (call : nat -> call_outcome)
    (attempt : nat) (later : list Z) : run :=
  match call attempt with
  | Returned text =>
      mkRun [Called attempt] (mkRequestResult index (Some text) None)
  | Raised str_e type_name =>
      match later with
      | [] =>
          mkRun [Called attempt]
            (mkRequestResult index None (Some (last_error_of str_e type_name)))
      | retry_delay :: later' =>
          after_sleep attempt retry_delay (attempt_from index call (S attempt) later')
      end
  end.

Definition retry_delays : list Z := [5; 10; 30]%Z.

Definition execute_single_request (index : nat) (call : nat -> call_outcome)
  : run :=
  attempt_from index call 0 retry_delays.

(** *** [create_concurrent_llm_requests] *)

(** The list [processed_results]: [asyncio.gather] returns the results
    in the order of the tasks, and task [i] is
    [execute_single_request(req, i, ...)].  [calls i k] is what the
    [k]-th call made for request [i] does. *)
Definition create_concurrent_llm_requests (calls : nat -> nat -> call_outcome)
    (n_requests : nat) : list request_result :=
  map (fun i => returned (execute_single_request i (calls i))) (seq 0 n_requests).

Definition succeeded (r : request_result) : bool :=
  match rr_error r with None => true | Some _ => false end.

(** [success_count] and [fail_count] of the final statistics. *)
Definition success_count (processed_results : list request_result) : nat :=
  length (List.filter succeeded processed_results).

Definition fail_count (processed_results : list request_result) : nat :=
  (length processed_results - success_count processed_results)%nat.

(** *** [build_related_kc_map] *)

(** One half of the body of the loop over the edges: [b] joins the set of
    [a], which is created with [a] itself in it when [a] has none. *)
Definition add_related (related_map : gmap string (gset string))
    (a b : string) : gmap string (gset string) :=
  match related_map !! a with
  | Some s => <[a := s ∪ {[b]}]> related_map
  | None => <[a := {[a; b]}]> related_map
  end.

Definition add_edge (related_map : gmap string (gset string))
    (edge : string * string) : gmap string (gset string) :=
  let '(pre_kc, post_kc) := edge in
  add_related (add_related related_map pre_kc post_kc) post_kc pre_kc.

Definition build_related_kc_map (all_kc_names : list string)
    (kcg_edges : list (string * string)) : gmap string (gset string) :=
  fold_left add_edge kcg_edges
    (list_to_map (map (fun kc => (kc, {[kc]})) all_kc_names)).

(** *** [load_mastery_assessment_results] *)

(** A row of [mastery_df]; a cell is [None] when it is NaN. *)
Record mastery_row : Type := mkMasteryRow {
  ms_student_id : Z;
  ms_kc_name : string;
  ms_mastery_level : option string;
  ms_rationale : option string;
  ms_suggestions : option string
}.

(** The dictionary stored for a student and a knowledge component. *)
Record mastery_info : Type := mkMasteryInfo {
  mi_mastery_level : option string;
  mi_rationale : option string;
  mi_suggestions : option string
}.

Definition info_of_row (row : mastery_row) : mastery_info :=
  mkMasteryInfo (ms_mastery_level row) (ms_rationale row) (ms_suggestions row).

(** [mastery_lookup[sid][kc_name] = {...}] on a [defaultdict(dict)]. *)
Definition store_row (mastery_lookup : gmap Z (gmap string mastery_info))
    (row : mastery_row) : gmap Z (gmap string mastery_info) :=
  <[ms_student_id row :=
      <[ms_kc_name row := info_of_row row]>
        (default ∅ (mastery_lookup !! ms_student_id row))]> mastery_lookup.

(** [load_mastery_assessment_results(results_path, target_student_ids)];
    the path is given by the table [read_csv] returns for it, [None] for
    a missing path or a file that cannot be read. *)
Definition load_mastery_assessment_results
    (results : option (list mastery_row)) (target_student_ids : option (list Z))
  : gmap Z (gmap string mastery_info) :=
  match results with
  | None => ∅
  | Some mastery_df =>
      let selected :=
        match target_student_ids with
        | Some ids =>
            List.filter (fun row => bool_decide (ms_student_id row ∈ ids))
                        mastery_df
        | None => mastery_df
        end in
      fold_left store_row selected ∅
  end.

(** *** [_parse_llm_response] *)

(** The dictionary [ans], whose four keys never change. *)
Record task_answers : Type := mkAnswers {
  task1 : string;
  task2 : string;
  task3 : string;
  task4 : string
}.

Definition no_answers : task_answers := mkAnswers "N/A" "N/A" "N/A" "N/A".

(** [line.split(':', 1)[0]]: what precedes the first colon. *)
Fixpoint before_colon (s : string) : string :=
  match s with
  | EmptyString => EmptyString
  | String c r =>
      if Ascii.eqb c ":"%char then EmptyString else String c (before_colon r)
  end.

(** [if key in ans: ans[key] = value] *)
Definition set_answer (key value : string) (ans : task_answers) : task_answers :=
  if String.eqb key "task1" then mkAnswers value (task2 ans) (task3 ans) (task4 ans)
  else if String.eqb key "task2"
       then mkAnswers (task1 ans) value (task3 ans) (task4 ans)
  else if String.eqb key "task3"
       then mkAnswers (task1 ans) (task2 ans) value (task4 ans)
  else if String.eqb key "task4"
       then mkAnswers (task1 ans) (task2 ans) (task3 ans) value
  else ans.

(** [key.lower()] as far as the test [key in ans] sees it.  Beside the
    letters A..Z, one character has a lower case in the ASCII range: the
    Kelvin sign U+212A (bytes E2 84 AA), which becomes the letter k.  The
    lower case of every other character keeps a byte beyond the ASCII
    range, as the character itself does here, and a key with such a byte
    is none of the four keys of [ans]. *)
Fixpoint lower_key (s : string) : string :=
  match s with
  | EmptyString => EmptyString
  | String c t =>
      match t with
      | String d (String e r) =>
          if (nat_of_ascii c =? 226)%nat && (nat_of_ascii d =? 132)%nat
             && (nat_of_ascii e =? 170)%nat
          then String "k" (lower_key r)
          else String (lower_ascii c) (lower_key t)
      | _ => String (lower_ascii c) (lower_key t)
      end
  end.

(** The body of the loop over the lines, which are not stripped. *)
Definition parse_answer_line (ans : task_answers) (line : string)
  : task_answers :=
  if contains ":" line
  then set_answer (lower_key (strip (before_colon line)))
         (strip (after_colon line)) ans
  else ans.

(** [text] is [None] for a value that is not a [str]. *)
Definition _parse_llm_response (text : option string) : task_answers :=
  match text with
  | None => no_answers
  | Some t => fold_left parse_answer_line (split_nl (strip t)) no_answers
  end.

(** The text [run_experiment] parses for a request: the answer, or the
    error behind the failure mark; a result without answer and without
    error gives [None]. *)
Definition raw_response_of (r : request_result) : option string :=
  match rr_error r with
  | Some error =>
      if String.eqb error "" then rr_result r
      else Some (String.append "LLM_CALL_FAILED: " error)
  | None => rr_result r
  end.

End RunExperiment.

(** ** [asyncio.Semaphore] and the coroutines that share one *)

Module Asyncio.

(** [asyncio.Semaphore(value)]: a negative value raises [ValueError]. *)
Inductive constructed : Type :=
| SemaphoreOf (value : nat)
| ValueError.

Definition Semaphore (value : Z) : constructed :=
  if (value <? 0)%Z then ValueError else SemaphoreOf (Z.to_nat value).


(** Where a request coroutine stands: before its spreading delay has
    passed, suspended in [async with semaphore], inside it, or past it. *)
Inductive phase : Type := Delayed | Waiting | Holding | Finished.

Record state : Type := mkState {
  value : nat;
  phases : list phase
}.

(** All coroutines created, none started. *)
Definition init (limit tasks : nat) : state :=
  mkState limit (replicate tasks Delayed).

(** The event loop runs one coroutine up to its next suspension point.
    Entering the semaphore needs a positive value and takes one from it;
    leaving it gives one back. *)
Inductive step : state -> state -> Prop :=
| step_wake v ps i :
    ps !! i = Some Delayed ->
    step (mkState v ps) (mkState v (<[i := Waiting]> ps))
| step_acquire v ps i :
    ps !! i = Some Waiting ->
    step (mkState (S v) ps) (mkState v (<[i := Holding]> ps))
| step_release v ps i :
    ps !! i = Some Holding ->
    step (mkState v ps) (mkState (S v) (<[i := Finished]> ps)).

Inductive reachable (limit tasks : nat) : state -> Prop :=
| reach_init : reachable limit tasks (init limit tasks)
| reach_step s s' :
    reachable limit tasks s -> step s s' -> reachable limit tasks s'.

Definition holds_slot (p : phase) : bool :=
  match p with Holding => true | _ => false end.

(** How many coroutines are inside [async with semaphore]. *)
Fixpoint count_holding (ps : list phase) : nat :=
  match ps with
  | [] => 0
  | p :: rest => ((if holds_slot p then 1 else 0) + count_holding rest)%nat
  end.

Definition holders (s : state) : nat := count_holding (phases s).



(** How many steps a coroutine still has before it: wake, acquire and
    release. *)
Definition steps_left (p : phase) : nat :=
  match p with
  | Delayed => 3
  | Waiting => 2
  | Holding => 1
  | Finished => 0
  end.

Fixpoint work_left (ps : list phase) : nat :=
  match ps with
  | [] => 0
  | p :: rest => (steps_left p + work_left rest)%nat
  end.

(** Some coroutine has not left the semaphore yet. *)
Definition unfinished (s : state) : Prop :=
  exists i p, phases s !! i = Some p /\ p <> Finished.

End Asyncio.

(** ** [Code/generate_tutoring_content.py] *)

Module GenerateTutoring.
Import PyStr.

(** A row of [question_choices_df]. *)
Record choice_row : Type := mkChoiceRow {
  ch_question_id : Z;
  ch_choice_text : string;
  ch_is_correct : bool
}.

Record rendered_choice : Type := mkRendered {
  letter : string;
  text : string
}.

(** An element of [picked]. *)
Record picked_question : Type := mkPicked {
  question_id : Z;
  question_text : string;
  choices : list rendered_choice;
  correct_letter : option string;
  correct_text : option string
}.

(** The argument is a [str]; anything else is answered by [''] before
    the text is looked at. *)
Definition _truncate_text (text : string) (max_length : nat) : string :=
  let text := strip text in
  if (max_length <? len text)%nat
  then String.append (take_chars max_length text) "..."
  else text.

(** [chr(65 + i)] *)
Definition letter_of (i : nat) : string := chr (65 + i).

(** The inner loop over [choices.iterrows()]: the last correct choice
    wins. *)
Definition last_correct (choices : list choice_row)
  : option (string * string) :=
  fold_left
    (fun acc '(idx, ch) =>
       if ch_is_correct ch then Some (letter_of idx, ch_choice_text ch) else acc)
    (imap (fun idx ch => (idx, ch)) choices) None.

(** The body of the loop over [candidates], past the size test. *)
Definition render_question (question_text_map : gmap Z string)
    (question_choices_df : list choice_row) (qid : Z) : picked_question :=
  let q_text := _truncate_text (default "" (question_text_map !! qid)) 150 in
  let choices :=
    List.filter (fun ch => (ch_question_id ch =? qid)%Z) question_choices_df in
  match choices with
  | [] => mkPicked qid q_text [] None None
  | _ :: _ =>
      let rendered :=
        imap (fun idx ch => mkRendered (letter_of idx) (ch_choice_text ch))
             choices in
      let correct := last_correct choices in
      mkPicked qid q_text rendered (fst <$> correct) (snd <$> correct)
  end.

(** [for qid in candidates: if len(picked) >= max_num: break; ...] *)
Fixpoint pick_loop (render : Z -> picked_question) (max_num : nat)
    (candidates : list Z) (picked : list picked_question)
  : list picked_question :=
  match candidates with
  | [] => picked
  | qid :: rest =>
      if (max_num <=? length picked)%nat then picked
      else pick_loop render max_num rest (picked ++ [render qid])
  end.

(** [_select_three_questions_for_kc]; [shuffle] is what
    [random.shuffle] does to the list on this call. *)
Definition _select_three_questions_for_kc (shuffle : list Z -> list Z)
    (kc_name : string) (kc_to_questions_map : gmap string (list Z))
    (test_question_ids : gset Z) (question_text_map : gmap Z string)
    (question_choices_df : list choice_row) (max_num : nat)
  : list picked_question :=
  let question_ids := default [] (kc_to_questions_map !! kc_name) in
  match question_ids with
  | [] => []
  | _ :: _ =>
      let available :=
        List.filter (fun qid => bool_decide (qid ∉ test_question_ids))
                    question_ids in
      let candidates := shuffle available in
      pick_loop (render_question question_text_map question_choices_df)
        max_num candidates []
  end.

(** The dictionary [generate_tutoring_for_single_kc] returns. *)
Record tutoring_record : Type := mkTutoring {
  tr_student_id : Z;
  tr_kc_name : string;
  tr_tutoring_content : string;
  tr_example_question_ids : list Z;
  tr_llm_raw_response : string;
  tr_prompt_system : string;
  tr_prompt_user : string
}.

(** The batch size of [main]: [batch_size = 10]. *)
Definition batch_size : nat := 10.

(** One turn of the [as_completed] loop of [main]: the future of one
    student gives [(student_id, results, error)]. *)
Definition on_student_done (st : Persister.state tutoring_record)
    (results : list tutoring_record) (error : option string) (write_ok : bool)
  : Persister.state tutoring_record :=
  Persister.extend_and_maybe_flush batch_size st results error write_ok.

(** *** [generate_tutoring_for_single_kc] *)

(** [build_prompt] stands for [build_tutoring_prompt_single_kc], whose
    wording is not modelled, and [outcome] for what the call of the model
    does.  The description of the component only enters the prompt. *)
Definition generate_tutoring_for_single_kc (shuffle : list Z -> list Z)
    (build_prompt : Z -> string -> list picked_question -> string * string)
    (outcome : LlmUtils.call_outcome)
    (student_id : Z) (kc_name : string) (test_question_ids : gset Z)
    (kc_to_questions_map : gmap string (list Z))
    (question_text_map : gmap Z string) (question_choices_df : list choice_row)
  : option tutoring_record :=
  let picked :=
    _select_three_questions_for_kc shuffle kc_name kc_to_questions_map
      test_question_ids question_text_map question_choices_df 3 in
  match picked with
  | [] => None
  | _ :: _ =>
      let '(system_prompt, user_prompt) :=
        build_prompt student_id kc_name picked in
      let '(raw_resp, tutoring_content) :=
        match outcome with
        | LlmUtils.Returned raw => (raw, strip raw)
        | LlmUtils.Raised str_e _ =>
            (String.append "LLM_CALL_FAILED: " str_e, EmptyString)
        end in
      Some (mkTutoring student_id kc_name tutoring_content
              (map question_id picked) raw_resp system_prompt user_prompt)
  end.

(** One future of the [as_completed] loop of [main]. *)
Record student_done : Type := mkStudentDone {
  sd_results : list tutoring_record;
  sd_error : option string;
  sd_write_ok : bool
}.

Definition on_student (st : Persister.state tutoring_record) (d : student_done)
  : Persister.state tutoring_record :=
  on_student_done st (sd_results d) (sd_error d) (sd_write_ok d).

(** What a future adds to [all_results]. *)
Definition kept_results (d : student_done) : list tutoring_record :=
  match sd_error d with
  | Some _ => []
  | None => sd_results d
  end.

(** The loop, then [if all_results: save_results_batch(...)]. *)
Definition save_all (file : Persister.csv_file tutoring_record)
    (futures : list student_done) (last_write_ok : bool)
  : Persister.csv_file tutoring_record :=
  let st := fold_left on_student futures (Persister.init file) in
  fst (Persister.save_results_batch (Persister.batch_results st)
         (Persister.results_file st) (Persister.is_first_batch st)
         last_write_ok).

(** The rest of the loop from the state [st] on, then the last save. *)
Definition save_from (st : Persister.state tutoring_record)
    (futures : list student_done) (last_write_ok : bool)
  : Persister.csv_file tutoring_record :=
  let st' := fold_left on_student futures st in
  fst (Persister.save_results_batch (Persister.batch_results st')
         (Persister.results_file st') (Persister.is_first_batch st')
         last_write_ok).

(** *** Resuming [main] *)

(** The pairs of the rows of the existing results file: every row
    counts, whatever its content. *)
Definition processed_pairs_of (existing_df : option (list tutoring_record))
  : gset (Z * string) :=
  match existing_df with
  | None => ∅
  | Some rows => list_to_set (map (fun r => (tr_student_id r, tr_kc_name r)) rows)
  end.

Definition not_processed (processed_pairs : gset (Z * string)) (student_id : Z)
    (kc : string) : bool :=
  bool_decide ((student_id, kc) ∉ processed_pairs).

(** The first loop of [main] over [student_ids].  [weak_kcs_of sid] is
    [None] for a student without records and else the list
    [identify_weak_kcs] returns for the training part of the records. *)
Definition student_weak_kcs_map (weak_kcs_of : Z -> option (list string))
    (student_ids : list Z) : gmap Z (list string) :=
  fold_left
    (fun m student_id =>
       match weak_kcs_of student_id with
       | Some weak_kcs => <[student_id := weak_kcs]> m
       | None => m
       end)
    student_ids ∅.

(** The set built by the two nested loops over the items of the map. *)
Definition missing_pairs (m : gmap Z (list string))
    (processed_pairs : gset (Z * string)) : gset (Z * string) :=
  list_to_set
    (flat_map
       (fun '(student_id, weak_kcs) =>
          map (pair student_id)
              (List.filter (not_processed processed_pairs student_id) weak_kcs))
       (map_to_list m)).

Definition pending_students (student_ids : list Z) (m : gmap Z (list string))
    (processed_pairs : gset (Z * string)) : list Z :=
  List.filter
    (fun student_id =>
       match default [] (m !! student_id) with
       | [] => false
       | (_ :: _) as weak_kcs =>
           existsb (not_processed processed_pairs student_id) weak_kcs
       end)
    student_ids.

(** Step 3 of [generate_tutoring_for_student]: the components for which
    a tutoring task is created. *)
Definition kcs_to_generate (weak_kcs : list string) (student_id : Z)
    (processed_pairs : gset (Z * string)) : list string :=
  match weak_kcs with
  | [] => []
  | _ :: _ =>
      if bool_decide (processed_pairs <> ∅) then
        match List.filter (not_processed processed_pairs student_id) weak_kcs with
        | [] => []
        | (_ :: _) as missing_kcs => missing_kcs
        end
      else weak_kcs
  end.

End GenerateTutoring.

(** ** Vocabulary of the specification *)

Module Spec.
Import AssessMastery.

(** The checkpoint store holds a record for the composite key [k] whose
    [mastery_level] is neither null nor empty. *)
Definition done_in (C : list results_row) (k : Z * string) : Prop :=
  exists r s, r ∈ C /\ pair_of_row r = k
              /\ df_mastery_level r = Some s /\ s <> "".

(** The request a manifest row stands for at position [i]. *)
Definition request_of_row (MODEL_NAME : string) (i : nat) (row : manifest_row)
  : request :=
  mkRequest i (mf_system_prompt row) (mf_user_prompt row) MODEL_NAME
    (mf_student_id row, mf_kc_name row).

(** The composite keys of the requests, in order. *)
Definition keys_of (l : list request) : list (Z * string) := map rq_context l.

(** What a results file that was [f0] is once [rows] have been saved to
    it: nothing changes for no rows; a file that did not exist is created
    with a header line; an existing file gets the rows and no header. *)
Definition appended {R : Type} (f0 : Persister.csv_file R) (rows : list R)
  : Persister.csv_file R :=
  match rows, f0 with
  | [], _ => f0
  | _ :: _, None => Some (Persister.Header :: map Persister.Row rows)
  | _ :: _, Some lines => Some (lines ++ map Persister.Row rows)
  end.

(** The persister has taken the records [recs], one at a time, starting
    from the file [f0], every write having succeeded: a whole number of
    batches of them is in the file, the rest in the buffer. *)
Definition persisted {R : Type} (threshold : nat) (f0 : Persister.csv_file R)
    (recs : list R) (st : Persister.state R) : Prop :=
  exists flushed,
    Persister.results_file st = appended f0 flushed
    /\ flushed ++ Persister.batch_results st = recs
    /\ length flushed = (threshold * (length recs / threshold))%nat
    /\ (length (Persister.batch_results st) < threshold)%nat
    /\ (Persister.is_first_batch st = true -> Persister.results_file st = None)
    /\ Persister.total_saved st = length flushed.

(** The records of a list of completions, in completion order. *)
Definition records_of (cs : list completion) : list result_record :=
  map (fun c => make_result_record (c_request c) (c_outcome c)) cs.

Definition all_writes_ok (cs : list completion) : Prop :=
  Forall (fun c => c_write_ok c = true) cs.

(** The records of a pass in the order of the requests. *)
Definition pass_records (all_requests : list request) (p : pass)
  : list result_record :=
  imap (fun i req => make_result_record req (outcome_of p i)) all_requests.

(** The writes of stage 4 succeed, and those of the whole pass. *)
Definition stage4_writes_ok (p : pass) : Prop :=
  (forall i, stage4_write_ok p i = true) /\ stage4_last_write_ok p = true.

Definition writes_ok (p : pass) : Prop :=
  (forall i, stage3_write_ok p i = true) /\ stage3_last_write_ok p = true
  /\ stage4_writes_ok p.

(** Each of the [n] coroutines of a pass ends, once. *)
Definition every_task_ends (n : nat) (p : pass) : Prop :=
  Permutation (ended p) (seq 0 n).

(** A results file as the persister leaves it: absent, or a header line
    followed by data rows. *)
Definition wf_file {R : Type} (f : Persister.csv_file R) : Prop :=
  f = None \/ exists rows, f = Some (Persister.Header :: map Persister.Row rows).

(** The [mastery_level] of a written record is read back as a value. *)
Definition reads_back (r : result_record) : Prop :=
  Pandas.read_cell (mastery_level r) <> None.

(** An error text of the rate-limit class: it contains "429",
    "rate limit" or "too many requests", whatever the case. *)
Definition rate_limit_class (error_text : string) : Prop :=
  PyStr.substring_of "429" (PyStr.lower error_text)
  \/ PyStr.substring_of "rate limit" (PyStr.lower error_text)
  \/ PyStr.substring_of "too many requests" (PyStr.lower error_text).

(** The sleeps of a trace, in order, and the number of its calls. *)
Fixpoint sleeps_of (t : list LlmUtils.event) : list Z :=
  match t with
  | [] => []
  | LlmUtils.Slept d :: rest => d :: sleeps_of rest
  | LlmUtils.Called _ :: rest => sleeps_of rest
  end.

Fixpoint calls_of (t : list LlmUtils.event) : nat :=
  match t with
  | [] => 0
  | LlmUtils.Called _ :: rest => S (calls_of rest)
  | LlmUtils.Slept _ :: rest => calls_of rest
  end.

(** The trace of a loop that fails at every attempt from [attempt] on and
    has the delays [later] left: a call, then for each delay the sleep and
    the next call. *)
Fixpoint backoff_trace (attempt : nat) (later : list Z) : list LlmUtils.event :=
  LlmUtils.Called attempt
  :: match later with
     | [] => []
     | delay :: later' => LlmUtils.Slept delay :: backoff_trace (S attempt) later'
     end.

(** A result list in which some task failed with such an error. *)
Definition some_task_rate_limited (results : list LlmUtils.call_result) : Prop :=
  exists r e, r ∈ results /\ LlmUtils.cr_error r = Some e /\ rate_limit_class e.

(** An exception the handler of line 158 catches and whose text passes
    the test of line 160: an [APIError] (any exception when the import of
    [openai] failed) with "429" or "rate limit" in its text, whatever the
    case. *)
Definition throttling_exception (openai_installed : bool)
    (e : LlmUtils.exception) : Prop :=
  (openai_installed = false \/ LlmUtils.is_api_error e = true)
  /\ (PyStr.substring_of "429" (PyStr.lower (LlmUtils.exc_text e))
      \/ PyStr.substring_of "rate limit" (PyStr.lower (LlmUtils.exc_text e))).

(** A call of the batch that ends throttled: it returns a list in which
    some task is rate limited, or raises a throttling exception. *)
Definition throttled (openai_installed : bool) (o : LlmUtils.batch_outcome)
  : Prop :=
  match o with
  | LlmUtils.BatchReturned results => some_task_rate_limited results
  | LlmUtils.BatchRaised e => throttling_exception openai_installed e
  end.

(** How the function ends when it gives up on a call that did [o]. *)
Definition ending_of (o : LlmUtils.batch_outcome) : LlmUtils.final :=
  match o with
  | LlmUtils.BatchReturned results => LlmUtils.ReturnResults results
  | LlmUtils.BatchRaised e => LlmUtils.Reraise e
  end.

(** A text that [strip] leaves as it is, on one line and not empty. *)
Definition clean (s : string) : Prop :=
  PyStr.single_line s = true /\ PyStr.strip s = s /\ s <> "".

Definition newline : string := String PyStr.nl EmptyString.

(** An answer in the format the mastery prompt asks for, the three
    fields on three lines that follow one another. *)
Definition format_response (level rationale suggestions : string) : string :=
  String.append "Mastery Level: " (String.append level (String PyStr.nl
    (String.append "Rationale: " (String.append rationale (String PyStr.nl
      (String.append "Suggestions: " suggestions)))))).

(** The same with an empty line between the fields, as the prompt prints
    its format. *)
Definition format_response_spaced (level rationale suggestions : string)
  : string :=
  String.append "Mastery Level: " (String.append level (String PyStr.nl
    (String PyStr.nl
      (String.append "Rationale: " (String.append rationale (String PyStr.nl
        (String PyStr.nl
          (String.append "Suggestions: " suggestions)))))))).

(** [b] is in the set the map holds for [a]. *)
Definition related (m : gmap string (gset string)) (a b : string) : Prop :=
  exists s, m !! a = Some s /\ b ∈ s.

(** [a] is an end of some edge. *)
Definition touched (edges : list (string * string)) (a : string) : Prop :=
  exists x, (a, x) ∈ edges \/ (x, a) ∈ edges.

(** Every key of the map is in its own set. *)
Definition reflexive_map (m : gmap string (gset string)) : Prop :=
  forall k s, m !! k = Some s -> k ∈ s.

(** What the lookup holds for a student and a knowledge component. *)
Definition lookup_info (m : gmap Z (gmap string RunExperiment.mastery_info))
    (sid : Z) (kc : string) : option RunExperiment.mastery_info :=
  m !! sid ≫= fun per_kc => per_kc !! kc.

(** The last row of a table for a student and a knowledge component. *)
Definition last_row_for (df : list RunExperiment.mastery_row) (sid : Z)
    (kc : string) : option RunExperiment.mastery_row :=
  last (List.filter
          (fun row => bool_decide (RunExperiment.ms_student_id row = sid
                                   /\ RunExperiment.ms_kc_name row = kc)) df).

(** An answer in the format the experiment prompt asks for. *)
Definition format_answers (a1 a2 a3 a4 : string) : string :=
  String.append "Task1: " (String.append a1 (String PyStr.nl
    (String.append "Task2: " (String.append a2 (String PyStr.nl
      (String.append "Task3: " (String.append a3 (String PyStr.nl
        (String.append "Task4: " a4))))))))).

(** The line starts, once stripped, with one of the three markers. *)
Definition marked (line : string) : bool :=
  PyStr.startswith (PyStr.strip line) "Mastery Level:"
  || PyStr.startswith (PyStr.strip line) "Rationale:"
  || PyStr.startswith (PyStr.strip line) "Suggestions:".

End Spec.

(** ** Sample data *)

Module Samples.
Import LlmUtils AssessMastery GenerateTutoring.

Definition sample_request (i : nat) : request :=
  mkRequest i "You assess mastery." "Exam records of the student."
    "gpt-3.5-turbo" (Z.of_nat i, "Fractions").

Definition answered (i : nat) : completion :=
  mkCompletion (sample_request i) (Returned "Mastery Level: Proficient") true.

(** The disk refuses the write that this completion triggers. *)
Definition answered_disk_full (i : nat) : completion :=
  mkCompletion (sample_request i) (Returned "Mastery Level: Proficient") false.

Definition hundred_answered : list completion := map answered (seq 0 100).

Definition ninety_nine_answered : list completion := map answered (seq 0 99).

Definition sample_tutoring (kc : string) : tutoring_record :=
  mkTutoring 7 kc "Review the definition." [11; 12; 13]%Z
    "Review the definition." "You are a tutor." "Explain the topic.".

(** The remote service throttles every call. *)
Definition always_throttled (k : nat) : call_outcome :=
  Raised "Error code: 429 - Rate limit reached for requests" "RateLimitError".

(** The first call is refused for its payload, the second one answers. *)
Definition bad_payload_then_answer (k : nat) : call_outcome :=
  match k with
  | O => Raised "Invalid request payload" "BadRequestError"
  | S _ => Returned "Task1: B"
  end.

Definition batch_bad_payload (m : llm_module) (k : nat) : batch_outcome :=
  BatchReturned [ mkCallResult None (Some "Invalid request payload") ].

(** One task is refused for its payload, another one is throttled. *)
Definition batch_bad_payload_and_throttled (m : llm_module) (k : nat)
  : batch_outcome :=
  BatchReturned
    [ mkCallResult None (Some "Invalid request payload");
      mkCallResult None (Some "HTTP 429 Too Many Requests") ].

(** The call of the batch raises the [RateLimitError] of [openai], every
    time. *)
Definition rate_limit_error : exception :=
  mkException true "Error code: 429 - Rate limit reached for requests".

Definition batch_always_raising (m : llm_module) (k : nat) : batch_outcome :=
  BatchRaised rate_limit_error.

(** The first call of the batch raises, the later ones return a list with
    a throttled task. *)
Definition batch_raising_then_throttled (m : llm_module) (k : nat)
  : batch_outcome :=
  match k with
  | O => BatchRaised rate_limit_error
  | S _ => BatchReturned
             [ mkCallResult (Some "Task1: done") None;
               mkCallResult None (Some "HTTP 429 Too Many Requests") ]
  end.

(** An exception of another library, with the status 429 in its text. *)
Definition client_response_error : exception :=
  mkException false "429, message='Too Many Requests'".

Definition sample_manifest : list manifest_row :=
  [ mkManifestRow 1 "Fractions" "You assess mastery." "Records of student 1.";
    mkManifestRow 2 "Fractions" "You assess mastery." "Records of student 2." ].

Definition request_2 : request :=
  mkRequest 1 "You assess mastery." "Records of student 2." "gpt-3.5-turbo"
    (2%Z, "Fractions").

(** Both requests are answered, the second one first, and every write
    works. *)
Definition both_answered : pass :=
  mkPass
    (fun i => match i with
              | O => Returned "Mastery Level: Mastered"
              | S _ => Returned "Mastery Level: Novice"
              end)
    [1; 0]%nat (fun _ => true) true (fun _ => true) true.

(** The first request is answered, the call of the second one fails;
    every write works. *)
Definition second_call_failed : pass :=
  mkPass
    (fun i => match i with
              | O => Returned "Mastery Level: Mastered"
              | S _ => Raised "Connection timed out" "TimeoutError"
              end)
    [0; 1]%nat (fun _ => true) true (fun _ => true) true.

(** One request, which is answered; every write works. *)
Definition one_answered : pass :=
  mkPass (fun _ => Returned "Mastery Level: Novice") [0]%nat
    (fun _ => true) true (fun _ => true) true.

Definition sample_questions : gmap string (list Z) :=
  {[ "Fractions" := [1; 2; 3; 4; 5]%Z ]}.

Definition sample_test_ids : gset Z := {[ 2%Z; 5%Z ]}.

Definition sample_texts : gmap Z string :=
  {[ 1%Z := "What is 1/2 + 1/4?"; 3%Z := "  Simplify 6/8.  " ]}.

Definition sample_choices : list choice_row :=
  [ mkChoiceRow 1 "3/4" true; mkChoiceRow 1 "2/6" false;
    mkChoiceRow 3 "2/3" false; mkChoiceRow 3 "3/4" true ].

End Samples.

(** * Properties *)

Section PyStrFacts.
Import PyStr.

Lemma prefix_spec (p s : string) :
  String.prefix p s = true <-> exists post, s = String.append p post.
Proof.
  revert s. induction p as [|a p IH]; intros s; simpl.
  - split; [intros _; exists s; reflexivity | intros _; now destruct s].
  - destruct s as [|b s]; simpl.
    + split; [discriminate | intros [post H]; discriminate].
    + destruct (ascii_dec a b) as [->|Hne].
      * rewrite IH. split; intros [post H]; exists post.
        -- now rewrite H.
        -- now injection H.
      * split; [discriminate |].
        intros [post H]. injection H as H1 H2. congruence.
Qed.

Lemma contains_spec (n h : string) :
  contains n h = true <-> substring_of n h.
Proof.
  unfold substring_of. induction h as [|c h IH].
  - cbn [contains]. rewrite orb_false_r, prefix_spec. split.
    + intros [post H]. exists EmptyString, post. exact H.
    + intros [pre [post H]]. destruct pre; simpl in H.
      * exists post. exact H.
      * discriminate.
  - cbn [contains]. rewrite orb_true_iff, IH, prefix_spec. split.
    + intros [[post H]|[pre [post H]]].
      * exists EmptyString, post. exact H.
      * exists (String c pre), post. simpl. now rewrite H.
    + intros [pre [post H]]. destruct pre as [|a pre]; simpl in H.
      * left. exists post. exact H.
      * right. injection H as _ H. exists pre, post. exact H.
Qed.

Lemma contains_false_spec (n h : string) :
  contains n h = false <-> ~ substring_of n h.
Proof.
  rewrite <- contains_spec. destruct (contains n h); split; intros; congruence.
Qed.

(** What the width tells of the bytes the text starts with. *)
Lemma space_width_inv (c : ascii) (r : string) :
  match space_width (String c r) with
  | 0 => True
  | 1 => ascii_space (nat_of_ascii c) = true
  | 2 => (128 <= nat_of_ascii c)%nat
         /\ exists d r2, r = String d r2 /\ (128 <= nat_of_ascii d)%nat
  | 3 => (128 <= nat_of_ascii c)%nat
         /\ exists d e r3, r = String d (String e r3)
            /\ (128 <= nat_of_ascii d)%nat /\ (128 <= nat_of_ascii e)%nat
  | _ => False
  end.
Proof.
  cbn [space_width]. cbv zeta.
  destruct (ascii_space (nat_of_ascii c)) eqn:Hs; [reflexivity|].
  destruct (Nat.eqb_spec (nat_of_ascii c) 194) as [Hc|_].
  { destruct r as [|d r2]; [exact I|].
    destruct ((nat_of_ascii d =? 133)%nat || (nat_of_ascii d =? 160)%nat) eqn:Hd;
      [|exact I].
    split; [lia|]. exists d, r2. split; [reflexivity|].
    apply orb_true_iff in Hd as [Hd|Hd]; apply Nat.eqb_eq in Hd; lia. }
  destruct (Nat.eqb_spec (nat_of_ascii c) 225) as [Hc|_].
  { destruct r as [|d [|e r3]]; try exact I.
    destruct ((nat_of_ascii d =? 154)%nat && (nat_of_ascii e =? 128)%nat) eqn:Hd;
      [|exact I].
    apply andb_true_iff in Hd as [Hd He].
    apply Nat.eqb_eq in Hd. apply Nat.eqb_eq in He.
    split; [lia|]. exists d, e, r3. split; [reflexivity|]. lia. }
  destruct (Nat.eqb_spec (nat_of_ascii c) 226) as [Hc|_].
  { destruct r as [|d [|e r3]]; try exact I.
    destruct (Nat.eqb_spec (nat_of_ascii d) 128) as [Hd|Hd]; cbn [andb].
    - destruct (((128 <=? nat_of_ascii e)%nat && (nat_of_ascii e <=? 138)%nat)
                || (nat_of_ascii e =? 168)%nat || (nat_of_ascii e =? 169)%nat
                || (nat_of_ascii e =? 175)%nat) eqn:He.
      + split; [lia|]. exists d, e, r3. split; [reflexivity|]. split; [lia|].
        repeat (apply orb_true_iff in He as [He|He]);
          try (apply Nat.eqb_eq in He; lia).
        apply andb_true_iff in He as [He _]. apply Nat.leb_le in He. lia.
      + destruct (Nat.eqb_spec (nat_of_ascii d) 129) as [?|_]; [lia|]. exact I.
    - destruct ((nat_of_ascii d =? 129)%nat && (nat_of_ascii e =? 159)%nat) eqn:He;
        [|exact I].
      apply andb_true_iff in He as [H1 H2].
      apply Nat.eqb_eq in H1. apply Nat.eqb_eq in H2.
      split; [lia|]. exists d, e, r3. split; [reflexivity|]. lia. }
  destruct (Nat.eqb_spec (nat_of_ascii c) 227) as [Hc|_]; [|exact I].
  destruct r as [|d [|e r3]]; try exact I.
  destruct ((nat_of_ascii d =? 128)%nat && (nat_of_ascii e =? 128)%nat) eqn:Hd;
    [|exact I].
  apply andb_true_iff in Hd as [Hd He].
  apply Nat.eqb_eq in Hd. apply Nat.eqb_eq in He.
  split; [lia|]. exists d, e, r3. split; [reflexivity|]. lia.
Qed.

Lemma space_width_ascii (c : ascii) (r : string) :
  (nat_of_ascii c < 128)%nat ->
  space_width (String c r) = if ascii_space (nat_of_ascii c) then 1%nat else 0%nat.
Proof.
  intros H. cbn [space_width]. cbv zeta.
  destruct (ascii_space (nat_of_ascii c)); [reflexivity|].
  destruct (Nat.eqb_spec (nat_of_ascii c) 194) as [?|_]; [lia|].
  destruct (Nat.eqb_spec (nat_of_ascii c) 225) as [?|_]; [lia|].
  destruct (Nat.eqb_spec (nat_of_ascii c) 226) as [?|_]; [lia|].
  destruct (Nat.eqb_spec (nat_of_ascii c) 227) as [?|_]; [lia|].
  reflexivity.
Qed.

Lemma lstrip_eq (s : string) :
  lstrip s
  = match s with
    | EmptyString => EmptyString
    | String _ r1 =>
        match space_width s with
        | 0 => s
        | 1 => lstrip r1
        | 2 => match r1 with
               | String _ r2 => lstrip r2
               | EmptyString => s
               end
        | _ => match r1 with
               | String _ (String _ r3) => lstrip r3
               | _ => s
               end
        end
    end.
Proof. now destruct s. Qed.

(** [lstrip] cuts a text short at its start. *)
Lemma lstrip_suffix (s : string) : exists pre, s = String.append pre (lstrip s).
Proof.
  remember (String.length s) as n eqn:Hn.
  assert (H : (String.length s <= n)%nat) by lia. clear Hn.
  revert s H. induction n as [|n IH]; intros s H.
  { destruct s; [now exists EmptyString | simpl in H; lia]. }
  rewrite lstrip_eq. destruct s as [|c r1]; [now exists EmptyString|].
  simpl in H.
  destruct (space_width (String c r1)) as [|[|[|k]]].
  - now exists EmptyString.
  - destruct (IH r1) as [pre Hp]; [lia|].
    exists (String c pre).
    change (String c r1 = String c (String.append pre (lstrip r1))).
    now f_equal.
  - destruct r1 as [|d r2]; [now exists EmptyString|]. simpl in H.
    destruct (IH r2) as [pre Hp]; [lia|].
    exists (String c (String d pre)).
    change (String c (String d r2)
            = String c (String d (String.append pre (lstrip r2)))).
    now do 2 f_equal.
  - destruct r1 as [|d [|e r3]]; try (now exists EmptyString). simpl in H.
    destruct (IH r3) as [pre Hp]; [lia|].
    exists (String c (String d (String e pre))).
    change (String c (String d (String e r3))
            = String c (String d (String e (String.append pre (lstrip r3))))).
    now do 3 f_equal.
Qed.

Lemma length_string_append (s t : string) :
  String.length (String.append s t) = (String.length s + String.length t)%nat.
Proof. induction s as [|c s IH]; simpl; [reflexivity | now rewrite IH]. Qed.

Lemma length_lstrip (s : string) :
  (String.length (lstrip s) <= String.length s)%nat.
Proof.
  destruct (lstrip_suffix s) as [pre H]. rewrite H at 2.
  rewrite length_string_append. lia.
Qed.

Lemma lstrip_same_length (s : string) :
  String.length (lstrip s) = String.length s -> lstrip s = s.
Proof.
  destruct (lstrip_suffix s) as [pre H]. intros Hl.
  rewrite H in Hl at 2. rewrite length_string_append in Hl.
  destruct pre; [now rewrite H at 2 | simpl in Hl; lia].
Qed.

Lemma length_rstrip (s : string) :
  (String.length (rstrip s) <= String.length s)%nat.
Proof.
  induction s as [|c r IH]; [reflexivity|]. cbn [rstrip].
  destruct (all_space (String c r)); simpl; lia.
Qed.

Lemma rstrip_same_length (s : string) :
  String.length (rstrip s) = String.length s -> rstrip s = s.
Proof.
  induction s as [|c r IH]; [reflexivity|]. cbn [rstrip].
  destruct (all_space (String c r)); simpl; [discriminate|].
  intros H. f_equal. apply IH. lia.
Qed.

Lemma strip_fixed (s : string) : strip s = s -> lstrip s = s /\ rstrip s = s.
Proof.
  unfold strip. intros H.
  assert (Hl : lstrip s = s).
  { apply lstrip_same_length.
    pose proof (length_lstrip s). pose proof (length_rstrip (lstrip s)).
    rewrite H in *. lia. }
  split; [exact Hl|]. now rewrite Hl in H.
Qed.

(** A text that does not start with white space keeps its first byte. *)
Lemma rstrip_cons (c : ascii) (r : string) :
  space_width (String c r) = 0%nat ->
  rstrip (String c r) = String c (rstrip r).
Proof.
  intros H. cbn [rstrip]. unfold all_space. rewrite lstrip_eq, H. reflexivity.
Qed.

Lemma rstrip_single_line (s : string) :
  single_line s = true -> single_line (rstrip s) = true.
Proof.
  induction s as [|c r IH]; [reflexivity|]. cbn [single_line rstrip].
  intros H. apply andb_true_iff in H as [Hc Hr].
  destruct (all_space (String c r)); [reflexivity|].
  cbn [single_line]. now rewrite Hc, (IH Hr).
Qed.

(** What [rstrip] leaves unchanged is not white space only. *)
Lemma rstrip_fixed_not_space (b : string) :
  rstrip b = b -> b <> "" -> all_space b = false.
Proof.
  destruct b as [|c r]; [congruence|]. cbn [rstrip]. intros H _.
  destruct (all_space (String c r)); [discriminate | reflexivity].
Qed.

(** White space cannot run from bytes of the ASCII range into a text that
    is not white space itself. *)
Lemma all_space_after_ascii (a b : string) :
  ascii_only a = true ->
  all_space (String.append a b) = true -> all_space b = true.
Proof.
  induction a as [|c a IH]; [auto|]. cbn [ascii_only].
  intros H. apply andb_true_iff in H as [Hc Ha]. apply Nat.ltb_lt in Hc.
  change (String.append (String c a) b) with (String c (String.append a b)).
  unfold all_space at 1. rewrite lstrip_eq, (space_width_ascii _ _ Hc).
  destruct (ascii_space (nat_of_ascii c)); [|discriminate].
  intros H. now apply IH.
Qed.

(** No white-space character spans the place where a text of the ASCII
    range starts. *)
Lemma all_space_before_ascii (a b : string) :
  starts_ascii b = true ->
  all_space (String.append a b) = true -> all_space b = true.
Proof.
  intros Hb.
  remember (String.length a) as n eqn:Hn.
  assert (H : (String.length a <= n)%nat) by lia. clear Hn.
  revert a H. induction n as [|n IH]; intros a H.
  { destruct a; [auto | simpl in H; lia]. }
  destruct a as [|c a1]; [auto|]. simpl in H.
  change (String.append (String c a1) b) with (String c (String.append a1 b)).
  unfold all_space at 1. rewrite lstrip_eq.
  pose proof (space_width_inv c (String.append a1 b)) as Hw.
  destruct (space_width (String c (String.append a1 b))) as [|[|[|[|k]]]].
  - discriminate.
  - intros Hs. apply (IH a1); [lia | exact Hs].
  - destruct Hw as (_ & d & r2 & Hr & Hd).
    destruct a1 as [|d' a2].
    + change (b = String d r2) in Hr. subst b. cbn [starts_ascii] in Hb.
      apply Nat.ltb_lt in Hb. lia.
    + change (String.append (String d' a2) b)
        with (String d' (String.append a2 b)).
      intros Hs. apply (IH a2); [simpl in H; lia | exact Hs].
  - destruct Hw as (_ & d & e & r3 & Hr & Hd & He).
    destruct a1 as [|d' [|e' a3]].
    + change (b = String d (String e r3)) in Hr. subst b. cbn [starts_ascii] in Hb.
      apply Nat.ltb_lt in Hb. lia.
    + change (String d' b = String d (String e r3)) in Hr.
      injection Hr as _ Hr. subst b. cbn [starts_ascii] in Hb.
      apply Nat.ltb_lt in Hb. lia.
    + change (String.append (String d' (String e' a3)) b)
        with (String d' (String e' (String.append a3 b))).
      intros Hs. apply (IH a3); [simpl in H; lia | exact Hs].
  - destruct Hw.
Qed.

(** [rstrip] keeps what stands before a text that is not white space only,
    when that text starts in the ASCII range ... *)
Lemma rstrip_before_ascii (a b : string) :
  starts_ascii b = true -> all_space b = false ->
  rstrip (String.append a b) = String.append a (rstrip b).
Proof.
  intros Hb Hs. induction a as [|c a IH]; [reflexivity|].
  change (String.append (String c a) b) with (String c (String.append a b)).
  cbn [rstrip].
  destruct (all_space (String c (String.append a b))) eqn:E.
  - apply (all_space_before_ascii (String c a) b Hb) in E. congruence.
  - rewrite IH. reflexivity.
Qed.

(** ... or when what stands before it is of the ASCII range. *)
Lemma rstrip_after_ascii (a b : string) :
  ascii_only a = true -> all_space b = false ->
  rstrip (String.append a b) = String.append a (rstrip b).
Proof.
  intros Ha Hs. induction a as [|c a IH]; [reflexivity|].
  change (String.append (String c a) b) with (String c (String.append a b)).
  cbn [rstrip].
  destruct (all_space (String c (String.append a b))) eqn:E.
  - apply (all_space_after_ascii (String c a) b Ha) in E. congruence.
  - cbn [ascii_only] in Ha. apply andb_true_iff in Ha as [_ Ha].
    rewrite (IH Ha). reflexivity.
Qed.

(** [rstrip] keeps a word of the ASCII range a text starts with. *)
Lemma rstrip_after_word (a u : string) :
  ascii_word a = true -> rstrip (String.append a u) = String.append a (rstrip u).
Proof.
  induction a as [|c a IH]; intros H; [reflexivity|].
  cbn [ascii_word] in H. apply andb_true_iff in H as [H Ha].
  apply andb_true_iff in H as [Hc Hn].
  apply Nat.ltb_lt in Hc. apply negb_true_iff in Hn.
  change (String.append (String c a) u) with (String c (String.append a u)).
  rewrite rstrip_cons, (IH Ha); [reflexivity|].
  now rewrite (space_width_ascii _ _ Hc), Hn.
Qed.

Lemma append_nonempty (a b : string) : b <> "" -> String.append a b <> "".
Proof. destruct a; [auto | discriminate]. Qed.

Lemma kept_after_ascii (a b : string) :
  ascii_only a = true -> kept b -> kept (String.append a b).
Proof.
  intros Ha [Hb Hne]. split; [|now apply append_nonempty].
  rewrite rstrip_after_ascii, Hb; auto using rstrip_fixed_not_space.
Qed.

Lemma kept_before_ascii (a b : string) :
  starts_ascii b = true -> kept b -> kept (String.append a b).
Proof.
  intros Ha [Hb Hne]. split; [|now apply append_nonempty].
  rewrite rstrip_before_ascii, Hb; auto using rstrip_fixed_not_space.
Qed.

Lemma kept_cons (c : ascii) (b : string) :
  (nat_of_ascii c <? 128)%nat = true -> kept b -> kept (String c b).
Proof.
  intros Hc. apply (kept_after_ascii (String c "") b).
  cbn [ascii_only]. now rewrite Hc.
Qed.

(** [len] and slices. *)
Lemma len_append (s t : string) :
  len (String.append s t) = (len s + len t)%nat.
Proof.
  induction s as [|c s IH]; [reflexivity|].
  change (String.append (String c s) t) with (String c (String.append s t)).
  cbn [len]. rewrite IH. now destruct (is_continuation c).
Qed.

Lemma len_take_chars (n : nat) (s : string) :
  len (take_chars n s) = Nat.min n (len s).
Proof.
  revert n. induction s as [|c s IH]; intros n; cbn [take_chars len].
  - lia.
  - destruct (is_continuation c) eqn:E.
    + cbn [len]. rewrite E. apply IH.
    + destruct n as [|k]; [reflexivity|]. cbn [len]. rewrite E, IH. lia.
Qed.

(** [strip] takes the no-break space U+00A0 and the ideographic space
    U+3000 away and keeps the letter U+00E0, whose encoding ends in the
    byte A0. *)
Example strip_unicode_space :
  let b n := String (ascii_of_nat n) EmptyString in
  let nbsp := String.append (b 194) (b 160) in
  let wide := String.append (b 227) (String.append (b 128) (b 128)) in
  let a_grave := String.append (b 195) (b 160) in
  strip (String.append nbsp (String.append " voil"
           (String.append a_grave (String.append wide nbsp))))
  = String.append "voil" a_grave
  /\ len (String.append "voil" a_grave) = 5%nat
  /\ take_chars 5 (String.append "voil" (String.append a_grave "!"))
     = String.append "voil" a_grave.
Proof. vm_compute. repeat split; reflexivity. Qed.

End PyStrFacts.

(** One step of the proof that [rstrip] keeps a formatted answer: a marker
    or a line feed before a kept text, or a field before a line feed. *)
Ltac keep_step :=
  first [ apply kept_after_ascii; [reflexivity|]
        | apply kept_before_ascii; [reflexivity|]
        | apply kept_cons; [reflexivity|] ].

Section Routing.
Import PyStr LlmUtils.

(** C10. [get_llm_module] is a total function of the model name: a name
    whose lower-cased text contains "qwen" goes to the qwen module; failing
    that, one that contains "doubao" goes to doubao; failing both, one that
    contains "gpt" goes to mid_journey; and every other name, the empty
    string included, falls back to doubao.  No name is rejected. *)
Theorem get_llm_module_routing (model_name : string) :
  let l := lower model_name in
  (substring_of "qwen" l -> get_llm_module model_name = qwen)
  /\ (~ substring_of "qwen" l -> substring_of "doubao" l ->
      get_llm_module model_name = doubao)
  /\ (~ substring_of "qwen" l -> ~ substring_of "doubao" l ->
      substring_of "gpt" l -> get_llm_module model_name = mid_journey)
  /\ (~ substring_of "qwen" l -> ~ substring_of "doubao" l ->
      ~ substring_of "gpt" l -> get_llm_module model_name = doubao)
  /\ get_llm_module "" = doubao
  /\ get_llm_module "GPT-4 (not Qwen)" = qwen
  /\ get_llm_module "llama-3" = doubao.
Proof.
  intros l. unfold get_llm_module. fold l.
  repeat split; try reflexivity.
  - intros H. apply contains_spec in H. now rewrite H.
  - intros H1 H2. apply contains_false_spec in H1. apply contains_spec in H2.
    now rewrite H1, H2.
  - intros H1 H2 H3. apply contains_false_spec in H1, H2.
    apply contains_spec in H3. now rewrite H1, H2, H3.
  - intros H1 H2 H3. apply contains_false_spec in H1, H2, H3.
    now rewrite H1, H2, H3.
Qed.

Lemma get_llm_module_routing_witness :
  substring_of "qwen" (lower "Qwen-Plus")
  /\ get_llm_module "Qwen-Plus" = qwen.
Proof.
  assert (H : substring_of "qwen" (lower "Qwen-Plus"))
    by (exists "", "-plus"; reflexivity).
  split; [exact H | exact (proj1 (get_llm_module_routing "Qwen-Plus") H)].
Defined.

End Routing.

(** ** The pending-set resolver *)

Section Resolver.
Import AssessMastery Spec.

Lemma completed_spec (r : results_row) :
  completed r = true <-> exists s, df_mastery_level r = Some s /\ s <> "".
Proof.
  unfold completed, Pandas.notna_and_nonempty.
  destruct (df_mastery_level r) as [s|].
  - rewrite negb_true_iff. split.
    + intros H. exists s. split; [reflexivity|].
      intros ->. now rewrite String.eqb_refl in H.
    + intros [s' [[= <-] Hne]]. now apply String.eqb_neq.
  - split; [discriminate | intros [s [[=] _]]].
Qed.

Lemma elem_of_processed_pairs (C : list results_row) (k : Z * string) :
  k ∈ processed_pairs_of C <-> done_in C k.
Proof.
  unfold processed_pairs_of, done_in.
  rewrite elem_of_list_to_set, list_elem_of_fmap. split.
  - intros [r [-> Hr]]. apply list_elem_of_In, filter_In in Hr.
    destruct Hr as [Hin Hc]. apply completed_spec in Hc as [s [Hs Hne]].
    exists r, s. rewrite list_elem_of_In. auto.
  - intros [r [s [Hin [Hk [Hs Hne]]]]]. exists r. split; [now rewrite Hk|].
    apply list_elem_of_In, filter_In. split; [now apply list_elem_of_In|].
    apply completed_spec. eauto.
Qed.

Lemma elem_of_pending_from MODEL P idx rows q :
  q ∈ pending_from MODEL P idx rows <->
  exists j row, rows !! j = Some row
                /\ q = request_of_row MODEL (idx + j) row
                /\ (mf_student_id row, mf_kc_name row) ∉ P.
Proof.
  revert idx. induction rows as [|row rest IH]; intros idx; simpl.
  - rewrite elem_of_nil. split; [tauto | intros [j [r [H _]]]; discriminate].
  - case_bool_decide as Hin.
    + rewrite IH. split.
      * intros [j [r [Hj [Hq Hn]]]]. exists (S j), r.
        repeat split; auto. now rewrite Nat.add_succ_r.
      * intros [[|j] [r [Hj [Hq Hn]]]]; simpl in Hj.
        -- injection Hj as <-. contradiction.
        -- exists j, r. repeat split; auto. now rewrite Nat.add_succ_l, <- Nat.add_succ_r.
    + rewrite elem_of_cons, IH. split.
      * intros [->|[j [r [Hj [Hq Hn]]]]].
        -- exists 0%nat, row. rewrite Nat.add_0_r. auto.
        -- exists (S j), r. repeat split; auto. now rewrite Nat.add_succ_r.
      * intros [[|j] [r [Hj [Hq Hn]]]]; simpl in Hj.
        -- injection Hj as <-. left. now rewrite Nat.add_0_r in Hq.
        -- right. exists j, r. repeat split; auto.
           now rewrite Nat.add_succ_l, <- Nat.add_succ_r.
Qed.

Lemma pending_from_sorted MODEL P idx rows :
  StronglySorted lt (map rq_index (pending_from MODEL P idx rows)).
Proof.
  revert idx. induction rows as [|row rest IH]; intros idx; simpl.
  - constructor.
  - case_bool_decide; [apply IH|]. simpl. constructor; [apply IH|].
    apply Forall_forall. intros i Hi.
    apply list_elem_of_fmap in Hi as [q [-> Hq]].
    apply elem_of_pending_from in Hq as [j [r [_ [-> _]]]].
    simpl. lia.
Qed.

(** The pending requests are the manifest rows, each turned into a
    request, that are not among the processed pairs: the filter of the
    manifest. *)
Lemma keys_of_pending_from MODEL P idx rows :
  keys_of (pending_from MODEL P idx rows)
  = List.filter (fun k => negb (bool_decide (k ∈ P)))
      (map (fun row => (mf_student_id row, mf_kc_name row)) rows).
Proof.
  revert idx. induction rows as [|row rest IH]; intros idx; simpl; [reflexivity|].
  case_bool_decide; simpl; now rewrite IH.
Qed.

(** C1. For every manifest [M] and every checkpoint store [C] (absent or
    not), [load_request_manifest] returns the manifest and a list of
    pending requests such that: a request is in the list exactly when it
    is the request of a manifest row, at that row's position, whose
    composite key has no record in [C] with a non-null, non-empty
    [mastery_level]; and the positions in the list increase strictly, so
    the manifest order is kept and no row is returned twice, whatever
    duplicates [C] holds. *)
Theorem load_request_manifest_pending (MODEL_NAME : string)
    (M : list manifest_row) (C : option (list results_row)) :
  exists pending,
    load_request_manifest MODEL_NAME (Some M) C = (Some M, pending)
    /\ (forall q, q ∈ pending <->
          exists row, M !! rq_index q = Some row
                      /\ q = request_of_row MODEL_NAME (rq_index q) row
                      /\ ~ done_in (default [] C) (rq_context q))
    /\ StronglySorted lt (map rq_index pending).
Proof.
  unfold load_request_manifest.
  set (P := match C with Some df => processed_pairs_of df | None => ∅ end).
  assert (HP : forall k, k ∈ P <-> done_in (default [] C) k).
  { intros k. subst P. destruct C as [df|]; simpl.
    - apply elem_of_processed_pairs.
    - split; [intros H; now apply not_elem_of_empty in H|].
      intros [r [s [H _]]]. now apply elem_of_nil in H. }
  eexists. split; [reflexivity|]. split; [|apply pending_from_sorted].
  intros q. rewrite elem_of_pending_from. split.
  - intros [j [row [Hj [Hq Hn]]]]. simpl in Hq. subst q. simpl.
    exists row. repeat split; auto. now rewrite <- HP.
  - intros [row [Hrow [Hq Hn]]]. exists (rq_index q), row.
    repeat split; auto. rewrite Hq in Hn. simpl in Hn. now rewrite HP.
Qed.

(** Three rows; the store holds the second key twice with a level, the
    third with a null level and one more with an empty level: the first
    and the third row are pending, once each, in manifest order. *)
Example load_request_manifest_sample :
  let M := [ mkManifestRow 1 "Fractions" "s1" "u1";
             mkManifestRow 1 "Decimals" "s2" "u2";
             mkManifestRow 2 "Fractions" "s3" "u3" ] in
  let C := [ mkResultsRow 1 "Decimals" (Some "Novice");
             mkResultsRow 1 "Decimals" (Some "Novice");
             mkResultsRow 2 "Fractions" None;
             mkResultsRow 2 "Fractions" (Some "") ] in
  load_request_manifest "gpt-4" (Some M) (Some C)
  = (Some M, [ mkRequest 0 "s1" "u1" "gpt-4" (1%Z, "Fractions");
               mkRequest 2 "s3" "u3" "gpt-4" (2%Z, "Fractions") ]).
Proof. vm_compute. reflexivity. Qed.

End Resolver.

(** ** The batch persister *)

Section PersisterFacts.
Import Persister Spec.
Context {R : Type}.

Lemma appended_nil (f0 : csv_file R) : appended f0 [] = f0.
Proof. reflexivity. Qed.

Lemma appended_app (f0 : csv_file R) (a b : list R) :
  appended (appended f0 a) b = appended f0 (a ++ b).
Proof.
  destruct a as [|x a]; [reflexivity|].
  destruct b as [|y b]; [now rewrite app_nil_r|].
  destruct f0 as [lines|]; cbn [appended app].
  - rewrite <- app_assoc. do 2 f_equal. symmetry.
    apply (map_app Row (x :: a) (y :: b)).
  - do 2 f_equal. symmetry. apply (map_app Row (x :: a) (y :: b)).
Qed.

Lemma rows_of_app (l1 l2 : list (csv_line R)) :
  rows_of (l1 ++ l2) = rows_of l1 ++ rows_of l2.
Proof.
  induction l1 as [|[|r] l1 IH]; simpl; [reflexivity | exact IH | now rewrite IH].
Qed.

Lemma rows_of_map_Row (l : list R) : rows_of (map Row l) = l.
Proof. induction l as [|x l IH]; simpl; [reflexivity | now rewrite IH]. Qed.

Lemma data_rows_appended (f0 : csv_file R) (rows : list R) :
  data_rows (appended f0 rows) = data_rows f0 ++ rows.
Proof.
  unfold data_rows. destruct rows as [|x rows]; [now rewrite app_nil_r|].
  destruct f0 as [lines|]; unfold appended, default; simpl.
  - rewrite rows_of_app. simpl. now rewrite rows_of_map_Row.
  - now rewrite rows_of_map_Row.
Qed.

Lemma header_count_appended (f0 : csv_file R) (rows : list R) :
  header_count (appended f0 rows)
  = (header_count f0
     + if path_exists f0 then 0 else match rows with [] => 0 | _ => 1 end)%nat.
Proof.
  assert (H : forall l : list R, List.filter is_header (map Row l) = []).
  { induction l as [|x l IH]; simpl; [reflexivity | exact IH]. }
  unfold header_count. destruct rows as [|x rows].
  - simpl. destruct f0; simpl; lia.
  - destruct f0 as [lines|]; unfold appended, default, path_exists; simpl.
    + rewrite List.filter_app. simpl. rewrite H, app_nil_r. lia.
    + now rewrite H.
Qed.

(** A successful save puts the batch in the file, with a header exactly
    when the file did not exist, provided the first-batch flag is only
    set while the file does not exist. *)
Lemma save_results_batch_ok (batch : list R) (file : csv_file R) (first : bool) :
  (first = true -> file = None) ->
  save_results_batch batch file first true
  = (appended file batch,
     match batch with [] => [] | _ => [SavedToFile (length batch)] end).
Proof.
  intros Hfirst. destruct batch as [|x batch]; [reflexivity|].
  unfold save_results_batch. destruct first.
  - rewrite (Hfirst eq_refl). reflexivity.
  - destruct file; reflexivity.
Qed.

(** A failed save leaves the file as it was and logs the failure. *)
Lemma save_results_batch_failed (batch : list R) (file : csv_file R)
    (first : bool) :
  batch <> [] ->
  save_results_batch batch file first false = (file, [BatchSaveFailed]).
Proof. intros H. destruct batch; [contradiction | reflexivity]. Qed.

Section Threshold.
Variable threshold : nat.
Hypothesis threshold_pos : (0 < threshold)%nat.

Lemma persisted_init (f0 : csv_file R) :
  persisted threshold f0 [] (init f0).
Proof.
  exists []. simpl. repeat split; auto.
  - rewrite Nat.Div0.div_0_l. lia.
  - destruct f0; simpl; [discriminate | reflexivity].
Qed.

Lemma persisted_step (f0 : csv_file R) (recs : list R) (st : state R) (r : R) :
  persisted threshold f0 recs st ->
  persisted threshold f0 (recs ++ [r]) (append_and_maybe_flush threshold st r true).
Proof.
  intros [flushed [Hfile [Hrecs [Hlen [Hlt [Hfirst Htot]]]]]].
  unfold append_and_maybe_flush.
  assert (Hb : length (batch_results st ++ [r]) = S (length (batch_results st)))
    by (rewrite length_app; simpl; lia).
  assert (Hr : length recs = (length flushed + length (batch_results st))%nat)
    by (rewrite <- Hrecs, length_app; reflexivity).
  assert (Hq : (length recs / threshold * threshold + length (batch_results st)
                = length recs)%nat) by lia.
  destruct (Nat.leb_spec threshold (length (batch_results st ++ [r]))) as [Hge|Hlt'].
  - rewrite save_results_batch_ok by exact Hfirst.
    exists (flushed ++ batch_results st ++ [r]). cbn [results_file batch_results
      is_first_batch total_saved].
    rewrite Hfile, appended_app. repeat split.
    + now rewrite app_nil_r, app_assoc, Hrecs.
    + assert (Hn : length (recs ++ [r]) = (S (length recs / threshold) * threshold)%nat)
        by (rewrite length_app; simpl; lia).
      rewrite Hn, Nat.div_mul by lia. rewrite !length_app. simpl. lia.
    + simpl. lia.
    + discriminate.
    + rewrite !length_app. simpl. lia.
  - exists flushed. cbn [results_file batch_results is_first_batch total_saved].
    repeat split; auto.
    + now rewrite app_assoc, Hrecs.
    + assert (Hn : length (recs ++ [r])
                   = (length recs / threshold * threshold
                      + S (length (batch_results st)))%nat)
        by (rewrite length_app; simpl; lia).
      rewrite Hn, Nat.div_add_l, (Nat.div_small (S _)) by lia. lia.
Qed.

Lemma persisted_flush_remaining (f0 : csv_file R) (recs : list R) (st : state R) :
  persisted threshold f0 recs st ->
  results_file (flush_remaining st true) = appended f0 recs
  /\ batch_results (flush_remaining st true) = [].
Proof.
  intros [flushed [Hfile [Hrecs [Hlen [Hlt [Hfirst Htot]]]]]].
  unfold flush_remaining. destruct (batch_results st) as [|x b] eqn:Hb.
  - rewrite app_nil_r in Hrecs. subst flushed. auto.
  - rewrite save_results_batch_ok by exact Hfirst.
    cbn [results_file batch_results]. rewrite Hfile, appended_app, Hrecs. auto.
Qed.

End Threshold.

End PersisterFacts.

(** ** Batches of [assess_mastery] and [generate_tutoring_content] *)

Section Batching.
Import Persister AssessMastery GenerateTutoring Spec.

Lemma BATCH_SIZE_pos : (0 < BATCH_SIZE)%nat.
Proof. unfold BATCH_SIZE. lia. Qed.

Lemma persisted_fold (f0 : csv_file result_record) (cs : list completion)
    (recs : list result_record) (st : state result_record) :
  persisted BATCH_SIZE f0 recs st ->
  all_writes_ok cs ->
  persisted BATCH_SIZE f0 (recs ++ records_of cs) (fold_left on_completion cs st).
Proof.
  revert recs st. induction cs as [|c cs IH]; intros recs st Hst Hok; simpl.
  - now rewrite app_nil_r.
  - apply Forall_cons in Hok as [Hc Hok].
    change (recs ++ make_result_record (c_request c) (c_outcome c) :: records_of cs)
      with (recs ++ [make_result_record (c_request c) (c_outcome c)] ++ records_of cs).
    rewrite app_assoc. apply IH; [|exact Hok].
    unfold on_completion. rewrite Hc.
    now apply persisted_step; [apply BATCH_SIZE_pos|].
Qed.

Lemma persisted_run (f0 : csv_file result_record) (cs : list completion) :
  all_writes_ok cs ->
  persisted BATCH_SIZE f0 (records_of cs) (fold_left on_completion cs (init f0)).
Proof.
  intros Hok. apply (persisted_fold f0 cs [] (init f0)); [|exact Hok].
  apply persisted_init, BATCH_SIZE_pos.
Qed.

(** C6 (amended). In [assess_mastery], where every outcome is one record,
    as long as the writes succeed: the buffer stays below [BATCH_SIZE]
    between outcomes and holds at most [BATCH_SIZE] records when it is
    tested; the records taken so far are, in order, those of the file
    followed by those of the buffer, the file holding a whole number of
    batches and a header only if it was created by the run; after exactly
    [BATCH_SIZE] outcomes the buffer is empty and the file has exactly
    [BATCH_SIZE] new rows; and the flush after the last task leaves every
    record in the file and the buffer empty.  In
    [generate_tutoring_content], where an outcome is the whole result list
    of a student, the buffer is tested only after that list was added: at
    or above [batch_size] it is written whole and emptied, below it is
    kept. *)
Theorem batch_flushed_at_threshold (f0 : csv_file result_record)
    (cs : list completion) :
  all_writes_ok cs ->
  let st := fold_left on_completion cs (init f0) in
  (length (batch_results st) < BATCH_SIZE)%nat
  /\ (forall r, (size_after_append st r <= BATCH_SIZE)%nat)
  /\ (exists flushed,
        results_file st = appended f0 flushed
        /\ flushed ++ batch_results st = records_of cs
        /\ length flushed = (BATCH_SIZE * (length cs / BATCH_SIZE))%nat)
  /\ (length cs = BATCH_SIZE ->
        batch_results st = []
        /\ results_file st = appended f0 (records_of cs)
        /\ data_rows (results_file st) = data_rows f0 ++ records_of cs
        /\ header_count (results_file st)
           = (header_count f0 + if path_exists f0 then 0 else 1)%nat)
  /\ (results_file (flush_remaining st true) = appended f0 (records_of cs)
      /\ batch_results (flush_remaining st true) = [])
  /\ (forall (s : state tutoring_record) (results : list tutoring_record),
        (is_first_batch s = true -> results_file s = None) ->
        let s' := on_student_done s results None true in
        (length (batch_results s') < batch_size)%nat
        /\ ((batch_size <= size_after_extend s results None)%nat ->
            batch_results s' = []
            /\ results_file s'
               = appended (results_file s) (batch_results s ++ results))
        /\ ((size_after_extend s results None < batch_size)%nat ->
            batch_results s' = batch_results s ++ results
            /\ results_file s' = results_file s)).
Proof.
  intros Hok st.
  pose proof (persisted_run f0 cs Hok) as Hp. fold st in Hp.
  assert (Hlen : length (records_of cs) = length cs)
    by (unfold records_of; apply length_map).
  destruct Hp as [flushed [Hfile [Hrecs [Hfl [Hlt [Hfirst Htot]]]]]].
  rewrite Hlen in Hfl.
  split; [exact Hlt|]. split.
  { intros r. unfold size_after_append. rewrite length_app. simpl. lia. }
  split; [exists flushed; auto|]. split.
  { intros Hn. rewrite Hn, Nat.div_same, Nat.mul_1_r in Hfl
      by (pose proof BATCH_SIZE_pos; lia).
    assert (Hb : batch_results st = []).
    { apply length_zero_iff_nil.
      assert (H : length (flushed ++ batch_results st) = length cs)
        by now rewrite Hrecs.
      rewrite length_app in H. lia. }
    rewrite Hb, app_nil_r in Hrecs. subst flushed.
    rewrite Hfile, data_rows_appended, header_count_appended.
    repeat split; auto.
    destruct (records_of cs) eqn:E; [|reflexivity].
    simpl in Hlen. pose proof BATCH_SIZE_pos. lia. }
  split.
  { apply (persisted_flush_remaining BATCH_SIZE f0 (records_of cs) st).
    exact (persisted_run f0 cs Hok). }
  intros s results Hs s'. subst s'.
  unfold on_student_done, extend_and_maybe_flush, size_after_extend.
  destruct (Nat.leb_spec batch_size (length (batch_results s ++ results)))
    as [Hge|Hlt'].
  - rewrite save_results_batch_ok by exact Hs. cbn [batch_results results_file].
    split; [unfold batch_size; simpl; lia|]. split; [auto | lia].
  - cbn [batch_results results_file]. split; [exact Hlt'|]. split; [lia | auto].
Qed.

Lemma batch_flushed_at_threshold_witness :
  all_writes_ok Samples.hundred_answered
  /\ (let st := fold_left on_completion Samples.hundred_answered (init None) in
      batch_results st = []
      /\ data_rows (results_file st) = records_of Samples.hundred_answered).
Proof.
  assert (H : all_writes_ok Samples.hundred_answered)
    by (unfold all_writes_ok; repeat constructor).
  split; [exact H|].
  destruct (batch_flushed_at_threshold None Samples.hundred_answered H)
    as (_ & _ & _ & H100 & _).
  destruct (H100 eq_refl) as (Hb & _ & Hd & _).
  split; [exact Hb | exact Hd].
Defined.

(** In [generate_tutoring_content.main] a student with nine results and
    then one with five leave fourteen records in the buffer, above the
    batch size of ten, before anything is written; the fourteen are then
    written at once. *)
Lemma tutoring_batch_exceeds_batch_size :
  let nine := replicate 9 (Samples.sample_tutoring "Fractions") in
  let five := replicate 5 (Samples.sample_tutoring "Decimals") in
  let s := on_student_done (init None) nine None true in
  batch_results s = nine
  /\ results_file s = None
  /\ size_after_extend s five None = 14%nat
  /\ (batch_size < size_after_extend s five None)%nat
  /\ data_rows (results_file (on_student_done s five None true)) = nine ++ five.
Proof.
  vm_compute. repeat split; try reflexivity. lia.
Qed.

End Batching.

(** ** The semaphore *)

Section Governor.
Import Asyncio.

Lemma count_holding_replicate (n : nat) : count_holding (replicate n Delayed) = 0%nat.
Proof. induction n as [|n IH]; simpl; [reflexivity | exact IH]. Qed.

Lemma count_holding_insert (ps : list phase) (i : nat) (p q : phase) :
  ps !! i = Some p ->
  (count_holding (<[i := q]> ps) + (if holds_slot p then 1 else 0)
   = count_holding ps + (if holds_slot q then 1 else 0))%nat.
Proof.
  revert i. induction ps as [|x ps IH]; intros [|i] H; simpl in *; try discriminate.
  - injection H as ->. lia.
  - specialize (IH i H). lia.
Qed.

(** Slots taken and slots left always add up to the limit. *)
Lemma slots_conserved (limit tasks : nat) (st : state) :
  reachable limit tasks st -> (holders st + value st = limit)%nat.
Proof.
  induction 1 as [|s s' _ IH Hstep].
  - unfold holders, init. simpl. now rewrite count_holding_replicate.
  - destruct Hstep as [v ps i Hi|v ps i Hi|v ps i Hi]; unfold holders in *; simpl in *.
    + pose proof (count_holding_insert ps i Delayed Waiting Hi). simpl in *. lia.
    + pose proof (count_holding_insert ps i Waiting Holding Hi). simpl in *. lia.
    + pose proof (count_holding_insert ps i Holding Finished Hi). simpl in *. lia.
Qed.

(** C8. Whatever the number of request coroutines, whatever the limit
    the semaphore was built with, and however the event loop interleaves
    the coroutines, the number of coroutines inside
    [async with semaphore] never exceeds the limit. *)
Theorem holders_bounded (concurrency : Z) (limit tasks : nat) (st : state) :
  Semaphore concurrency = SemaphoreOf limit ->
  reachable limit tasks st ->
  (Z.of_nat (holders st) <= concurrency)%Z.
Proof.
  unfold Semaphore. intros Hsem Hreach.
  destruct (Z.ltb_spec concurrency 0) as [Hneg|Hpos]; [discriminate|].
  injection Hsem as <-. apply slots_conserved in Hreach. lia.
Qed.

(** Two slots, three requests: two are inside, the third waits. *)
Lemma holders_bounded_witness :
  Semaphore 2 = SemaphoreOf 2
  /\ reachable 2 3 (mkState 0 [Holding; Holding; Waiting])
  /\ (Z.of_nat (holders (mkState 0 [Holding; Holding; Waiting])) <= 2)%Z.
Proof.
  assert (H1 : Semaphore 2 = SemaphoreOf 2) by reflexivity.
  assert (H2 : reachable 2 3 (mkState 0 [Holding; Holding; Waiting])).
  { apply (reach_step 2 3 (mkState 0 [Holding; Holding; Delayed]));
      [|exact (step_wake 0 [Holding; Holding; Delayed] 2 eq_refl)].
    apply (reach_step 2 3 (mkState 1 [Holding; Waiting; Delayed]));
      [|exact (step_acquire 0 [Holding; Waiting; Delayed] 1 eq_refl)].
    apply (reach_step 2 3 (mkState 1 [Holding; Delayed; Delayed]));
      [|exact (step_wake 1 [Holding; Delayed; Delayed] 1 eq_refl)].
    apply (reach_step 2 3 (mkState 2 [Waiting; Delayed; Delayed]));
      [|exact (step_acquire 1 [Waiting; Delayed; Delayed] 0 eq_refl)].
    apply (reach_step 2 3 (mkState 2 [Delayed; Delayed; Delayed]));
      [|exact (step_wake 2 [Delayed; Delayed; Delayed] 0 eq_refl)].
    apply reach_init. }
  split; [exact H1|]. split; [exact H2|].
  exact (holders_bounded 2 2 3 _ H1 H2).
Defined.





End Governor.

(** ** Example questions of a tutoring prompt *)

Section ExampleQuestions.
Import GenerateTutoring.

Lemma question_id_render (question_text_map : gmap Z string)
    (question_choices_df : list choice_row) (qid : Z) :
  question_id (render_question question_text_map question_choices_df qid) = qid.
Proof.
  unfold render_question.
  now destruct (List.filter _ question_choices_df).
Qed.

(** The loop takes candidates from the front until [max_num] questions
    are picked. *)
Lemma pick_loop_ids (render : Z -> picked_question) (max_num : nat)
    (candidates : list Z) (picked : list picked_question) :
  (forall qid, question_id (render qid) = qid) ->
  map question_id (pick_loop render max_num candidates picked)
  = map question_id picked ++ take (max_num - length picked) candidates.
Proof.
  intros Hid. revert picked.
  induction candidates as [|qid rest IH]; intros picked; simpl.
  - now rewrite take_nil, app_nil_r.
  - destruct (Nat.leb_spec max_num (length picked)) as [Hge|Hlt].
    + replace (max_num - length picked)%nat with 0%nat by lia.
      now rewrite app_nil_r.
    + rewrite IH, map_app, length_app. simpl. rewrite Hid, <- app_assoc. simpl.
      replace (max_num - length picked)%nat
        with (S (max_num - (length picked + 1)))%nat by lia.
      reflexivity.
Qed.

(** The questions picked are the first [max_num] of the shuffled
    questions of the knowledge component that are outside the test set. *)
Lemma selected_ids (shuffle : list Z -> list Z) (kc_name : string)
    (kc_to_questions_map : gmap string (list Z)) (test_question_ids : gset Z)
    (question_text_map : gmap Z string) (question_choices_df : list choice_row)
    (max_num : nat) :
  shuffle [] = [] ->
  map question_id
    (_select_three_questions_for_kc shuffle kc_name kc_to_questions_map
       test_question_ids question_text_map question_choices_df max_num)
  = take max_num
      (shuffle (List.filter (fun qid => bool_decide (qid ∉ test_question_ids))
                  (default [] (kc_to_questions_map !! kc_name)))).
Proof.
  intros Hnil. unfold _select_three_questions_for_kc.
  destruct (default [] (kc_to_questions_map !! kc_name)) as [|q qs] eqn:E.
  - simpl. now rewrite Hnil, take_nil.
  - rewrite pick_loop_ids by apply question_id_render.
    simpl. now rewrite Nat.sub_0_r.
Qed.



(** Five questions of which two are test questions: the three others are
    picked, in the order of the shuffle, with their choices rendered. *)
Example select_three_sample :
  _select_three_questions_for_kc (@rev Z) "Fractions" Samples.sample_questions
    Samples.sample_test_ids Samples.sample_texts Samples.sample_choices 3
  = [ mkPicked 4 "" [] None None;
      mkPicked 3 "Simplify 6/8."
        [mkRendered "A" "2/3"; mkRendered "B" "3/4"] (Some "B") (Some "3/4");
      mkPicked 1 "What is 1/2 + 1/4?"
        [mkRendered "A" "3/4"; mkRendered "B" "2/6"] (Some "A") (Some "3/4") ].
Proof. vm_compute. reflexivity. Qed.

End ExampleQuestions.

(** ** Retries *)

Section Retries.
Import PyStr LlmUtils Spec.

Lemma is_rate_limit_text_spec (e : string) :
  is_rate_limit_text (lower e) = true <-> rate_limit_class e.
Proof.
  unfold is_rate_limit_text, rate_limit_class.
  rewrite !orb_true_iff, !contains_spec. tauto.
Qed.

Lemma rate_limit_class_nonempty (e : string) : rate_limit_class e -> e <> "".
Proof.
  intros H ->. apply is_rate_limit_text_spec in H. discriminate.
Qed.

Lemma result_is_rate_limited_spec (r : call_result) :
  result_is_rate_limited r = true
  <-> exists e, cr_error r = Some e /\ rate_limit_class e.
Proof.
  unfold result_is_rate_limited. destruct (cr_error r) as [e|].
  - rewrite andb_true_iff, negb_true_iff, is_rate_limit_text_spec. split.
    + intros [_ H]. eauto.
    + intros [e' [[= <-] H]]. split; [|exact H].
      now apply String.eqb_neq, rate_limit_class_nonempty.
  - split; [discriminate | intros [e [[=] _]]].
Qed.

Lemma has_rate_limit_error_spec (results : list call_result) :
  has_rate_limit_error results = true <-> some_task_rate_limited results.
Proof.
  unfold has_rate_limit_error, some_task_rate_limited.
  rewrite existsb_exists. split.
  - intros [r [Hin Hr]]. apply result_is_rate_limited_spec in Hr as [e [He Hc]].
    exists r, e. rewrite list_elem_of_In. auto.
  - intros [r [e [Hin [He Hc]]]]. exists r. rewrite <- list_elem_of_In.
    split; [exact Hin|]. apply result_is_rate_limited_spec. eauto.
Qed.

Lemma calls_of_backoff_trace (attempt : nat) (later : list Z) :
  calls_of (backoff_trace attempt later) = S (length later)
  /\ sleeps_of (backoff_trace attempt later) = later.
Proof.
  revert attempt. induction later as [|d later IH]; intros attempt; simpl.
  - auto.
  - destruct (IH (S attempt)) as [-> ->]. auto.
Qed.

(** A batch in which some task is rate limited at every attempt. *)
Lemma retry_from_always_limited (openai_installed : bool)
    (call : nat -> batch_outcome) (attempt : nat) (later : list Z) :
  (forall k, (attempt <= k <= attempt + length later)%nat ->
     exists results, call k = BatchReturned results
                     /\ some_task_rate_limited results) ->
  trace (retry_from openai_installed call attempt later)
  = backoff_trace attempt later
  /\ exists results,
       call (attempt + length later)%nat = BatchReturned results
       /\ outcome (retry_from openai_installed call attempt later)
          = ReturnResults results.
Proof.
  revert attempt. induction later as [|d later IH]; intros attempt H.
  - destruct (H attempt ltac:(simpl; lia)) as [results [Hc Hr]].
    apply has_rate_limit_error_spec in Hr. simpl. rewrite Hc, Hr.
    split; [reflexivity|]. exists results. now rewrite Nat.add_0_r.
  - destruct (H attempt ltac:(simpl; lia)) as [results [Hc Hr]].
    apply has_rate_limit_error_spec in Hr.
    destruct (IH (S attempt)) as [Ht [res [Hlast Hout]]].
    { intros k Hk. apply H. simpl. lia. }
    cbn [retry_from]. rewrite Hc, Hr. cbn [after_sleep trace outcome backoff_trace].
    rewrite Ht. split; [reflexivity|]. exists res.
    replace (attempt + length (d :: later))%nat
      with (S attempt + length later)%nat by (simpl; lia).
    auto.
Qed.

(** A request whose call raises at every attempt. *)
Lemma attempt_from_always_raised (index : nat) (call : nat -> call_outcome)
    (attempt : nat) (later : list Z) :
  (forall k, (attempt <= k <= attempt + length later)%nat ->
     exists str_e type_name, call k = Raised str_e type_name) ->
  RunExperiment.trace (RunExperiment.attempt_from index call attempt later)
  = backoff_trace attempt later
  /\ exists str_e type_name,
       call (attempt + length later)%nat = Raised str_e type_name
       /\ RunExperiment.returned
            (RunExperiment.attempt_from index call attempt later)
          = RunExperiment.mkRequestResult index None
              (Some (RunExperiment.last_error_of str_e type_name)).
Proof.
  revert attempt. induction later as [|d later IH]; intros attempt H.
  - destruct (H attempt ltac:(simpl; lia)) as [e [t Hc]].
    simpl. rewrite Hc. split; [reflexivity|]. exists e, t.
    now rewrite Nat.add_0_r.
  - destruct (H attempt ltac:(simpl; lia)) as [e [t Hc]].
    destruct (IH (S attempt)) as [Ht [e' [t' [Hlast Hret]]]].
    { intros k Hk. apply H. simpl. lia. }
    cbn [RunExperiment.attempt_from]. rewrite Hc.
    cbn [RunExperiment.after_sleep RunExperiment.trace RunExperiment.returned
         backoff_trace].
    rewrite Ht. split; [reflexivity|]. exists e', t'.
    replace (attempt + length (d :: later))%nat
      with (S attempt + length later)%nat by (simpl; lia).
    auto.
Qed.

Lemma retry_from_first_clean (openai_installed : bool)
    (call : nat -> batch_outcome) (k attempt : nat) (later : list Z)
    (results : list call_result) :
  (k <= length later)%nat ->
  (forall j, (j < k)%nat ->
     exists res, call (attempt + j)%nat = BatchReturned res
                 /\ some_task_rate_limited res) ->
  call (attempt + k)%nat = BatchReturned results ->
  ~ some_task_rate_limited results ->
  retry_from openai_installed call attempt later
  = mkRun (backoff_trace attempt (take k later)) (ReturnResults results).
Proof.
  revert attempt later. induction k as [|k IH]; intros attempt later Hk Hbad Hk' Hclean.
  - rewrite Nat.add_0_r in Hk'.
    assert (Hf : has_rate_limit_error results = false).
    { destruct (has_rate_limit_error results) eqn:E; [|reflexivity].
      apply has_rate_limit_error_spec in E. contradiction. }
    destruct later; simpl; now rewrite Hk', Hf.
  - destruct later as [|d later]; [simpl in Hk; lia|].
    destruct (Hbad 0%nat ltac:(lia)) as [res [Hc Hr]].
    rewrite Nat.add_0_r in Hc. apply has_rate_limit_error_spec in Hr.
    cbn [retry_from]. rewrite Hc, Hr.
    rewrite (IH (S attempt) later).
    + reflexivity.
    + simpl in Hk. lia.
    + intros j Hj. destruct (Hbad (S j) ltac:(lia)) as [res' [Hc' Hr']].
      exists res'. split; [|exact Hr'].
      now replace (S attempt + j)%nat with (attempt + S j)%nat by lia.
    + now replace (S attempt + k)%nat with (attempt + S k)%nat by lia.
    + exact Hclean.
Qed.

Lemma retry_from_trace (openai_installed : bool) (call : nat -> batch_outcome)
    (attempt : nat) (later : list Z) :
  exists k, (k <= length later)%nat
            /\ trace (retry_from openai_installed call attempt later)
               = backoff_trace attempt (take k later).
Proof.
  revert attempt. induction later as [|d later IH]; intros attempt.
  - exists 0%nat. split; [lia|]. simpl.
    destruct (call attempt) as [results|e].
    + now destruct (has_rate_limit_error results).
    + now destruct (_ || _), (exception_is_rate_limited e).
  - destruct (IH (S attempt)) as [k [Hk Ht]].
    assert (Hstop : forall o, backoff_trace attempt (take 0 (d :: later))
                              = trace (mkRun [Called attempt] o)) by reflexivity.
    cbn [retry_from]. destruct (call attempt) as [results|e].
    + destruct (has_rate_limit_error results).
      * exists (S k). split; [simpl; lia|].
        cbn [after_sleep trace take backoff_trace]. now rewrite Ht.
      * exists 0%nat. split; [lia | reflexivity].
    + destruct (_ || _); [destruct (exception_is_rate_limited e)|].
      * exists (S k). split; [simpl; lia|].
        cbn [after_sleep trace take backoff_trace]. now rewrite Ht.
      * exists 0%nat. split; [lia | reflexivity].
      * exists 0%nat. split; [lia | reflexivity].
Qed.

Lemma attempt_from_first_answer (index : nat) (call : nat -> call_outcome)
    (k attempt : nat) (later : list Z) (text : string) :
  (k <= length later)%nat ->
  (forall j, (j < k)%nat ->
     exists str_e type_name, call (attempt + j)%nat = Raised str_e type_name) ->
  call (attempt + k)%nat = Returned text ->
  RunExperiment.attempt_from index call attempt later
  = RunExperiment.mkRun (backoff_trace attempt (take k later))
      (RunExperiment.mkRequestResult index (Some text) None).
Proof.
  revert attempt later. induction k as [|k IH]; intros attempt later Hk Hbad Hk'.
  - rewrite Nat.add_0_r in Hk'. destruct later; simpl; now rewrite Hk'.
  - destruct later as [|d later]; [simpl in Hk; lia|].
    destruct (Hbad 0%nat ltac:(lia)) as [e [t Hc]]. rewrite Nat.add_0_r in Hc.
    cbn [RunExperiment.attempt_from]. rewrite Hc.
    rewrite (IH (S attempt) later).
    + reflexivity.
    + simpl in Hk. lia.
    + intros j Hj. destruct (Hbad (S j) ltac:(lia)) as [e' [t' Hc']].
      exists e', t'.
      now replace (S attempt + j)%nat with (attempt + S j)%nat by lia.
    + now replace (S attempt + k)%nat with (attempt + S k)%nat by lia.
Qed.

Lemma exception_is_rate_limited_spec (openai_installed : bool) (e : exception) :
  (negb openai_installed || is_api_error e) && exception_is_rate_limited e = true
  <-> throttling_exception openai_installed e.
Proof.
  unfold throttling_exception, exception_is_rate_limited.
  rewrite andb_true_iff, !orb_true_iff, negb_true_iff, !contains_spec. tauto.
Qed.

(** A batch whose call ends throttled at every attempt. *)
Lemma retry_from_always_throttled (openai_installed : bool)
    (call : nat -> batch_outcome) (attempt : nat) (later : list Z) :
  (forall k, (attempt <= k <= attempt + length later)%nat ->
     throttled openai_installed (call k)) ->
  retry_from openai_installed call attempt later
  = mkRun (backoff_trace attempt later)
      (ending_of (call (attempt + length later)%nat)).
Proof.
  revert attempt. induction later as [|d later IH]; intros attempt H.
  - pose proof (H attempt ltac:(simpl; lia)) as Hk.
    simpl. rewrite Nat.add_0_r. destruct (call attempt) as [results|e]; simpl.
    + now destruct (has_rate_limit_error results).
    + now destruct (_ || _), (exception_is_rate_limited e).
  - pose proof (H attempt ltac:(simpl; lia)) as Hk.
    assert (Hnext : retry_from openai_installed call attempt (d :: later)
                    = after_sleep attempt d
                        (retry_from openai_installed call (S attempt) later)).
    { cbn [retry_from]. destruct (call attempt) as [results|e]; cbn [throttled] in Hk.
      - apply has_rate_limit_error_spec in Hk. now rewrite Hk.
      - apply exception_is_rate_limited_spec, andb_true_iff in Hk as [-> ->].
        reflexivity. }
    rewrite Hnext, (IH (S attempt)) by (intros k Hk'; apply H; simpl; lia).
    unfold after_sleep. cbn [trace outcome backoff_trace].
    now replace (attempt + length (d :: later))%nat
      with (S attempt + length later)%nat by (simpl; lia).
Qed.

(** C3 (amended). A request of [execute_single_request] whose call fails
    with a rate-limit-class error at every attempt is called four times:
    once, and then after sleeping 5, 10 and 30 seconds, in that order; the
    fourth failure is returned as the error of the request and nothing
    more is tried.  [concurrent_user_sys_call_with_retry] retries the
    batch as a whole: when every call of the batch ends throttled, that
    is, returns a list in which some task shows a rate-limit-class error
    or raises an [APIError] with "429" or "rate limit" in its text, the
    batch is sent [len(retry_delays) + 1] times, the sleeps between the
    sendings being the delays in order.  What the last sending did ends
    the function: a list is returned with its errors, an exception is
    raised again and nothing is recorded.  An exception that is not an
    [APIError] is raised again at once, whatever its text. *)
Theorem rate_limited_retried_through_backoff :
  (forall (index : nat) (call : nat -> call_outcome),
     (forall k, (k <= length RunExperiment.retry_delays)%nat ->
        exists str_e type_name,
          call k = Raised str_e type_name /\ rate_limit_class str_e) ->
     let r := RunExperiment.execute_single_request index call in
     RunExperiment.trace r
     = [Called 0; Slept 5; Called 1; Slept 10; Called 2; Slept 30; Called 3]
     /\ sleeps_of (RunExperiment.trace r) = [5; 10; 30]%Z
     /\ calls_of (RunExperiment.trace r) = 4%nat
     /\ exists str_e type_name,
          call 3%nat = Raised str_e type_name
          /\ RunExperiment.returned r
             = RunExperiment.mkRequestResult index None
                 (Some (RunExperiment.last_error_of str_e type_name)))
  /\ (forall (openai_installed : bool) (call : llm_module -> nat -> batch_outcome)
        (requests : list (option string)) (retry_delays : list Z),
        (forall k, (k <= length retry_delays)%nat ->
           throttled openai_installed (call (module_for requests) k)) ->
        let r := concurrent_user_sys_call_with_retry openai_installed call
                   requests retry_delays in
        let last := call (module_for requests) (length retry_delays) in
        trace r = backoff_trace 0 retry_delays
        /\ sleeps_of (trace r) = retry_delays
        /\ calls_of (trace r) = S (length retry_delays)
        /\ outcome r = ending_of last
        /\ (forall results,
              last = BatchReturned results ->
              outcome r = ReturnResults results
              /\ some_task_rate_limited results)
        /\ (forall e, last = BatchRaised e -> outcome r = Reraise e))
  /\ (forall (call : llm_module -> nat -> batch_outcome)
        (requests : list (option string)) (retry_delays : list Z) (e : exception),
        call (module_for requests) 0%nat = BatchRaised e ->
        is_api_error e = false ->
        concurrent_user_sys_call_with_retry true call requests retry_delays
        = mkRun [Called 0] (Reraise e)).
Proof.
  split; [|split].
  - intros index call H r.
    destruct (attempt_from_always_raised index call 0 RunExperiment.retry_delays)
      as [Ht [e [t [Hlast Hret]]]].
    { intros k Hk. destruct (H k ltac:(lia)) as [e [t [Hc _]]]. eauto. }
    subst r. unfold RunExperiment.execute_single_request.
    rewrite Ht. repeat split; try reflexivity. exists e, t. auto.
  - intros openai_installed call requests retry_delays H r last.
    assert (Hr : r = mkRun (backoff_trace 0 retry_delays) (ending_of last)).
    { subst r last. unfold concurrent_user_sys_call_with_retry.
      rewrite retry_from_always_throttled; [reflexivity|].
      intros k Hk. apply H. lia. }
    rewrite Hr. cbn [trace outcome].
    destruct (calls_of_backoff_trace 0 retry_delays) as [Hc Hs].
    split; [reflexivity|]. split; [exact Hs|]. split; [exact Hc|].
    split; [reflexivity|]. split.
    + intros results Hl. rewrite Hl. split; [reflexivity|].
      pose proof (H (length retry_delays) ltac:(lia)) as Hlast.
      fold last in Hlast. now rewrite Hl in Hlast.
    + intros e Hl. now rewrite Hl.
  - intros call requests retry_delays e Hc He.
    unfold concurrent_user_sys_call_with_retry.
    destruct retry_delays; simpl; now rewrite Hc, He.
Qed.

Lemma rate_limited_retried_through_backoff_witness :
  (forall k, (k <= length RunExperiment.retry_delays)%nat ->
     exists str_e type_name,
       Samples.always_throttled k = Raised str_e type_name
       /\ rate_limit_class str_e)
  /\ sleeps_of (RunExperiment.trace
                  (RunExperiment.execute_single_request 0 Samples.always_throttled))
     = [5; 10; 30]%Z
  /\ (forall k, (k <= length [1; 1]%Z)%nat ->
        throttled true
          (Samples.batch_raising_then_throttled (module_for [Some "qwen-plus"]) k))
  /\ calls_of (trace (concurrent_user_sys_call_with_retry true
                        Samples.batch_raising_then_throttled [Some "qwen-plus"]
                        [1; 1]%Z))
     = 3%nat.
Proof.
  assert (H1 : forall k, (k <= length RunExperiment.retry_delays)%nat ->
     exists str_e type_name,
       Samples.always_throttled k = Raised str_e type_name
       /\ rate_limit_class str_e).
  { intros k _. eexists _, _. split; [reflexivity|].
    apply is_rate_limit_text_spec. reflexivity. }
  assert (H2 : forall k, (k <= length [1; 1]%Z)%nat ->
        throttled true
          (Samples.batch_raising_then_throttled (module_for [Some "qwen-plus"]) k)).
  { intros [|k] _.
    - apply (exception_is_rate_limited_spec true). reflexivity.
    - apply has_rate_limit_error_spec. reflexivity. }
  destruct rate_limited_retried_through_backoff as (Hsingle & Hbatch & _).
  split; [exact H1|].
  split; [exact (proj1 (proj2 (Hsingle 0%nat Samples.always_throttled H1)))|].
  split; [exact H2|].
  exact (proj1 (proj2 (proj2 (Hbatch true Samples.batch_raising_then_throttled
                                [Some "qwen-plus"] [1; 1]%Z H2)))).
Defined.

(** The call of the batch raises the [RateLimitError] of [openai] at
    every attempt: the batch is sent four times, and the fourth exception
    is raised again to the caller, so that no task is recorded as failed.
    An exception of another class is raised again at the first attempt,
    without any retry, although its text names the status 429. *)
Lemma throttling_exception_not_recorded :
  rate_limit_class (exc_text Samples.rate_limit_error)
  /\ concurrent_user_sys_call_with_retry true Samples.batch_always_raising
       [Some "qwen-plus"] default_retry_delays
     = mkRun [Called 0; Slept 5; Called 1; Slept 10; Called 2; Slept 30; Called 3]
         (Reraise Samples.rate_limit_error)
  /\ rate_limit_class (exc_text Samples.client_response_error)
  /\ concurrent_user_sys_call_with_retry true
       (fun _ _ => BatchRaised Samples.client_response_error)
       [Some "qwen-plus"] default_retry_delays
     = mkRun [Called 0] (Reraise Samples.client_response_error).
Proof.
  split; [apply is_rate_limit_text_spec; reflexivity|].
  split; [reflexivity|].
  split; [apply is_rate_limit_text_spec; reflexivity|].
  reflexivity.
Qed.

(** The handler of [execute_single_request] reports a failure exactly
    when all four attempts raised. *)
Lemma execute_single_request_error (index : nat) (call : nat -> call_outcome) :
  RunExperiment.rr_error
    (RunExperiment.returned (RunExperiment.execute_single_request index call))
  <> None
  <-> forall k, (k <= 3)%nat -> exists str_e type_name, call k = Raised str_e type_name.
Proof.
  unfold RunExperiment.execute_single_request, RunExperiment.retry_delays.
  cbn [RunExperiment.attempt_from].
  destruct (call 0%nat) as [t0|e0 n0] eqn:H0; cbn.
  { split; [congruence|]. intros H. destruct (H 0%nat ltac:(lia)) as [e [t He]].
    congruence. }
  destruct (call 1%nat) as [t1|e1 n1] eqn:H1; cbn.
  { split; [congruence|]. intros H. destruct (H 1%nat ltac:(lia)) as [e [t He]].
    congruence. }
  destruct (call 2%nat) as [t2|e2 n2] eqn:H2; cbn.
  { split; [congruence|]. intros H. destruct (H 2%nat ltac:(lia)) as [e [t He]].
    congruence. }
  destruct (call 3%nat) as [t3|e3 n3] eqn:H3; cbn.
  { split; [congruence|]. intros H. destruct (H 3%nat ltac:(lia)) as [e [t He]].
    congruence. }
  split; [|congruence]. intros _ k Hk.
  destruct k as [|[|[|[|k]]]]; try lia; eauto.
Qed.

(** C4 (amended). [concurrent_user_sys_call_with_retry] decides for the
    batch, not for a task.  An exception that fails the test for a rate
    limit, or that the handler does not catch as an [APIError], is raised
    again at once, and a result list without a rate-limited task is
    returned at once, errors included, at whatever attempt it comes.  But
    a list in which some task is rate limited has the whole batch sent
    again after the next delay, the tasks with other errors with it.
    [execute_single_request] does not tell errors apart: a call that
    raises is followed by the next of the delays 5, 10, 30 and another
    call; the first answer is returned with no error, and the request is
    reported as failed exactly when all four attempts raised. *)
Theorem other_errors_end_batch_but_not_single_request :
  (forall (openai_installed : bool) (call : nat -> batch_outcome)
      (attempt : nat) (later : list Z) (e : exception),
      call attempt = BatchRaised e ->
      exception_is_rate_limited e = false
      \/ (openai_installed = true /\ is_api_error e = false) ->
      retry_from openai_installed call attempt later
      = mkRun [Called attempt] (Reraise e))
  /\ (forall (openai_installed : bool) (call : nat -> batch_outcome)
        (attempt : nat) (later : list Z) (results : list call_result),
        call attempt = BatchReturned results ->
        ~ some_task_rate_limited results ->
        retry_from openai_installed call attempt later
        = mkRun [Called attempt] (ReturnResults results))
  /\ (forall (openai_installed : bool) (call : nat -> batch_outcome)
        (attempt : nat) (delay : Z) (later : list Z) (results : list call_result),
        call attempt = BatchReturned results ->
        some_task_rate_limited results ->
        retry_from openai_installed call attempt (delay :: later)
        = after_sleep attempt delay
            (retry_from openai_installed call (S attempt) later)
        /\ exists rest,
             trace (retry_from openai_installed call attempt (delay :: later))
             = Called attempt :: Slept delay :: Called (S attempt) :: rest)
  /\ (forall (index : nat) (call : nat -> call_outcome) (k : nat) (text : string),
        (k <= 3)%nat ->
        (forall j, (j < k)%nat ->
           exists str_e type_name, call j = Raised str_e type_name) ->
        call k = Returned text ->
        RunExperiment.execute_single_request index call
        = RunExperiment.mkRun (backoff_trace 0 (take k [5; 10; 30]%Z))
            (RunExperiment.mkRequestResult index (Some text) None))
  /\ (forall (index : nat) (call : nat -> call_outcome),
        (forall k, (k <= 3)%nat ->
           exists str_e type_name, call k = Raised str_e type_name) ->
        RunExperiment.trace (RunExperiment.execute_single_request index call)
        = [Called 0; Slept 5; Called 1; Slept 10; Called 2; Slept 30; Called 3]
        /\ exists str_e type_name,
             call 3%nat = Raised str_e type_name
             /\ RunExperiment.returned
                  (RunExperiment.execute_single_request index call)
                = RunExperiment.mkRequestResult index None
                    (Some (RunExperiment.last_error_of str_e type_name)))
  /\ (forall (index : nat) (call : nat -> call_outcome),
        RunExperiment.rr_error
          (RunExperiment.returned (RunExperiment.execute_single_request index call))
        <> None
        <-> forall k, (k <= 3)%nat ->
              exists str_e type_name, call k = Raised str_e type_name).
Proof.
  split; [|split; [|split; [|split; [|split]]]].
  - intros openai_installed call attempt later e Hc [He|[-> He]].
    + destruct later; simpl; rewrite Hc, He; now destruct (_ || _).
    + destruct later; simpl; now rewrite Hc, He.
  - intros openai_installed call attempt later results Hc Hno.
    assert (Hf : has_rate_limit_error results = false).
    { destruct (has_rate_limit_error results) eqn:E; [|reflexivity].
      apply has_rate_limit_error_spec in E. contradiction. }
    destruct later; simpl; now rewrite Hc, Hf.
  - intros openai_installed call attempt delay later results Hc Hr.
    apply has_rate_limit_error_spec in Hr.
    assert (Hnext : retry_from openai_installed call attempt (delay :: later)
                    = after_sleep attempt delay
                        (retry_from openai_installed call (S attempt) later))
      by (cbn [retry_from]; now rewrite Hc, Hr).
    split; [exact Hnext|]. rewrite Hnext.
    destruct (retry_from_trace openai_installed call (S attempt) later)
      as [k [_ Ht]].
    unfold after_sleep. cbn [trace]. rewrite Ht.
    destruct (take k later); cbn [backoff_trace]; eauto.
  - intros index call k text Hk Hbad Hc.
    now apply (attempt_from_first_answer index call k 0 RunExperiment.retry_delays).
  - intros index call H.
    destruct (attempt_from_always_raised index call 0 RunExperiment.retry_delays)
      as [Ht [e [t [Hlast Hret]]]].
    { intros k Hk. apply H. simpl in Hk. lia. }
    split; [exact Ht|]. exists e, t. auto.
  - apply execute_single_request_error.
Qed.

Lemma other_errors_end_batch_but_not_single_request_witness :
  ~ some_task_rate_limited [mkCallResult None (Some "Invalid request payload")]
  /\ concurrent_user_sys_call_with_retry true Samples.batch_bad_payload []
       default_retry_delays
     = mkRun [Called 0]
         (ReturnResults [mkCallResult None (Some "Invalid request payload")])
  /\ some_task_rate_limited
       [ mkCallResult None (Some "Invalid request payload");
         mkCallResult None (Some "HTTP 429 Too Many Requests") ]
  /\ (exists rest,
        trace (concurrent_user_sys_call_with_retry true
                 Samples.batch_bad_payload_and_throttled [] default_retry_delays)
        = Called 0 :: Slept 5 :: Called 1 :: rest).
Proof.
  assert (H : ~ some_task_rate_limited
                [mkCallResult None (Some "Invalid request payload")]).
  { intros Hl. apply has_rate_limit_error_spec in Hl. discriminate. }
  assert (H' : some_task_rate_limited
       [ mkCallResult None (Some "Invalid request payload");
         mkCallResult None (Some "HTTP 429 Too Many Requests") ]).
  { apply has_rate_limit_error_spec. reflexivity. }
  destruct other_errors_end_batch_but_not_single_request
    as (_ & Hclean & Hresend & _).
  split; [exact H|]. split.
  { exact (Hclean true (Samples.batch_bad_payload doubao) 0%nat
             default_retry_delays _ eq_refl H). }
  split; [exact H'|].
  exact (proj2 (Hresend true (Samples.batch_bad_payload_and_throttled doubao)
                  0%nat 5%Z [10; 30]%Z _ eq_refl H')).
Defined.

(** A request refused once for its payload, an error outside the
    rate-limit class, is sent again after five seconds by
    [execute_single_request]; the second call answers and no error is
    reported for the request.  In a batch of
    [concurrent_user_sys_call_with_retry] such a task is sent again three
    times when another task of the batch is throttled. *)
Lemma bad_payload_is_retried :
  ~ rate_limit_class "Invalid request payload"
  /\ RunExperiment.execute_single_request 7 Samples.bad_payload_then_answer
     = RunExperiment.mkRun [Called 0; Slept 5; Called 1]
         (RunExperiment.mkRequestResult 7 (Some "Task1: B") None)
  /\ trace (concurrent_user_sys_call_with_retry true
              Samples.batch_bad_payload_and_throttled [] default_retry_delays)
     = [Called 0; Slept 5; Called 1; Slept 10; Called 2; Slept 30; Called 3].
Proof.
  split; [|split; reflexivity].
  intros H. apply is_rate_limit_text_spec in H. discriminate.
Qed.

(** The handler of exceptions of [concurrent_user_sys_call_with_retry]
    tests for "429" and "rate limit" only: an [APIError] whose text is
    "Too Many Requests" is raised again without a retry, while the same
    text in the error of a result is retried. *)
Remark too_many_requests_exception_reraised :
  rate_limit_class "Too Many Requests"
  /\ retry_from true (fun _ => BatchRaised (mkException true "Too Many Requests"))
       0 default_retry_delays
     = mkRun [Called 0] (Reraise (mkException true "Too Many Requests"))
  /\ calls_of (trace (retry_from true
       (fun _ => BatchReturned [mkCallResult None (Some "Too Many Requests")])
       0 default_retry_delays)) = 4%nat.
Proof.
  split; [apply is_rate_limit_text_spec; reflexivity|].
  split; reflexivity.
Qed.

End Retries.

(** ** Resuming a run *)

Section Resumption.
Import PyStr Persister LlmUtils AssessMastery Spec.

Lemma read_cell_Some (s s' : string) :
  Pandas.read_cell s = Some s' -> s' = s /\ s <> "".
Proof.
  unfold Pandas.read_cell.
  destruct (existsb (String.eqb s) Pandas.STR_NA_VALUES) eqn:E; [discriminate|].
  intros [= <-]. split; [reflexivity|]. intros ->. discriminate.
Qed.

Lemma reads_back_completed (r : result_record) :
  reads_back r -> completed (row_of_record r) = true.
Proof.
  unfold reads_back. intros H. apply completed_spec.
  unfold row_of_record. cbn [df_mastery_level].
  destruct (Pandas.read_cell (mastery_level r)) as [s|] eqn:E; [|contradiction].
  exists s. split; [reflexivity|].
  apply read_cell_Some in E as [-> Hne]. exact Hne.
Qed.

Lemma pending_from_nil (MODEL_NAME : string) (P : gset (Z * string)) (idx : nat)
    (rows : list manifest_row) :
  (forall row, row ∈ rows -> (mf_student_id row, mf_kc_name row) ∈ P) ->
  pending_from MODEL_NAME P idx rows = [].
Proof.
  revert idx. induction rows as [|row rest IH]; intros idx H; simpl; [reflexivity|].
  rewrite bool_decide_eq_true_2 by (apply H; left).
  apply IH. intros r Hr. apply H. now right.
Qed.

Lemma done_in_app (C C' : list results_row) (k : Z * string) :
  done_in C k \/ done_in C' k -> done_in (C ++ C') k.
Proof.
  intros [[r [s [Hin H]]]|[r [s [Hin H]]]]; exists r, s;
    (split; [|exact H]); apply elem_of_app; auto.
Qed.

Lemma split_nl_single_line (s : string) :
  single_line s = true -> split_nl s = [s].
Proof.
  induction s as [|c r IH]; [reflexivity|]. cbn [single_line split_nl].
  intros H. apply andb_true_iff in H as [Hc Hr]. apply negb_true_iff in Hc.
  now rewrite Hc, (IH Hr).
Qed.

(** A line that begins with the letter L carries none of the three
    markers and, as first line, is dropped. *)
Lemma unmarked_first_line (r : string) :
  parse_line (None, unparsed) (String "L" r) = (None, unparsed).
Proof.
  unfold parse_line, strip.
  change (lstrip (String "L" r)) with (String "L" r).
  rewrite (rstrip_cons "L" r eq_refl). reflexivity.
Qed.

(** The text recorded for a failed call whose error text has one line
    parses to the three sentinels. *)
Lemma failed_call_unparsed (error_msg : string) :
  single_line error_msg = true ->
  parse_llm_response (Some (String.append "LLM_CALL_FAILED: " error_msg))
  = unparsed.
Proof.
  intros H. unfold parse_llm_response, strip.
  set (t := String.append "LLM_CALL_FAILED: " error_msg).
  assert (Ht : single_line t = true) by exact H.
  change (lstrip t) with t.
  pose proof (rstrip_single_line t Ht) as Hs.
  pose proof (rstrip_cons "L" (String.append "LM_CALL_FAILED: " error_msg) eq_refl)
    as Hr'.
  change (String "L" (String.append "LM_CALL_FAILED: " error_msg)) with t in Hr'.
  rewrite Hr' in *. rewrite (split_nl_single_line _ Hs).
  cbn [fold_left]. now rewrite unmarked_first_line.
Qed.

(** The text of an error is never empty. *)
Lemma error_msg_of_nonempty (str_e type_name : string) :
  String.eqb (error_msg_of str_e type_name) "" = false.
Proof.
  unfold error_msg_of. destruct (String.eqb str_e "") eqn:E; [|exact E].
  now destruct type_name.
Qed.

(** Stage 4 builds from the result of a coroutine the record that the
    coroutine built itself. *)
Lemma rebuilt_record_of (req : request) (i : nat) (o : call_outcome) :
  rebuilt_record req (llm_result_of i o) = make_result_record req o.
Proof.
  destruct o as [text|str_e type_name]; [reflexivity|].
  unfold rebuilt_record, make_result_record, llm_result_of.
  cbn [lr_error lr_result response_of fst snd].
  now rewrite error_msg_of_nonempty.
Qed.

Lemma rebuilt_gathered_from (F : nat -> call_outcome) (J : nat -> nat)
    (reqs : list request) :
  map (fun x => rebuilt_record (fst x) (snd x))
    (zip reqs (imap (fun i (_ : request) => llm_result_of (J i) (F i)) reqs))
  = imap (fun i req => make_result_record req (F i)) reqs.
Proof.
  revert F J. induction reqs as [|req reqs IH]; intros F J; [reflexivity|].
  cbn [imap zip zip_with map fst snd]. rewrite rebuilt_record_of. f_equal.
  exact (IH (fun i => F (S i)) (fun i => J (S i))).
Qed.

Lemma rebuilt_gathered (reqs : list request) (p : pass) :
  map (fun x => rebuilt_record (fst x) (snd x)) (zip reqs (gathered reqs p))
  = pass_records reqs p.
Proof. exact (rebuilt_gathered_from (outcome_of p) (fun i => i) reqs). Qed.

(** The loop of stage 4 while the writes succeed: what it was given is in
    the file or in the batch, in order. *)
Lemma on_result_fold (write_ok : nat -> bool) (f : csv_file result_record)
    (xs : list (request * llm_result)) (recs : list result_record)
    (rg : regrouping) :
  (forall i, write_ok i = true) ->
  (is_first_batch (rg_store rg) = true -> results_file (rg_store rg) = None) ->
  (exists flushed,
     results_file (rg_store rg) = appended f flushed
     /\ flushed ++ batch_results (rg_store rg) = recs) ->
  let rg' := fold_left (on_result write_ok) xs rg in
  (is_first_batch (rg_store rg') = true -> results_file (rg_store rg') = None)
  /\ exists flushed,
       results_file (rg_store rg') = appended f flushed
       /\ flushed ++ batch_results (rg_store rg')
          = recs ++ map (fun x => rebuilt_record (fst x) (snd x)) xs.
Proof.
  intros Hok. revert recs rg.
  induction xs as [|x xs IH]; intros recs rg Hfirst Hw.
  - simpl. rewrite app_nil_r. auto.
  - cbn [fold_left map].
    change (recs ++ rebuilt_record (fst x) (snd x)
                    :: map (fun x => rebuilt_record (fst x) (snd x)) xs)
      with (recs ++ [rebuilt_record (fst x) (snd x)]
                 ++ map (fun x => rebuilt_record (fst x) (snd x)) xs).
    rewrite app_assoc. apply IH; clear IH.
    + unfold on_result. destruct (_ <=? _)%nat; [|exact Hfirst].
      destruct (save_results_batch _ _ _ _). discriminate.
    + destruct Hw as [flushed [Hfile Hrecs]]. unfold on_result.
      destruct (_ <=? _)%nat.
      * rewrite Hok, save_results_batch_ok by exact Hfirst.
        exists (flushed ++ batch_results (rg_store rg)
                        ++ [rebuilt_record (fst x) (snd x)]).
        cbn [rg_store results_file batch_results].
        rewrite Hfile, appended_app, app_nil_r, app_assoc, Hrecs. auto.
      * exists flushed. cbn [rg_store results_file batch_results].
        rewrite app_assoc, Hrecs. auto.
Qed.

(** Stage 4 when its writes succeed: every record of the pass is
    appended to the file, in the order of the requests. *)
Lemma process_results_ok (reqs : list request) (p : pass)
    (f : csv_file result_record) :
  stage4_writes_ok p ->
  process_results reqs (gathered reqs p) f (stage4_write_ok p)
    (stage4_last_write_ok p)
  = appended f (pass_records reqs p).
Proof.
  intros [Hok Hlast]. unfold process_results.
  destruct (on_result_fold (stage4_write_ok p) f (zip reqs (gathered reqs p)) []
              (mkRegrouping (init f) ∅) Hok) as [Hfirst [flushed [Hfile Hrecs]]].
  - destruct f; simpl; [discriminate | reflexivity].
  - exists []. auto.
  - rewrite Hlast, save_results_batch_ok by exact Hfirst. cbn [fst].
    rewrite Hfile, appended_app, Hrecs, rebuilt_gathered. reflexivity.
Qed.

Lemma completions_of_writes_ok (reqs : list request) (p : pass) :
  (forall i, stage3_write_ok p i = true) ->
  all_writes_ok (completions_of reqs p).
Proof.
  intros Hok. unfold all_writes_ok, completions_of.
  induction (ended p) as [|i l IH]; [constructor|].
  cbn [omap list_omap]. destruct (reqs !! i) as [req|]; [|exact IH].
  constructor; [apply Hok | exact IH].
Qed.

Lemma completions_of_nil (p : pass) : completions_of [] p = [].
Proof.
  unfold completions_of. induction (ended p) as [|i l IH]; [reflexivity|].
  exact IH.
Qed.

(** The records of stage 3 are those of stage 4 in another order. *)
Lemma records_of_completions_seq (reqs prefix : list request) (p : pass) :
  records_of
    (omap (fun i =>
             match (prefix ++ reqs) !! i with
             | Some req =>
                 Some (mkCompletion req (outcome_of p i) (stage3_write_ok p i))
             | None => None
             end)
          (seq (length prefix) (length reqs)))
  = imap (fun i req => make_result_record req (outcome_of p (length prefix + i)))
      reqs.
Proof.
  revert prefix. induction reqs as [|req reqs IH]; intros prefix; [reflexivity|].
  cbn [length seq omap list_omap imap].
  rewrite (list_lookup_middle prefix reqs req (length prefix) eq_refl).
  cbn [records_of map c_request c_outcome]. rewrite Nat.add_0_r. f_equal.
  specialize (IH (prefix ++ [req])).
  rewrite <- app_assoc, length_app in IH. cbn [app length] in IH.
  rewrite Nat.add_1_r in IH. unfold records_of in IH |- *. rewrite IH.
  apply imap_ext. intros i x _. cbn. do 2 f_equal. lia.
Qed.

Lemma records_of_completions (reqs : list request) (p : pass) :
  every_task_ends (length reqs) p ->
  Permutation (records_of (completions_of reqs p)) (pass_records reqs p).
Proof.
  intros Hperm. unfold completions_of, records_of.
  rewrite Hperm.
  exact (eq_ind _ (fun l => Permutation _ l) (Permutation_refl _) _
           (records_of_completions_seq reqs [] p)).
Qed.

(** The file after a pass in which every write worked. *)
Lemma run_mode_file (MODEL_NAME : string) (M : list manifest_row)
    (f0 : csv_file result_record) (p : pass) :
  writes_ok p ->
  let pending :=
    snd (load_request_manifest MODEL_NAME (Some M) (read_results_csv f0)) in
  run_mode MODEL_NAME M f0 p
  = (length pending,
     appended f0 (records_of (completions_of pending p) ++ pass_records pending p)).
Proof.
  intros (Hok3 & Hlast3 & Hok4) pending. subst pending. unfold run_mode.
  destruct (load_request_manifest MODEL_NAME (Some M) (read_results_csv f0))
    as [m pending] eqn:E.
  cbn [snd]. destruct pending as [|q pending];
    [now rewrite completions_of_nil|].
  f_equal. rewrite Hlast3.
  pose proof (persisted_run f0 _ (completions_of_writes_ok (q :: pending) p Hok3))
    as Hp.
  apply (persisted_flush_remaining BATCH_SIZE) in Hp as [Hfile _].
  rewrite Hfile.
  rewrite process_results_ok by exact Hok4. apply appended_app.
Qed.

(** C2 (amended). After a first pass over a manifest in which every
    pending request came to its end and every write worked, a second pass
    over the same manifest and the file the first one left finds nothing
    pending and sends no request, provided the [mastery_level] of every
    record of the first pass is read back as a value, that is, is none of
    the tokens [read_csv] takes for a missing value.  The record of a
    failed call whose error text has one line is not of that kind: its
    [mastery_level] is the sentinel "N/A", which [read_csv] reads back
    as a missing value. *)
Theorem second_run_sends_nothing (MODEL_NAME : string) (M : list manifest_row)
    (f0 : csv_file result_record) (p : pass) :
  let pending :=
    snd (load_request_manifest MODEL_NAME (Some M) (read_results_csv f0)) in
  wf_file f0 ->
  every_task_ends (length pending) p ->
  writes_ok p ->
  Forall reads_back (pass_records pending p) ->
  let f1 := snd (run_mode MODEL_NAME M f0 p) in
  snd (load_request_manifest MODEL_NAME (Some M) (read_results_csv f1)) = []
  /\ (forall p', run_mode MODEL_NAME M f1 p' = (0%nat, f1))
  /\ (forall req str_e type_name,
        single_line (error_msg_of str_e type_name) = true ->
        mastery_level (make_result_record req (Raised str_e type_name)) = "N/A"
        /\ ~ reads_back (make_result_record req (Raised str_e type_name))).
Proof.
  intros pending _ _ Hok Hback f1.
  assert (Hfailed : forall req str_e type_name,
        single_line (error_msg_of str_e type_name) = true ->
        mastery_level (make_result_record req (Raised str_e type_name)) = "N/A"
        /\ ~ reads_back (make_result_record req (Raised str_e type_name))).
  { intros req str_e type_name Hline.
    assert (Hm : mastery_level (make_result_record req (Raised str_e type_name))
                 = "N/A").
    { unfold make_result_record. cbn [mastery_level response_of fst].
      now rewrite (failed_call_unparsed _ Hline). }
    split; [exact Hm|]. unfold reads_back. rewrite Hm. intros Hn. now apply Hn. }
  assert (Hf : f1 = appended f0 (records_of (completions_of pending p)
                                 ++ pass_records pending p)).
  { subst f1. now rewrite run_mode_file. }
  assert (Hnil : snd (load_request_manifest MODEL_NAME (Some M)
                        (read_results_csv f1)) = []).
  { destruct pending as [|q0 pending0] eqn:E0.
    - (* nothing was pending: the first pass left the file as it was *)
      rewrite completions_of_nil in Hf. cbn in Hf. rewrite Hf. exact E0.
    - rewrite <- E0 in *.
      set (R3 := records_of (completions_of pending p)) in *.
      set (R4 := pass_records pending p) in *.
      assert (Hne : R3 ++ R4 <> []).
      { subst R4. rewrite E0. unfold pass_records. cbn [imap].
        intros H. apply app_eq_nil in H as [_ H]. discriminate. }
      assert (Hread : read_results_csv f1
                      = Some (map row_of_record (data_rows f0 ++ R3 ++ R4))).
      { rewrite Hf. unfold read_results_csv.
        rewrite data_rows_appended.
        destruct (R3 ++ R4) as [|r rs]; [contradiction|].
        now destruct f0. }
      rewrite Hread. cbn [load_request_manifest snd].
      apply pending_from_nil. intros row Hrow.
      apply elem_of_processed_pairs. rewrite map_app. apply done_in_app.
      destruct (decide ((mf_student_id row, mf_kc_name row)
                        ∈ processed_pairs_of (map row_of_record (data_rows f0))))
        as [Hd|Hnd']; [left; now apply elem_of_processed_pairs | right].
      assert (Hnd : ~ done_in (map row_of_record (data_rows f0))
                      (mf_student_id row, mf_kc_name row))
        by (intros Hd; now apply Hnd', elem_of_processed_pairs).
      (* the row was pending in the first pass: stage 4 wrote its record *)
      apply list_elem_of_lookup in Hrow as [i Hi].
      assert (Hq : request_of_row MODEL_NAME i row ∈ pending).
      { subst pending. cbn [load_request_manifest snd].
        apply elem_of_pending_from. exists i, row.
        split; [exact Hi|]. split; [reflexivity|].
        intros Hin. apply Hnd.
        destruct f0 as [lines|]; cbn [read_results_csv] in Hin.
        - now apply elem_of_processed_pairs in Hin.
        - now apply not_elem_of_empty in Hin. }
      apply list_elem_of_lookup in Hq as [k Hk].
      set (r := make_result_record (request_of_row MODEL_NAME i row)
                  (outcome_of p k)).
      assert (Hr : r ∈ R4).
      { apply list_elem_of_lookup. exists k. subst R4. unfold pass_records.
        rewrite list_lookup_imap, Hk. reflexivity. }
      rewrite Forall_forall in Hback. pose proof (Hback r Hr) as Hb.
      apply reads_back_completed in Hb.
      apply completed_spec in Hb as [s [Hs Hne']].
      exists (row_of_record r), s. split; [|split; [|auto]].
      + apply list_elem_of_fmap. exists r. split; [reflexivity|].
        apply elem_of_app. now right.
      + reflexivity. }
  split; [exact Hnil|]. split; [|exact Hfailed].
  intros p'. unfold run_mode.
  destruct (load_request_manifest MODEL_NAME (Some M) (read_results_csv f1))
    as [m q]. simpl in Hnil. now subst q.
Qed.

Lemma second_run_sends_nothing_witness :
  let pending :=
    snd (load_request_manifest "gpt-3.5-turbo" (Some Samples.sample_manifest)
           (read_results_csv None)) in
  wf_file (None : csv_file result_record)
  /\ every_task_ends (length pending) Samples.both_answered
  /\ writes_ok Samples.both_answered
  /\ Forall reads_back (pass_records pending Samples.both_answered)
  /\ snd (load_request_manifest "gpt-3.5-turbo" (Some Samples.sample_manifest)
            (read_results_csv
               (snd (run_mode "gpt-3.5-turbo" Samples.sample_manifest None
                       Samples.both_answered)))) = [].
Proof.
  intros pending.
  assert (H1 : wf_file (None : csv_file result_record)) by (left; reflexivity).
  assert (H2 : every_task_ends (length pending) Samples.both_answered)
    by (vm_compute; apply perm_swap).
  assert (H3 : writes_ok Samples.both_answered)
    by (repeat split; reflexivity).
  assert (H4 : Forall reads_back (pass_records pending Samples.both_answered))
    by (repeat (constructor; [vm_compute; discriminate|]); constructor).
  split; [exact H1|]. split; [exact H2|]. split; [exact H3|]. split; [exact H4|].
  exact (proj1 (second_run_sends_nothing "gpt-3.5-turbo" Samples.sample_manifest
                  None Samples.both_answered H1 H2 H3 H4)).
Defined.

(** Two requests of which the second fails with a timeout.  Both records
    are written by stage 3 and again by stage 4, that of the failure with
    the [mastery_level] "N/A"; [read_csv] reads that cell back as a
    missing value, and the second pass over the same manifest finds the
    failed request pending and sends it again. *)
Lemma failed_request_is_sent_again :
  let first := run_mode "gpt-3.5-turbo" Samples.sample_manifest None
                 Samples.second_call_failed in
  let f1 := snd first in
  every_task_ends 2 Samples.second_call_failed
  /\ writes_ok Samples.second_call_failed
  /\ fst first = 2%nat
  /\ map mastery_level (data_rows f1) = ["Mastered"; "N/A"; "Mastered"; "N/A"]
  /\ Pandas.read_cell "N/A" = None
  /\ snd (load_request_manifest "gpt-3.5-turbo" (Some Samples.sample_manifest)
            (read_results_csv f1)) = [Samples.request_2]
  /\ fst (run_mode "gpt-3.5-turbo" Samples.sample_manifest f1
            Samples.one_answered) = 1%nat.
Proof.
  split; [apply Permutation_refl|].
  split; [repeat split; reflexivity|].
  vm_compute. repeat split; reflexivity.
Qed.

End Resumption.

(** * Further properties of the code *)

(** ** Model parameters and routing *)

Section ModelKwargs.
Import PyStr LlmUtils.

(** X4. [prepare_model_kwargs] always sets the temperature to 0, and it
    extends the input limit to 800000 tokens for exactly the model names
    that [get_llm_module] routes to the qwen module. *)
Theorem prepare_model_kwargs_follows_routing (model_name : string) :
  temperature (prepare_model_kwargs model_name) = 0%Z
  /\ (max_input_tokens (prepare_model_kwargs model_name) = Some 800000%Z
      <-> get_llm_module model_name = qwen)
  /\ (max_input_tokens (prepare_model_kwargs model_name) = None
      <-> get_llm_module model_name <> qwen).
Proof.
  unfold prepare_model_kwargs, get_llm_module.
  destruct (contains "qwen" (lower model_name)); cbn.
  - repeat split; auto; try discriminate. intros H. now contradiction H.
  - destruct (contains "doubao" (lower model_name));
      [|destruct (contains "gpt" (lower model_name))];
      repeat split; auto; discriminate.
Qed.

End ModelKwargs.

(** ** Retry loops on any behaviour of the remote service *)

Section RetryTraces.
Import PyStr LlmUtils Spec.

(** X8. Whatever [concurrent_user_sys_call] does, a call of
    [concurrent_user_sys_call_with_retry] sends the batch at most
    [len(retry_delays) + 1] times and sleeps, between two sendings, the
    delays of [retry_delays] in order, from the first one on.  If the
    first [k] sendings show a rate-limited task and the next one none,
    the function sleeps exactly the first [k] delays and returns the
    results of that sending. *)
Theorem retry_stops_at_first_clean_batch (openai_installed : bool)
    (call : llm_module -> nat -> batch_outcome)
    (requests : list (option string)) (retry_delays : list Z) :
  let r := concurrent_user_sys_call_with_retry openai_installed call requests
             retry_delays in
  (exists k, (k <= length retry_delays)%nat
             /\ trace r = backoff_trace 0 (take k retry_delays)
             /\ sleeps_of (trace r) = take k retry_delays
             /\ calls_of (trace r) = S k)
  /\ (forall k results,
        (k <= length retry_delays)%nat ->
        (forall j, (j < k)%nat ->
           exists res, call (module_for requests) j = BatchReturned res
                       /\ some_task_rate_limited res) ->
        call (module_for requests) k = BatchReturned results ->
        ~ some_task_rate_limited results ->
        r = mkRun (backoff_trace 0 (take k retry_delays)) (ReturnResults results)).
Proof.
  intros r. subst r. unfold concurrent_user_sys_call_with_retry. split.
  - destruct (retry_from_trace openai_installed (call (module_for requests)) 0
                retry_delays) as [k [Hk Ht]].
    exists k. split; [exact Hk|]. split; [exact Ht|]. rewrite Ht.
    destruct (calls_of_backoff_trace 0 (take k retry_delays)) as [Hc Hs].
    rewrite Hc, Hs, length_take. split; [reflexivity | f_equal; lia].
  - intros k results Hk Hbad Hc Hclean.
    now apply (retry_from_first_clean openai_installed _ k 0 retry_delays results).
Qed.

Lemma retry_stops_at_first_clean_batch_witness :
  (1 <= length LlmUtils.default_retry_delays)%nat
  /\ concurrent_user_sys_call_with_retry true
       (fun _ k => match k with
                   | O => BatchReturned [mkCallResult None (Some "HTTP 429")]
                   | S _ => BatchReturned [mkCallResult (Some "ok") None]
                   end)
       [Some "qwen-plus"] default_retry_delays
     = mkRun [Called 0; Slept 5; Called 1]
         (ReturnResults [mkCallResult (Some "ok") None]).
Proof.
  assert (H1 : (1 <= length LlmUtils.default_retry_delays)%nat) by (simpl; lia).
  split; [exact H1|].
  refine (proj2 (retry_stops_at_first_clean_batch true _ [Some "qwen-plus"]
                   default_retry_delays) 1%nat _ H1 _ eq_refl _).
  - intros j Hj. assert (j = 0%nat) as -> by lia.
    eexists. split; [reflexivity|]. apply has_rate_limit_error_spec. reflexivity.
  - intros H. apply has_rate_limit_error_spec in H. discriminate.
Defined.

(** X9. If the call of a request raises at its first [k] attempts, with
    [k] at most 3, and returns a text at the next one,
    [execute_single_request] sleeps exactly the first [k] of the delays
    5, 10, 30 between the [k + 1] calls and returns that text with no
    error: earlier failures leave no mark on the result. *)
Theorem execute_single_request_first_answer (index : nat)
    (call : nat -> call_outcome) (k : nat) (text : string) :
  (k <= 3)%nat ->
  (forall j, (j < k)%nat ->
     exists str_e type_name, call j = Raised str_e type_name) ->
  call k = Returned text ->
  RunExperiment.execute_single_request index call
  = RunExperiment.mkRun (backoff_trace 0 (take k [5; 10; 30]%Z))
      (RunExperiment.mkRequestResult index (Some text) None).
Proof.
  intros Hk Hbad Hc.
  now apply (attempt_from_first_answer index call k 0 RunExperiment.retry_delays).
Qed.

Lemma execute_single_request_first_answer_witness :
  (1 <= 3)%nat
  /\ RunExperiment.execute_single_request 7 Samples.bad_payload_then_answer
     = RunExperiment.mkRun [Called 0; Slept 5; Called 1]
         (RunExperiment.mkRequestResult 7 (Some "Task1: B") None).
Proof.
  assert (H1 : (1 <= 3)%nat) by lia.
  split; [exact H1|].
  refine (execute_single_request_first_answer 7 Samples.bad_payload_then_answer
            1 "Task1: B" H1 _ eq_refl).
  intros j Hj. assert (j = 0%nat) as -> by lia. eexists _, _. reflexivity.
Defined.

End RetryTraces.

(** ** Progress of the coroutines under the semaphore *)

Section GovernorProgress.
Import Asyncio.

Lemma work_left_insert (ps : list phase) (i : nat) (p q : phase) :
  ps !! i = Some p ->
  (work_left (<[i := q]> ps) + steps_left p = work_left ps + steps_left q)%nat.
Proof.
  revert i. induction ps as [|x ps IH]; intros [|i] H; simpl in *; try discriminate.
  - injection H as ->. lia.
  - specialize (IH i H). lia.
Qed.

Lemma work_left_replicate (n : nat) :
  work_left (replicate n Delayed) = (3 * n)%nat.
Proof. induction n as [|n IH]; simpl; [reflexivity | rewrite IH; lia]. Qed.

(** X10. With a positive limit the coroutines cannot get stuck, as long
    as a request inside the semaphore comes to its end: in every
    reachable state in which some coroutine has not finished, some step
    is possible.  Every step uses up one of the three steps each
    coroutine has to take, so that no schedule is longer than three
    times the number of coroutines. *)
Theorem semaphore_never_stuck (limit tasks : nat) (st : state) :
  (0 < limit)%nat ->
  reachable limit tasks st ->
  (unfinished st -> exists st', step st st')
  /\ (forall st', step st st' ->
        S (work_left (phases st')) = work_left (phases st))
  /\ (work_left (phases st) <= 3 * tasks)%nat.
Proof.
  intros Hlimit Hreach. split; [|split].
  - intros [i [p [Hi Hp]]].
    pose proof (slots_conserved limit tasks st Hreach) as Hslots.
    destruct st as [v ps]. unfold holders in Hslots. simpl in *.
    assert (Hcases : (exists j, ps !! j = Some Delayed)
                     \/ (exists j, ps !! j = Some Holding)
                     \/ ((forall j, ps !! j <> Some Delayed)
                         /\ (forall j, ps !! j <> Some Holding))).
    { clear. induction ps as [|x ps IH].
      - right. right. split; intros j; now rewrite lookup_nil.
      - destruct x.
        + left. now exists 0%nat.
        + destruct IH as [[j Hj]|[[j Hj]|[H1 H2]]].
          * left. now exists (S j).
          * right. left. now exists (S j).
          * right. right. split; intros [|j]; simpl; auto; discriminate.
        + right. left. now exists 0%nat.
        + destruct IH as [[j Hj]|[[j Hj]|[H1 H2]]].
          * left. now exists (S j).
          * right. left. now exists (S j).
          * right. right. split; intros [|j]; simpl; auto; discriminate. }
    destruct Hcases as [[j Hj]|[[j Hj]|[Hnd Hnh]]].
    + eexists. exact (step_wake v ps j Hj).
    + eexists. exact (step_release v ps j Hj).
    + assert (Hw : p = Waiting).
      { destruct p; try reflexivity; try contradiction.
        - now apply Hnd in Hi.
        - now apply Hnh in Hi. }
      subst p.
      assert (Hc : count_holding ps = 0%nat).
      { clear -Hnh. induction ps as [|x ps IH]; [reflexivity|]. simpl.
        rewrite IH by (intros j; apply (Hnh (S j))).
        destruct x; simpl; try reflexivity. now contradiction (Hnh 0%nat). }
      destruct v as [|v]; [lia|].
      eexists. exact (step_acquire v ps i Hi).
  - intros st' Hstep.
    destruct Hstep as [v ps i Hi|v ps i Hi|v ps i Hi]; simpl.
    + pose proof (work_left_insert ps i Delayed Waiting Hi). simpl in *. lia.
    + pose proof (work_left_insert ps i Waiting Holding Hi). simpl in *. lia.
    + pose proof (work_left_insert ps i Holding Finished Hi). simpl in *. lia.
  - induction Hreach as [|s s' _ IH Hstep].
    + simpl. now rewrite work_left_replicate.
    + assert (S (work_left (phases s')) = work_left (phases s)); [|lia].
      destruct Hstep as [v ps i Hi|v ps i Hi|v ps i Hi]; simpl.
      * pose proof (work_left_insert ps i Delayed Waiting Hi). simpl in *. lia.
      * pose proof (work_left_insert ps i Waiting Holding Hi). simpl in *. lia.
      * pose proof (work_left_insert ps i Holding Finished Hi). simpl in *. lia.
Qed.

(** One slot, two requests, the first inside: the second waits, and the
    first can leave. *)
Lemma semaphore_never_stuck_witness :
  (0 < 1)%nat
  /\ reachable 1 2 (mkState 0 [Holding; Waiting])
  /\ exists st', step (mkState 0 [Holding; Waiting]) st'.
Proof.
  assert (H1 : (0 < 1)%nat) by lia.
  assert (H2 : reachable 1 2 (mkState 0 [Holding; Waiting])).
  { apply (reach_step 1 2 (mkState 0 [Holding; Delayed]));
      [|exact (step_wake 0 [Holding; Delayed] 1 eq_refl)].
    apply (reach_step 1 2 (mkState 1 [Waiting; Delayed]));
      [|exact (step_acquire 0 [Waiting; Delayed] 0 eq_refl)].
    apply (reach_step 1 2 (mkState 1 [Delayed; Delayed]));
      [|exact (step_wake 1 [Delayed; Delayed] 0 eq_refl)].
    apply reach_init. }
  split; [exact H1|]. split; [exact H2|].
  apply (proj1 (semaphore_never_stuck 1 2 _ H1 H2)).
  exists 0%nat, Holding. split; [reflexivity | discriminate].
Defined.

End GovernorProgress.

(** ** The pending set as the store grows *)

Section PendingMonotone.
Import AssessMastery Spec.

Lemma pending_from_subseteq (MODEL_NAME : string) (P P' : gset (Z * string))
    (idx : nat) (rows : list manifest_row) :
  P ⊆ P' ->
  sublist (pending_from MODEL_NAME P' idx rows) (pending_from MODEL_NAME P idx rows).
Proof.
  intros Hsub. revert idx. induction rows as [|row rest IH]; intros idx; simpl.
  - constructor.
  - destruct (decide ((mf_student_id row, mf_kc_name row) ∈ P)) as [Hin|Hout].
    + rewrite !bool_decide_eq_true_2 by auto. apply IH.
    + rewrite (bool_decide_eq_false_2 (_ ∈ P)) by exact Hout.
      case_bool_decide.
      * apply sublist_cons, IH.
      * apply sublist_skip, IH.
Qed.

Lemma pending_from_empty (MODEL_NAME : string) (idx : nat)
    (rows : list manifest_row) :
  pending_from MODEL_NAME ∅ idx rows
  = imap (fun i => request_of_row MODEL_NAME (idx + i)) rows.
Proof.
  revert idx. induction rows as [|row rest IH]; intros idx; simpl; [reflexivity|].
  rewrite bool_decide_eq_false_2 by apply not_elem_of_empty.
  rewrite IH, Nat.add_0_r. f_equal. apply imap_ext. intros i x _. simpl.
  f_equal. lia.
Qed.

(** X6. Records added to the results file can only take requests away
    from the pending list: the list resolved against a longer store is a
    sublist of the one resolved against the shorter store, each request
    keeping its manifest index.  Without a results file every manifest
    row is pending, in order and under its own index. *)
Theorem pending_shrinks_as_store_grows (MODEL_NAME : string)
    (M : list manifest_row) (C extra : list results_row) :
  sublist
    (snd (load_request_manifest MODEL_NAME (Some M) (Some (C ++ extra))))
    (snd (load_request_manifest MODEL_NAME (Some M) (Some C)))
  /\ sublist
       (snd (load_request_manifest MODEL_NAME (Some M) (Some C)))
       (snd (load_request_manifest MODEL_NAME (Some M) None))
  /\ snd (load_request_manifest MODEL_NAME (Some M) None)
     = imap (request_of_row MODEL_NAME) M.
Proof.
  unfold load_request_manifest. cbn [snd]. split; [|split].
  - apply pending_from_subseteq. intros k Hk.
    apply elem_of_processed_pairs. apply elem_of_processed_pairs in Hk.
    apply done_in_app. now left.
  - apply pending_from_subseteq. intros k Hk. now apply not_elem_of_empty in Hk.
  - apply pending_from_empty.
Qed.

End PendingMonotone.

(** ** The results file after a pass *)

Section FileShape.
Import Persister AssessMastery Spec.

Lemma wf_file_appended {R : Type} (f0 : csv_file R) (rows : list R) :
  wf_file f0 -> wf_file (appended f0 rows).
Proof.
  intros Hwf. destruct rows as [|x rows]; [exact Hwf|].
  destruct Hwf as [->|[old ->]]; right.
  - now exists (x :: rows).
  - exists (old ++ x :: rows). cbn [appended]. f_equal.
    rewrite map_app. reflexivity.
Qed.

(** X7. When every write succeeds, a pass of [assess_mastery.main] over
    [n] pending requests leaves the results file with the rows it had,
    followed by the [n] records of the pass in the order in which the
    requests ended, written by stage 3, followed by the same [n] records
    in the order of the requests, written by stage 4: every record of the
    pass is in the file twice.  The file keeps its shape, a header line
    followed by data rows, and a header is written only when the file did
    not exist. *)
Theorem pass_writes_records_twice (MODEL_NAME : string) (M : list manifest_row)
    (f0 : csv_file result_record) (p : pass) :
  let pending :=
    snd (load_request_manifest MODEL_NAME (Some M) (read_results_csv f0)) in
  wf_file f0 ->
  every_task_ends (length pending) p ->
  writes_ok p ->
  let f1 := snd (run_mode MODEL_NAME M f0 p) in
  let stage3 := records_of (completions_of pending p) in
  let stage4 := pass_records pending p in
  fst (run_mode MODEL_NAME M f0 p) = length pending
  /\ f1 = appended f0 (stage3 ++ stage4)
  /\ data_rows f1 = data_rows f0 ++ stage3 ++ stage4
  /\ Permutation stage3 stage4
  /\ length stage4 = length pending
  /\ wf_file f1
  /\ header_count f1
     = (header_count f0
        + if path_exists f0 then 0
          else match pending with [] => 0 | _ :: _ => 1 end)%nat.
Proof.
  intros pending Hwf Hends Hok f1 stage3 stage4.
  pose proof (run_mode_file MODEL_NAME M f0 p Hok) as Hrun.
  cbv zeta in Hrun. fold pending in Hrun. fold stage3 stage4 in Hrun.
  assert (Hf : f1 = appended f0 (stage3 ++ stage4))
    by (subst f1; now rewrite Hrun).
  assert (Hlen : length stage4 = length pending)
    by (subst stage4; unfold pass_records; apply length_imap).
  split; [now rewrite Hrun|]. split; [exact Hf|].
  split; [now rewrite Hf, data_rows_appended|].
  split; [now apply records_of_completions|].
  split; [exact Hlen|].
  split; [rewrite Hf; now apply wf_file_appended|].
  rewrite Hf, header_count_appended. f_equal.
  destruct (path_exists f0); [reflexivity|].
  destruct pending as [|q qs].
  - destruct stage4; [|discriminate]. rewrite app_nil_r.
    subst stage3. now rewrite completions_of_nil.
  - destruct stage4 as [|r rs]; [discriminate|]. now destruct stage3.
Qed.

(** Two requests of which the second ends first: four rows, the two
    records in the order of their ends and then in that of the
    requests. *)
Lemma pass_writes_records_twice_witness :
  let pending :=
    snd (load_request_manifest "gpt-3.5-turbo" (Some Samples.sample_manifest)
           (read_results_csv None)) in
  wf_file (None : csv_file result_record)
  /\ every_task_ends (length pending) Samples.both_answered
  /\ writes_ok Samples.both_answered
  /\ map mastery_level
       (data_rows (snd (run_mode "gpt-3.5-turbo" Samples.sample_manifest None
                          Samples.both_answered)))
     = ["Novice"; "Mastered"; "Mastered"; "Novice"].
Proof.
  intros pending.
  assert (H1 : wf_file (None : csv_file result_record)) by (left; reflexivity).
  assert (H2 : every_task_ends (length pending) Samples.both_answered)
    by (vm_compute; apply perm_swap).
  assert (H3 : writes_ok Samples.both_answered)
    by (repeat split; reflexivity).
  split; [exact H1|]. split; [exact H2|]. split; [exact H3|].
  destruct (pass_writes_records_twice "gpt-3.5-turbo" Samples.sample_manifest
              None Samples.both_answered H1 H2 H3) as (_ & _ & Hrows & _).
  rewrite Hrows. reflexivity.
Defined.

End FileShape.

(** ** Truncated question texts *)

Section Truncation.
Import PyStr GenerateTutoring.

(** X3. [_truncate_text] never returns more than [max_length + 3]
    characters: a stripped text of at most [max_length] characters is
    returned whole, a longer one is cut to its first [max_length]
    characters followed by three dots.  Characters are counted as Python
    counts them, one for each character of the text whatever the number
    of bytes of its encoding. *)
Theorem truncate_text_bounded (text : string) (max_length : nat) :
  (len (_truncate_text text max_length) <= max_length + 3)%nat
  /\ ((len (strip text) <= max_length)%nat ->
      _truncate_text text max_length = strip text)
  /\ ((max_length < len (strip text))%nat ->
      _truncate_text text max_length
      = String.append (take_chars max_length (strip text)) "..."
      /\ len (take_chars max_length (strip text)) = max_length
      /\ len (_truncate_text text max_length) = (max_length + 3)%nat).
Proof.
  unfold _truncate_text.
  destruct (Nat.ltb_spec max_length (len (strip text))) as [Hlt|Hge].
  - rewrite len_append, len_take_chars.
    change (len "...") with 3%nat.
    split; [lia|]. split; [lia|]. intros _. split; [reflexivity | lia].
  - split; [lia|]. split; [reflexivity | lia].
Qed.

End Truncation.

(** ** Parsing the answer of the mastery prompt *)

Section MasteryAnswers.
Import PyStr AssessMastery Spec.

(** What ends in a text that [rstrip] keeps is kept by [rstrip], after a
    marker of the ASCII range. *)
Lemma rstrip_append (a b : string) :
  ascii_only a = true ->
  rstrip b = b -> b <> "" -> rstrip (String.append a b) = String.append a b.
Proof.
  intros Ha Hb Hne. now apply (kept_after_ascii a b Ha).
Qed.

Lemma split_nl_append (a b : string) :
  single_line a = true ->
  split_nl (String.append a (String nl b)) = a :: split_nl b.
Proof.
  induction a as [|c a IH]; intros H.
  - reflexivity.
  - cbn [single_line] in H. apply andb_true_iff in H as [Hc Ha].
    apply negb_true_iff in Hc.
    change (String.append (String c a) (String nl b))
      with (String c (String.append a (String nl b))).
    cbn [split_nl]. now rewrite Hc, (IH Ha).
Qed.

Lemma clean_parts (s : string) :
  clean s -> single_line s = true /\ lstrip s = s /\ rstrip s = s /\ s <> "".
Proof.
  intros (H1 & H2 & H3). apply strip_fixed in H2 as [Hl Hr]. auto.
Qed.

Lemma strip_after_blank (s : string) : clean s -> strip (String " " s) = s.
Proof.
  intros H. apply clean_parts in H as (_ & Hl & Hr & _).
  unfold strip. change (lstrip (String " " s)) with (lstrip s).
  now rewrite Hl.
Qed.

Lemma parse_line_mastery (st : option field_key * parsed_data) (v : string) :
  clean v ->
  parse_line st (String.append "Mastery Level: " v)
  = (Some MasteryLevel, set_field MasteryLevel v (snd st)).
Proof.
  intros H. pose proof (clean_parts v H) as (_ & _ & Hr & Hne).
  destruct st as [k p]. unfold parse_line, strip.
  change (lstrip (String.append "Mastery Level: " v))
    with (String.append "Mastery Level: " v).
  rewrite (rstrip_append "Mastery Level: " v eq_refl Hr Hne).
  change (startswith (String.append "Mastery Level: " v) "Mastery Level:")
    with true.
  cbv iota.
  change (after_colon (String.append "Mastery Level: " v)) with (String " " v).
  fold (strip (String " " v)). now rewrite strip_after_blank.
Qed.

Lemma parse_line_rationale (st : option field_key * parsed_data) (v : string) :
  clean v ->
  parse_line st (String.append "Rationale: " v)
  = (Some Rationale, set_field Rationale v (snd st)).
Proof.
  intros H. pose proof (clean_parts v H) as (_ & _ & Hr & Hne).
  destruct st as [k p]. unfold parse_line, strip.
  change (lstrip (String.append "Rationale: " v))
    with (String.append "Rationale: " v).
  rewrite (rstrip_append "Rationale: " v eq_refl Hr Hne).
  change (startswith (String.append "Rationale: " v) "Mastery Level:")
    with false.
  change (startswith (String.append "Rationale: " v) "Rationale:") with true.
  cbv iota.
  change (after_colon (String.append "Rationale: " v)) with (String " " v).
  fold (strip (String " " v)). now rewrite strip_after_blank.
Qed.

Lemma parse_line_suggestions (st : option field_key * parsed_data) (v : string) :
  clean v ->
  parse_line st (String.append "Suggestions: " v)
  = (Some Suggestions, set_field Suggestions v (snd st)).
Proof.
  intros H. pose proof (clean_parts v H) as (_ & _ & Hr & Hne).
  destruct st as [k p]. unfold parse_line, strip.
  change (lstrip (String.append "Suggestions: " v))
    with (String.append "Suggestions: " v).
  rewrite (rstrip_append "Suggestions: " v eq_refl Hr Hne).
  change (startswith (String.append "Suggestions: " v) "Mastery Level:")
    with false.
  change (startswith (String.append "Suggestions: " v) "Rationale:") with false.
  change (startswith (String.append "Suggestions: " v) "Suggestions:") with true.
  cbv iota.
  change (after_colon (String.append "Suggestions: " v)) with (String " " v).
  fold (strip (String " " v)). now rewrite strip_after_blank.
Qed.

(** An empty line adds a blank to the field that was read last. *)
Lemma parse_line_empty (k : field_key) (p : parsed_data) :
  parse_line (Some k, p) ""
  = (Some k, set_field k (String.append (get_field k p) " ") p).
Proof. reflexivity. Qed.

Lemma strip_format_response (level rationale suggestions : string) :
  clean suggestions ->
  strip (format_response level rationale suggestions)
  = format_response level rationale suggestions
  /\ strip (format_response_spaced level rationale suggestions)
     = format_response_spaced level rationale suggestions.
Proof.
  intros H. apply clean_parts in H as (_ & _ & Hr & Hne).
  assert (Hs : kept suggestions) by (split; assumption).
  unfold strip. split.
  - change (lstrip (format_response level rationale suggestions))
      with (format_response level rationale suggestions).
    unfold format_response.
    refine (proj1 (_ : kept _)). do 7 keep_step. exact Hs.
  - change (lstrip (format_response_spaced level rationale suggestions))
      with (format_response_spaced level rationale suggestions).
    unfold format_response_spaced.
    refine (proj1 (_ : kept _)). do 9 keep_step. exact Hs.
Qed.

(** X1. [parse_llm_response] reads back an answer written in the format
    of the prompt.  For three texts that are not empty, have one line
    and no white space at either end (white space being what [str.strip]
    removes, the no-break space and the other blanks of Unicode
    included), the answer with the three fields on consecutive lines
    gives back exactly the three texts, colons and markers inside them
    included.  With an empty line after a field, as
    the prompt prints the format, that field comes back with a blank
    added at its end. *)
Theorem parse_llm_response_reads_format (level rationale suggestions : string) :
  clean level -> clean rationale -> clean suggestions ->
  parse_llm_response (Some (format_response level rationale suggestions))
  = mkParsed level rationale suggestions
  /\ parse_llm_response
       (Some (format_response_spaced level rationale suggestions))
     = mkParsed (String.append level " ") (String.append rationale " ")
         suggestions.
Proof.
  intros HL HR HS.
  destruct (strip_format_response level rationale suggestions HS) as [E1 E2].
  pose proof (clean_parts _ HL) as (HL1 & _).
  pose proof (clean_parts _ HR) as (HR1 & _).
  pose proof (clean_parts _ HS) as (HS1 & _).
  set (ML := String.append "Mastery Level: " level).
  set (RL := String.append "Rationale: " rationale).
  set (SL := String.append "Suggestions: " suggestions).
  assert (HML : single_line ML = true) by exact HL1.
  assert (HRL : single_line RL = true) by exact HR1.
  assert (HSL : single_line SL = true) by exact HS1.
  unfold parse_llm_response. rewrite E1, E2. split.
  - change (format_response level rationale suggestions)
      with (String.append ML (String nl (String.append RL (String nl SL)))).
    rewrite (split_nl_append ML _ HML), (split_nl_append RL _ HRL),
      (split_nl_single_line SL HSL).
    cbn [fold_left]. subst ML RL SL.
    rewrite parse_line_mastery, parse_line_rationale, parse_line_suggestions
      by assumption.
    reflexivity.
  - change (format_response_spaced level rationale suggestions)
      with (String.append ML (String nl (String.append "" (String nl
              (String.append RL (String nl (String.append "" (String nl SL)))))))).
    rewrite (split_nl_append ML _ HML), (split_nl_append "" _ eq_refl),
      (split_nl_append RL _ HRL), (split_nl_append "" _ eq_refl),
      (split_nl_single_line SL HSL).
    cbn [fold_left]. subst ML RL SL.
    rewrite parse_line_mastery by assumption. rewrite parse_line_empty.
    rewrite parse_line_rationale by assumption. rewrite parse_line_empty.
    rewrite parse_line_suggestions by assumption.
    reflexivity.
Qed.

Lemma parse_llm_response_reads_format_witness :
  clean "Proficient"
  /\ clean "Solves most items: 8 of 10."
  /\ clean "Practise mixed numbers."
  /\ parse_llm_response
       (Some (format_response "Proficient" "Solves most items: 8 of 10."
                "Practise mixed numbers."))
     = mkParsed "Proficient" "Solves most items: 8 of 10."
         "Practise mixed numbers.".
Proof.
  assert (H1 : clean "Proficient")
    by (repeat split; try reflexivity; discriminate).
  assert (H2 : clean "Solves most items: 8 of 10.")
    by (repeat split; try reflexivity; discriminate).
  assert (H3 : clean "Practise mixed numbers.")
    by (repeat split; try reflexivity; discriminate).
  split; [exact H1|]. split; [exact H2|]. split; [exact H3|].
  exact (proj1 (parse_llm_response_reads_format _ _ _ H1 H2 H3)).
Defined.

Lemma fold_unmarked (lines : list string) (p : parsed_data) :
  (forall line, line ∈ lines -> marked line = false) ->
  fold_left parse_line lines (None, p) = (None, p).
Proof.
  induction lines as [|line lines IH]; intros H; [reflexivity|].
  cbn [fold_left].
  assert (Hl : parse_line (None, p) line = (None, p)).
  { specialize (H line ltac:(left)). unfold marked in H.
    apply orb_false_iff in H as [H H3]. apply orb_false_iff in H as [H1 H2].
    unfold parse_line. now rewrite H1, H2, H3. }
  rewrite Hl. apply IH. intros l Hin. apply H. now right.
Qed.

(** X2. An answer none of whose lines starts, once stripped of the white
    space [str.strip] removes, with one of the three markers gives the
    three sentinels "N/A", as does a value that is not a text: whatever
    the model wrote is dropped. *)
Theorem parse_llm_response_without_markers (text : string) :
  (forall line, line ∈ split_nl (strip text) -> marked line = false) ->
  parse_llm_response (Some text) = unparsed
  /\ parse_llm_response None = unparsed.
Proof.
  intros H. split; [|reflexivity]. unfold parse_llm_response.
  now rewrite fold_unmarked.
Qed.

Lemma parse_llm_response_without_markers_witness :
  (forall line,
     line ∈ split_nl (strip "The student masters the topic.") ->
     marked line = false)
  /\ parse_llm_response (Some "The student masters the topic.") = unparsed.
Proof.
  assert (H : forall line,
     line ∈ split_nl (strip "The student masters the topic.") ->
     marked line = false).
  { intros line Hin. apply list_elem_of_In in Hin.
    destruct Hin as [<-|[]]. reflexivity. }
  split; [exact H|].
  exact (proj1 (parse_llm_response_without_markers _ H)).
Defined.

(** An answer wrapped in no-break spaces is read as the code reads it:
    [strip] removes them before the marker and after the value. *)
Example parse_llm_response_no_break_space :
  let nbsp := String (ascii_of_nat 194) (String (ascii_of_nat 160) EmptyString) in
  parse_llm_response
    (Some (String.append nbsp (String.append "Mastery Level: Novice" nbsp)))
  = mkParsed "Novice" "N/A" "N/A".
Proof. vm_compute. reflexivity. Qed.

End MasteryAnswers.

(** ** Parsing the answer of the experiment prompt *)

Section TaskAnswers.
Import PyStr LlmUtils RunExperiment Spec.

Ltac answer_line key :=
  intros H; unfold parse_answer_line;
  match goal with
  | |- context [contains ":" ?l] => change (contains ":" l) with true
  end;
  cbv iota;
  match goal with
  | |- context [lower_key (strip (before_colon ?l))] =>
      change (lower_key (strip (before_colon l))) with key
  end;
  match goal with
  | |- context [after_colon (String.append ?p ?v)] =>
      change (after_colon (String.append p v)) with (String " " v)
  end;
  rewrite strip_after_blank by exact H; reflexivity.

Lemma parse_answer_line_task1 (v : string) (ans : task_answers) :
  clean v ->
  parse_answer_line ans (String.append "Task1: " v)
  = mkAnswers v (task2 ans) (task3 ans) (task4 ans).
Proof. answer_line "task1". Qed.

Lemma parse_answer_line_task2 (v : string) (ans : task_answers) :
  clean v ->
  parse_answer_line ans (String.append "Task2: " v)
  = mkAnswers (task1 ans) v (task3 ans) (task4 ans).
Proof. answer_line "task2". Qed.

Lemma parse_answer_line_task3 (v : string) (ans : task_answers) :
  clean v ->
  parse_answer_line ans (String.append "Task3: " v)
  = mkAnswers (task1 ans) (task2 ans) v (task4 ans).
Proof. answer_line "task3". Qed.

Lemma parse_answer_line_task4 (v : string) (ans : task_answers) :
  clean v ->
  parse_answer_line ans (String.append "Task4: " v)
  = mkAnswers (task1 ans) (task2 ans) (task3 ans) v.
Proof. answer_line "task4". Qed.

Lemma strip_format_answers (a1 a2 a3 a4 : string) :
  clean a4 -> strip (format_answers a1 a2 a3 a4) = format_answers a1 a2 a3 a4.
Proof.
  intros H. apply clean_parts in H as (_ & _ & Hr & Hne).
  assert (Hs : kept a4) by (split; assumption).
  unfold strip.
  change (lstrip (format_answers a1 a2 a3 a4)) with (format_answers a1 a2 a3 a4).
  unfold format_answers.
  refine (proj1 (_ : kept _)). do 10 keep_step. exact Hs.
Qed.

(** The mark of a failed request is a line whose key is none of the four
    tasks. *)
Lemma parse_failure_line (error : string) (ans : task_answers) :
  single_line error = true ->
  fold_left parse_answer_line
    (split_nl (strip (String.append "LLM_CALL_FAILED: " error))) ans
  = ans.
Proof.
  intros H. unfold strip.
  set (t := String.append "LLM_CALL_FAILED: " error).
  assert (Ht : single_line t = true) by exact H.
  change (lstrip t) with t.
  pose proof (rstrip_single_line t Ht) as Hs.
  rewrite (split_nl_single_line _ Hs). cbn [fold_left]. subst t.
  change (String.append "LLM_CALL_FAILED: " error)
    with (String.append "LLM_CALL_FAILED:" (String " " error)).
  rewrite rstrip_after_word by reflexivity.
  now destruct (rstrip (String " " error)).
Qed.

(** X11. [_parse_llm_response] reads back an answer written in the
    format of the experiment prompt, four lines "Task1: ..." to
    "Task4: ...", each text being not empty, on one line and without
    white space at either end (white space being what [str.strip]
    removes): it returns the four texts, colons in them included.
    The text recorded for a failed request, the failure mark followed by
    an error text of one line, gives "N/A" for the four tasks, as does a
    value that is not a text. *)
Theorem parse_task_answers_reads_format (a1 a2 a3 a4 : string) :
  clean a1 -> clean a2 -> clean a3 -> clean a4 ->
  _parse_llm_response (Some (format_answers a1 a2 a3 a4)) = mkAnswers a1 a2 a3 a4
  /\ (forall error,
        single_line error = true ->
        _parse_llm_response (Some (String.append "LLM_CALL_FAILED: " error))
        = no_answers)
  /\ _parse_llm_response None = no_answers.
Proof.
  intros H1 H2 H3 H4. split; [|split; [|reflexivity]].
  - pose proof (clean_parts _ H1) as (S1 & _).
    pose proof (clean_parts _ H2) as (S2 & _).
    pose proof (clean_parts _ H3) as (S3 & _).
    pose proof (clean_parts _ H4) as (S4 & _).
    set (L1 := String.append "Task1: " a1).
    set (L2 := String.append "Task2: " a2).
    set (L3 := String.append "Task3: " a3).
    set (L4 := String.append "Task4: " a4).
    assert (T1 : single_line L1 = true) by exact S1.
    assert (T2 : single_line L2 = true) by exact S2.
    assert (T3 : single_line L3 = true) by exact S3.
    assert (T4 : single_line L4 = true) by exact S4.
    unfold _parse_llm_response. rewrite (strip_format_answers a1 a2 a3 a4 H4).
    change (format_answers a1 a2 a3 a4)
      with (String.append L1 (String nl (String.append L2 (String nl
              (String.append L3 (String nl L4)))))).
    rewrite (split_nl_append L1 _ T1), (split_nl_append L2 _ T2),
      (split_nl_append L3 _ T3), (split_nl_single_line L4 T4).
    cbn [fold_left]. subst L1 L2 L3 L4.
    rewrite parse_answer_line_task1 by assumption.
    rewrite parse_answer_line_task2 by assumption.
    rewrite parse_answer_line_task3 by assumption.
    rewrite parse_answer_line_task4 by assumption.
    reflexivity.
  - intros error He. unfold _parse_llm_response. now apply parse_failure_line.
Qed.

Lemma parse_task_answers_reads_format_witness :
  clean "Yes" /\ clean "Fractions" /\ clean "1/2 + 1/4 = 3/4" /\ clean "A"
  /\ _parse_llm_response
       (Some (format_answers "Yes" "Fractions" "1/2 + 1/4 = 3/4" "A"))
     = mkAnswers "Yes" "Fractions" "1/2 + 1/4 = 3/4" "A".
Proof.
  assert (H1 : clean "Yes") by (repeat split; try reflexivity; discriminate).
  assert (H2 : clean "Fractions") by (repeat split; try reflexivity; discriminate).
  assert (H3 : clean "1/2 + 1/4 = 3/4")
    by (repeat split; try reflexivity; discriminate).
  assert (H4 : clean "A") by (repeat split; try reflexivity; discriminate).
  split; [exact H1|]. split; [exact H2|]. split; [exact H3|]. split; [exact H4|].
  exact (proj1 (parse_task_answers_reads_format _ _ _ _ H1 H2 H3 H4)).
Defined.

End TaskAnswers.

(** ** Related knowledge components *)

Section RelatedComponents.
Import RunExperiment Spec.

Lemma add_related_spec (m : gmap string (gset string)) (x y a b : string) :
  reflexive_map m ->
  (related (add_related m x y) a b
   <-> related m a b \/ (a = x /\ (b = y \/ b = x)))
  /\ reflexive_map (add_related m x y).
Proof.
  intros Hrefl. unfold related, add_related. split.
  - destruct (m !! x) as [sx|] eqn:Ex.
    + destruct (decide (a = x)) as [->|Hne].
      * rewrite lookup_insert_eq. split.
        -- intros [s [[= <-] Hb]]. apply elem_of_union in Hb as [Hb|Hb].
           ++ left. eauto.
           ++ right. apply elem_of_singleton in Hb. auto.
        -- intros [[s [Hs Hb]]|[_ [->| ->]]]; eexists; (split; [reflexivity|]).
           ++ rewrite Ex in Hs. injection Hs as <-. set_solver.
           ++ set_solver.
           ++ apply elem_of_union. left. now apply (Hrefl x).
      * rewrite lookup_insert_ne by auto. split; [auto|].
        intros [H|[-> _]]; [exact H | contradiction].
    + destruct (decide (a = x)) as [->|Hne].
      * rewrite lookup_insert_eq. split.
        -- intros [s [[= <-] Hb]]. right. split; [reflexivity|].
           apply elem_of_union in Hb as [Hb|Hb];
             apply elem_of_singleton in Hb; auto.
        -- intros [[s [Hs Hb]]|[_ [->| ->]]].
           ++ rewrite Ex in Hs. discriminate.
           ++ eexists. split; [reflexivity | set_solver].
           ++ eexists. split; [reflexivity | set_solver].
      * rewrite lookup_insert_ne by auto. split; [auto|].
        intros [H|[-> _]]; [exact H | contradiction].
  - intros k s. destruct (m !! x) as [sx|] eqn:Ex.
    + destruct (decide (k = x)) as [->|Hne].
      * rewrite lookup_insert_eq. intros [= <-].
        apply elem_of_union. left. now apply (Hrefl x).
      * rewrite lookup_insert_ne by auto. apply Hrefl.
    + destruct (decide (k = x)) as [->|Hne].
      * rewrite lookup_insert_eq. intros [= <-]. set_solver.
      * rewrite lookup_insert_ne by auto. apply Hrefl.
Qed.

Lemma add_edge_spec (m : gmap string (gset string)) (p q a b : string) :
  reflexive_map m ->
  (related (add_edge m (p, q)) a b
   <-> related m a b \/ (a = p /\ b = q) \/ (a = q /\ b = p)
       \/ (a = b /\ (a = p \/ a = q)))
  /\ reflexive_map (add_edge m (p, q)).
Proof.
  intros Hrefl. unfold add_edge.
  destruct (add_related_spec m p q a b Hrefl) as [H1 Hr1].
  destruct (add_related_spec (add_related m p q) q p a b Hr1) as [H2 Hr2].
  split; [|exact Hr2]. rewrite H2, H1. clear. intuition (subst; auto).
Qed.

Lemma fold_add_edge_spec (edges : list (string * string))
    (m : gmap string (gset string)) (a b : string) :
  reflexive_map m ->
  (related (fold_left add_edge edges m) a b
   <-> related m a b \/ (a, b) ∈ edges \/ (b, a) ∈ edges
       \/ (a = b /\ touched edges a))
  /\ reflexive_map (fold_left add_edge edges m).
Proof.
  revert m. induction edges as [|[p q] edges IH]; intros m Hrefl.
  - simpl. split; [|exact Hrefl]. split; [auto|].
    intros [H|[H|[H|[_ [x [H|H]]]]]]; auto; now apply elem_of_nil in H.
  - cbn [fold_left].
    destruct (add_edge_spec m p q a b Hrefl) as [Hstep Hr].
    destruct (IH (add_edge m (p, q)) Hr) as [Hrest Hr'].
    split; [|exact Hr']. rewrite Hrest, Hstep. unfold touched.
    setoid_rewrite elem_of_cons. clear. naive_solver.
Qed.

Lemma lookup_initial_map (names : list string) (a : string) :
  (list_to_map (map (fun kc => (kc, ({[kc]} : gset string))) names)
     : gmap string (gset string)) !! a
  = if decide (a ∈ names) then Some {[a]} else None.
Proof.
  induction names as [|kc names IH]; cbn [map].
  - rewrite list_to_map_nil, lookup_empty.
    destruct (decide (a ∈ [])) as [H|_]; [now apply elem_of_nil in H | reflexivity].
  - rewrite list_to_map_cons.
    destruct (decide (a = kc)) as [->|Hne].
    + rewrite lookup_insert_eq.
      destruct (decide (kc ∈ kc :: names)) as [_|H]; [reflexivity|].
      contradiction H. left.
    + rewrite lookup_insert_ne by auto. rewrite IH.
      destruct (decide (a ∈ names)) as [Hin|Hout];
        destruct (decide (a ∈ kc :: names)) as [Hin'|Hout']; try reflexivity.
      * contradiction Hout'. now right.
      * apply elem_of_cons in Hin' as [?|?]; contradiction.
Qed.

(** X5. In the map [build_related_kc_map] returns, [b] is in the set of
    [a] exactly when they are the two ends of an edge, in either
    direction, or [b] is [a] itself and [a] is a listed name or an end of
    an edge.  The map is therefore symmetric, every key is in its own
    set, and the order in which the edges are visited plays no role. *)
Theorem build_related_kc_map_relation (all_kc_names : list string)
    (kcg_edges : list (string * string)) :
  let m := build_related_kc_map all_kc_names kcg_edges in
  (forall a b,
     related m a b
     <-> (a = b /\ (a ∈ all_kc_names \/ touched kcg_edges a))
         \/ (a, b) ∈ kcg_edges \/ (b, a) ∈ kcg_edges)
  /\ (forall a b, related m a b -> related m b a)
  /\ reflexive_map m
  /\ (forall edges', Permutation kcg_edges edges' ->
        build_related_kc_map all_kc_names edges' = m).
Proof.
  intros m.
  set (m0 := (list_to_map (map (fun kc => (kc, ({[kc]} : gset string)))
                all_kc_names) : gmap string (gset string))).
  assert (Hr0 : reflexive_map m0).
  { intros k s. subst m0. rewrite lookup_initial_map.
    destruct (decide (k ∈ all_kc_names)); [|discriminate].
    intros [= <-]. set_solver. }
  assert (H0 : forall a b, related m0 a b <-> a = b /\ a ∈ all_kc_names).
  { intros a b. unfold related. subst m0. rewrite lookup_initial_map.
    destruct (decide (a ∈ all_kc_names)) as [Hin|Hout].
    - split.
      + intros [s [[= <-] Hb]]. apply elem_of_singleton in Hb. auto.
      + intros [-> _]. eexists. split; [reflexivity | set_solver].
    - split; [intros [s [[=] _]] | intros [_ H]; contradiction]. }
  assert (Hchar : forall edges a b,
     related (build_related_kc_map all_kc_names edges) a b
     <-> (a = b /\ (a ∈ all_kc_names \/ touched edges a))
         \/ (a, b) ∈ edges \/ (b, a) ∈ edges).
  { intros edges a b. unfold build_related_kc_map. fold m0.
    rewrite (proj1 (fold_add_edge_spec edges m0 a b Hr0)), H0. tauto. }
  split; [apply Hchar|]. split; [|split].
  - intros a b. subst m. rewrite !Hchar. unfold touched.
    intros [[-> H]|[H|H]]; auto.
  - apply (proj2 (fold_add_edge_spec kcg_edges m0 "" "" Hr0)).
  - intros edges' Hperm. apply map_eq. intros a.
    assert (Hsame : forall b, related (build_related_kc_map all_kc_names edges') a b
                              <-> related m a b).
    { intros b. subst m. rewrite !Hchar. unfold touched.
      assert (Hin : forall e, e ∈ kcg_edges <-> e ∈ edges').
      { intros e. now rewrite Hperm. }
      setoid_rewrite Hin. reflexivity. }
    assert (Hkey : forall edges, is_Some (build_related_kc_map all_kc_names edges !! a)
                                 <-> related (build_related_kc_map all_kc_names edges) a a).
    { intros edges. split.
      - intros [s Hs]. exists s. split; [exact Hs|].
        apply (proj2 (fold_add_edge_spec edges m0 "" "" Hr0) a s Hs).
      - intros [s [Hs _]]. eauto. }
    destruct (build_related_kc_map all_kc_names edges' !! a) as [s'|] eqn:E';
      destruct (m !! a) as [s|] eqn:E.
    + f_equal. apply set_eq. intros b.
      specialize (Hsame b). unfold related in Hsame. rewrite E', E in Hsame.
      split; intros Hb.
      * destruct (proj1 Hsame (ex_intro _ s' (conj eq_refl Hb))) as [? [[= <-] ?]].
        assumption.
      * destruct (proj2 Hsame (ex_intro _ s (conj eq_refl Hb))) as [? [[= <-] ?]].
        assumption.
    + exfalso. assert (Hs : is_Some (build_related_kc_map all_kc_names edges' !! a))
        by (rewrite E'; eauto).
      apply Hkey, Hsame in Hs. destruct Hs as [s [Hs _]]. congruence.
    + exfalso. assert (Hs : is_Some (build_related_kc_map all_kc_names kcg_edges !! a))
        by (fold m; rewrite E; eauto).
      apply Hkey in Hs. fold m in Hs. apply Hsame in Hs.
      destruct Hs as [s' [Hs' _]]. congruence.
    + reflexivity.
Qed.

End RelatedComponents.

(** ** The mastery lookup *)

Section MasteryLookup.
Import RunExperiment Spec.

Lemma lookup_info_store_row (m : gmap Z (gmap string mastery_info))
    (row : mastery_row) (sid : Z) (kc : string) :
  lookup_info (store_row m row) sid kc
  = if bool_decide (ms_student_id row = sid /\ ms_kc_name row = kc)
    then Some (info_of_row row)
    else lookup_info m sid kc.
Proof.
  unfold lookup_info, store_row.
  destruct (decide (ms_student_id row = sid)) as [Hs|Hs].
  - subst sid. rewrite lookup_insert_eq. cbn [mbind option_bind].
    destruct (decide (ms_kc_name row = kc)) as [Hk|Hk].
    + subst kc. rewrite lookup_insert_eq.
      now rewrite bool_decide_eq_true_2 by auto.
    + rewrite lookup_insert_ne by auto.
      rewrite bool_decide_eq_false_2 by (intros [_ ?]; contradiction).
      destruct (m !! ms_student_id row); [reflexivity|].
      cbn. apply lookup_empty.
  - rewrite lookup_insert_ne by auto.
    now rewrite bool_decide_eq_false_2 by (intros [? _]; contradiction).
Qed.

Lemma last_row_for_snoc (df : list mastery_row) (row : mastery_row) (sid : Z)
    (kc : string) :
  last_row_for (df ++ [row]) sid kc
  = if bool_decide (ms_student_id row = sid /\ ms_kc_name row = kc)
    then Some row
    else last_row_for df sid kc.
Proof.
  unfold last_row_for. rewrite List.filter_app. cbn [List.filter].
  destruct (bool_decide _).
  - apply last_snoc.
  - now rewrite app_nil_r.
Qed.

Lemma lookup_info_fold (df : list mastery_row)
    (m : gmap Z (gmap string mastery_info)) (sid : Z) (kc : string) :
  lookup_info (fold_left store_row df m) sid kc
  = match last_row_for df sid kc with
    | Some row => Some (info_of_row row)
    | None => lookup_info m sid kc
    end.
Proof.
  induction df as [|row df IH] using rev_ind; [reflexivity|].
  rewrite fold_left_app. cbn [fold_left].
  rewrite lookup_info_store_row, last_row_for_snoc.
  now destruct (bool_decide _).
Qed.

Lemma last_row_for_selected (df : list mastery_row) (ids : list Z) (sid : Z)
    (kc : string) :
  last_row_for
    (List.filter (fun row => bool_decide (ms_student_id row ∈ ids)) df) sid kc
  = if decide (sid ∈ ids) then last_row_for df sid kc else None.
Proof.
  unfold last_row_for.
  assert (H : List.filter
            (fun row => bool_decide (ms_student_id row = sid /\ ms_kc_name row = kc))
            (List.filter (fun row => bool_decide (ms_student_id row ∈ ids)) df)
          = if decide (sid ∈ ids)
            then List.filter
                   (fun row => bool_decide (ms_student_id row = sid
                                            /\ ms_kc_name row = kc)) df
            else []).
  { induction df as [|row df IH]; cbn [List.filter].
    - now destruct (decide (sid ∈ ids)).
    - destruct (decide (ms_student_id row = sid /\ ms_kc_name row = kc))
        as [[Hs Hk]|Hno].
      + destruct (decide (sid ∈ ids)) as [Hin|Hout].
        * rewrite (bool_decide_eq_true_2 (_ ∈ ids)) by now rewrite Hs.
          cbn [List.filter].
          rewrite (bool_decide_eq_true_2 (_ /\ _)) by auto. now rewrite IH.
        * rewrite (bool_decide_eq_false_2 (_ ∈ ids)) by now rewrite Hs.
          exact IH.
      + rewrite (bool_decide_eq_false_2 (_ /\ _)) by exact Hno.
        destruct (bool_decide (ms_student_id row ∈ ids)); [|exact IH].
        cbn [List.filter].
        now rewrite (bool_decide_eq_false_2 (_ /\ _)) by exact Hno. }
  rewrite H. now destruct (decide (sid ∈ ids)).
Qed.

(** X12. [load_mastery_assessment_results] keeps, for a student and a
    knowledge component, the data of the last row of the file that
    carries this pair: a later row replaces an earlier one.  With a list
    of target students the rows of other students are left out, and a
    missing or unreadable file gives the empty lookup. *)
Theorem mastery_lookup_last_row_wins (df : list mastery_row) (sid : Z)
    (kc : string) :
  lookup_info (load_mastery_assessment_results (Some df) None) sid kc
  = info_of_row <$> last_row_for df sid kc
  /\ (forall ids,
        lookup_info (load_mastery_assessment_results (Some df) (Some ids)) sid kc
        = if decide (sid ∈ ids) then info_of_row <$> last_row_for df sid kc
          else None)
  /\ (forall target, load_mastery_assessment_results None target = ∅).
Proof.
  unfold load_mastery_assessment_results. split; [|split; [|reflexivity]].
  - rewrite lookup_info_fold. now destruct (last_row_for df sid kc).
  - intros ids. rewrite lookup_info_fold, last_row_for_selected.
    destruct (decide (sid ∈ ids)); [|reflexivity].
    now destruct (last_row_for df sid kc).
Qed.

(** Two rows for the same pair: the second one is kept. *)
Example mastery_lookup_sample :
  lookup_info
    (load_mastery_assessment_results
       (Some [ mkMasteryRow 1 "Fractions" (Some "Novice") None None;
               mkMasteryRow 2 "Fractions" (Some "Mastered") None None;
               mkMasteryRow 1 "Fractions" (Some "Proficient") (Some "ok") None ])
       (Some [1%Z])) 1 "Fractions"
  = Some (mkMasteryInfo (Some "Proficient") (Some "ok") None).
Proof. vm_compute. reflexivity. Qed.

End MasteryLookup.

(** ** Resuming the generation of tutoring content *)

Section TutoringResumption.
Import GenerateTutoring.

Lemma lookup_student_weak_kcs_fold (weak_kcs_of : Z -> option (list string))
    (student_ids : list Z) (m0 : gmap Z (list string)) (sid : Z) :
  fold_left
    (fun m student_id =>
       match weak_kcs_of student_id with
       | Some weak_kcs => <[student_id := weak_kcs]> m
       | None => m
       end) student_ids m0 !! sid
  = match (if decide (sid ∈ student_ids) then weak_kcs_of sid else None) with
    | Some kcs => Some kcs
    | None => m0 !! sid
    end.
Proof.
  revert m0. induction student_ids as [|x ids IH]; intros m0; cbn [fold_left].
  - destruct (decide (sid ∈ [])) as [H|_]; [now apply elem_of_nil in H|reflexivity].
  - rewrite IH.
    destruct (decide (sid ∈ ids)) as [Hin|Hout];
      destruct (decide (sid ∈ x :: ids)) as [Hin'|Hout'].
    + destruct (weak_kcs_of sid) eqn:Ew; [reflexivity|].
      destruct (decide (x = sid)) as [->|Hne].
      * now rewrite Ew.
      * destruct (weak_kcs_of x); [now rewrite lookup_insert_ne|reflexivity].
    + contradiction Hout'. now right.
    + apply elem_of_cons in Hin' as [->|?]; [|contradiction].
      destruct (weak_kcs_of x); [apply lookup_insert_eq | reflexivity].
    + assert (Hne : x <> sid) by (intros ->; apply Hout'; left).
      destruct (weak_kcs_of x); [now rewrite lookup_insert_ne|reflexivity].
Qed.

Lemma lookup_student_weak_kcs_map (weak_kcs_of : Z -> option (list string))
    (student_ids : list Z) (sid : Z) :
  student_weak_kcs_map weak_kcs_of student_ids !! sid
  = if decide (sid ∈ student_ids) then weak_kcs_of sid else None.
Proof.
  unfold student_weak_kcs_map. rewrite lookup_student_weak_kcs_fold.
  destruct (decide (sid ∈ student_ids)); [|apply lookup_empty].
  destruct (weak_kcs_of sid); [reflexivity | apply lookup_empty].
Qed.

Lemma elem_of_missing_pairs (m : gmap Z (list string))
    (processed_pairs : gset (Z * string)) (sid : Z) (kc : string) :
  (sid, kc) ∈ missing_pairs m processed_pairs
  <-> exists kcs, m !! sid = Some kcs /\ kc ∈ kcs
                  /\ (sid, kc) ∉ processed_pairs.
Proof.
  unfold missing_pairs. rewrite elem_of_list_to_set, list_elem_of_In, in_flat_map.
  split.
  - intros [[s kcs] [Hin Hk]]. apply list_elem_of_In, elem_of_map_to_list in Hin.
    apply in_map_iff in Hk as [kc' [[= <- <-] Hf]].
    apply filter_In in Hf as [Hkc Hnp].
    exists kcs. split; [exact Hin|]. split; [now apply list_elem_of_In|].
    now apply bool_decide_eq_true in Hnp.
  - intros [kcs [Hm [Hkc Hnp]]]. exists (sid, kcs). split.
    + now apply list_elem_of_In, elem_of_map_to_list.
    + apply in_map_iff. exists kc. split; [reflexivity|].
      apply filter_In. split; [now apply list_elem_of_In|].
      now apply bool_decide_eq_true.
Qed.

Lemma kcs_to_generate_filter (weak_kcs : list string) (student_id : Z)
    (processed_pairs : gset (Z * string)) :
  kcs_to_generate weak_kcs student_id processed_pairs
  = List.filter (not_processed processed_pairs student_id) weak_kcs.
Proof.
  unfold kcs_to_generate. destruct weak_kcs as [|kc kcs]; [reflexivity|].
  case_bool_decide as He.
  - now destruct (List.filter _ (kc :: kcs)).
  - assert (Hp : processed_pairs = ∅).
    { destruct (decide (processed_pairs = ∅)); [assumption | contradiction]. }
    subst processed_pairs. symmetry.
    apply forallb_filter_id, forallb_forall. intros x _.
    apply bool_decide_eq_true, not_elem_of_empty.
Qed.

(** X13. On a resumed run of [generate_tutoring_content.main] the three
    places that decide what is left to do agree.  A pair is missing
    exactly when its student is among the chosen students and has
    records, the component is one of the student's weak components and
    the pair has no row in the results file; a student is pending exactly
    when one of its pairs is missing, so that the run stops early exactly
    when nothing is missing; and the tutoring tasks created for a student
    are those of its weak components whose pair has no row, in order:
    no pair of the results file is generated again. *)
Theorem tutoring_resumption_consistent (weak_kcs_of : Z -> option (list string))
    (student_ids : list Z) (processed_pairs : gset (Z * string)) :
  let m := student_weak_kcs_map weak_kcs_of student_ids in
  let missing := missing_pairs m processed_pairs in
  let pending := pending_students student_ids m processed_pairs in
  (forall sid kc,
     (sid, kc) ∈ missing
     <-> sid ∈ student_ids
         /\ exists kcs, weak_kcs_of sid = Some kcs /\ kc ∈ kcs
                        /\ (sid, kc) ∉ processed_pairs)
  /\ (forall sid, sid ∈ pending <-> sid ∈ student_ids /\ exists kc, (sid, kc) ∈ missing)
  /\ (pending = [] <-> missing = ∅)
  /\ (forall sid kcs,
        kcs_to_generate kcs sid processed_pairs
        = List.filter (not_processed processed_pairs sid) kcs
        /\ (forall kc, kc ∈ kcs_to_generate kcs sid processed_pairs ->
              (sid, kc) ∉ processed_pairs)).
Proof.
  intros m missing pending.
  assert (Hmiss : forall sid kc,
     (sid, kc) ∈ missing
     <-> sid ∈ student_ids
         /\ exists kcs, weak_kcs_of sid = Some kcs /\ kc ∈ kcs
                        /\ (sid, kc) ∉ processed_pairs).
  { intros sid kc. subst missing m. rewrite elem_of_missing_pairs.
    setoid_rewrite lookup_student_weak_kcs_map.
    destruct (decide (sid ∈ student_ids)) as [Hin|Hout].
    - split; [intros [kcs H]; eauto | intros [_ H]; exact H].
    - split; [intros [kcs [[=] _]] | intros [H _]; contradiction]. }
  assert (Hpend : forall sid,
     sid ∈ pending <-> sid ∈ student_ids /\ exists kc, (sid, kc) ∈ missing).
  { intros sid. subst pending. unfold pending_students.
    rewrite list_elem_of_In, filter_In, <- list_elem_of_In.
    setoid_rewrite Hmiss. subst m. rewrite lookup_student_weak_kcs_map.
    split.
    - intros [Hin H]. split; [exact Hin|].
      destruct (decide (sid ∈ student_ids)); [|contradiction].
      destruct (weak_kcs_of sid) as [kcs|] eqn:Ew; [|discriminate].
      cbn [default from_option id] in H.
      destruct kcs as [|k kcs]; [discriminate|].
      apply existsb_exists in H as [kc [Hkc Hnp]].
      exists kc. split; [exact Hin|]. exists (k :: kcs).
      split; [reflexivity|]. split; [now apply list_elem_of_In|].
      now apply bool_decide_eq_true in Hnp.
    - intros [Hin [kc [_ [kcs [Ew [Hkc Hnp]]]]]]. split; [exact Hin|].
      destruct (decide (sid ∈ student_ids)); [|contradiction].
      rewrite Ew. cbn [default from_option id].
      destruct kcs as [|k kcs]; [now apply elem_of_nil in Hkc|].
      apply existsb_exists. exists kc. split; [now apply list_elem_of_In|].
      now apply bool_decide_eq_true. }
  split; [exact Hmiss|]. split; [exact Hpend|]. split; [|].
  - split.
    + intros Hnil. apply set_eq. intros [sid kc]. split.
      * intros Hin. exfalso.
        assert (Hs : sid ∈ pending).
        { apply Hpend. split; [now apply Hmiss in Hin | eauto]. }
        rewrite Hnil in Hs. now apply elem_of_nil in Hs.
      * intros H. now apply not_elem_of_empty in H.
    + intros Hempty. destruct pending as [|sid rest] eqn:E; [reflexivity|].
      exfalso. assert (Hs : sid ∈ sid :: rest) by left.
      apply Hpend in Hs as [_ [kc Hkc]]. rewrite Hempty in Hkc.
      now apply not_elem_of_empty in Hkc.
  - intros sid kcs. split; [apply kcs_to_generate_filter|].
    intros kc. rewrite kcs_to_generate_filter, list_elem_of_In, filter_In.
    intros [_ H]. now apply bool_decide_eq_true in H.
Qed.

End TutoringResumption.

(** ** The results of a batch of requests *)

Section BatchResults.
Import LlmUtils RunExperiment.

Lemma rr_index_execute (index : nat) (call : nat -> call_outcome) :
  rr_index (returned (execute_single_request index call)) = index.
Proof.
  unfold execute_single_request, retry_delays. cbn [attempt_from].
  destruct (call 0%nat); [reflexivity|]. destruct (call 1%nat); [reflexivity|].
  destruct (call 2%nat); [reflexivity|]. destruct (call 3%nat); reflexivity.
Qed.

Lemma succeeded_execute (index : nat) (call : nat -> call_outcome) :
  succeeded (returned (execute_single_request index call)) = false
  <-> forall k, (k <= 3)%nat -> exists str_e type_name, call k = Raised str_e type_name.
Proof.
  rewrite <- (execute_single_request_error index call). unfold succeeded.
  destruct (rr_error _).
  - split; [intros _; discriminate | reflexivity].
  - split; [discriminate | intros H; now contradiction H].
Qed.

(** X14. The results of [create_concurrent_llm_requests] line up with
    the requests: there is one result per request, the result at
    position [i] carries the index [i], and it is a failure exactly when
    the four attempts made for request [i] all raised.  The two counts
    of the final statistics add up to the number of requests. *)
Theorem results_line_up_with_requests (calls : nat -> nat -> call_outcome)
    (n_requests : nat) :
  let results := create_concurrent_llm_requests calls n_requests in
  length results = n_requests
  /\ (forall i, (i < n_requests)%nat ->
        exists r, results !! i = Some r
                  /\ rr_index r = i
                  /\ (succeeded r = false
                      <-> forall k, (k <= 3)%nat ->
                            exists str_e type_name,
                              calls i k = Raised str_e type_name))
  /\ (success_count results + fail_count results = n_requests)%nat.
Proof.
  intros results. subst results. unfold create_concurrent_llm_requests.
  assert (Hlen : length (map (fun i => returned (execute_single_request i (calls i)))
                           (seq 0 n_requests)) = n_requests)
    by now rewrite length_map, length_seq.
  split; [exact Hlen|]. split.
  - intros i Hi. eexists. split.
    + rewrite list_lookup_fmap, lookup_seq_lt by exact Hi. reflexivity.
    + split; [apply rr_index_execute | apply succeeded_execute].
  - unfold fail_count, success_count. rewrite Hlen.
    pose proof (List.filter_length_le succeeded
                  (map (fun i => returned (execute_single_request i (calls i)))
                       (seq 0 n_requests))) as Hle.
    rewrite Hlen in Hle. lia.
Qed.

End BatchResults.

(** ** Tutoring records *)

Section TutoringRecords.
Import PyStr LlmUtils Persister GenerateTutoring Spec.

Lemma picked_outside_test_set (shuffle : list Z -> list Z) (kc_name : string)
    (kc_to_questions_map : gmap string (list Z)) (test_question_ids : gset Z)
    (question_text_map : gmap Z string) (question_choices_df : list choice_row)
    (max_num : nat) :
  (forall l, Permutation l (shuffle l)) ->
  let picked :=
    _select_three_questions_for_kc shuffle kc_name kc_to_questions_map
      test_question_ids question_text_map question_choices_df max_num in
  (length picked <= max_num)%nat
  /\ (forall p, p ∈ picked -> question_id p ∉ test_question_ids).
Proof.
  intros Hperm picked.
  assert (Hnil : shuffle [] = []) by (apply Permutation_nil, (Hperm [])).
  pose proof (selected_ids shuffle kc_name kc_to_questions_map test_question_ids
                question_text_map question_choices_df max_num Hnil) as Hids.
  fold picked in Hids. split.
  - rewrite <- (length_map question_id picked), Hids, length_take. lia.
  - intros p Hp.
    assert (Hin : question_id p ∈ map question_id picked)
      by (apply list_elem_of_fmap; now exists p).
    rewrite Hids in Hin. apply (subseteq_take max_num) in Hin.
    apply list_elem_of_In in Hin.
    apply (Permutation_in _ (Permutation_sym (Hperm _))) in Hin.
    apply filter_In in Hin as [_ Hdec].
    now apply bool_decide_eq_true in Hdec.
Qed.

(** X15. [generate_tutoring_for_single_kc] gives no record exactly when
    the component has no question outside the test set.  Otherwise it
    gives a record for the pair of the student and the component, with at
    most three example questions, none of them a test question, whether
    the call of the model succeeded or not; after a failure the record
    has an empty content and the error behind the failure mark.  Once
    the record is in the results file, the pair is not generated again:
    a failed call is not retried by a later run. *)
Theorem tutoring_record_for_pair (shuffle : list Z -> list Z)
    (build_prompt : Z -> string -> list picked_question -> string * string)
    (outcome : call_outcome) (student_id : Z) (kc_name : string)
    (test_question_ids : gset Z) (kc_to_questions_map : gmap string (list Z))
    (question_text_map : gmap Z string) (question_choices_df : list choice_row) :
  (forall l, Permutation l (shuffle l)) ->
  let result :=
    generate_tutoring_for_single_kc shuffle build_prompt outcome student_id
      kc_name test_question_ids kc_to_questions_map question_text_map
      question_choices_df in
  (result = None
   <-> forall q, q ∈ default [] (kc_to_questions_map !! kc_name) ->
                 q ∈ test_question_ids)
  /\ (forall r, result = Some r ->
        tr_student_id r = student_id
        /\ tr_kc_name r = kc_name
        /\ (0 < length (tr_example_question_ids r) <= 3)%nat
        /\ (forall q, q ∈ tr_example_question_ids r -> q ∉ test_question_ids)
        /\ (forall str_e type_name,
              outcome = Raised str_e type_name ->
              tr_tutoring_content r = ""
              /\ tr_llm_raw_response r = String.append "LLM_CALL_FAILED: " str_e)
        /\ (forall rows kcs,
              kc_name ∉ kcs_to_generate kcs student_id
                          (processed_pairs_of (Some (rows ++ [r]))))).
Proof.
  intros Hperm result.
  assert (Hnil : shuffle [] = []) by (apply Permutation_nil, (Hperm [])).
  pose proof (selected_ids shuffle kc_name kc_to_questions_map test_question_ids
                question_text_map question_choices_df 3 Hnil) as Hids.
  pose proof (picked_outside_test_set shuffle kc_name kc_to_questions_map
                test_question_ids question_text_map question_choices_df 3 Hperm)
    as (Hlen & Hnot).
  subst result. unfold generate_tutoring_for_single_kc.
  set (picked := _select_three_questions_for_kc shuffle kc_name
                   kc_to_questions_map test_question_ids question_text_map
                   question_choices_df 3) in *.
  set (available := List.filter (fun qid => bool_decide (qid ∉ test_question_ids))
                      (default [] (kc_to_questions_map !! kc_name))) in *.
  assert (Havail : picked = [] <-> available = []).
  { split.
    - intros Hp. rewrite Hp in Hids. simpl in Hids.
      destruct (shuffle available) as [|x l] eqn:Es.
      + pose proof (Hperm available) as Hp'. rewrite Es in Hp'.
        now apply Permutation_sym, Permutation_nil in Hp'.
      + discriminate.
    - intros Ha. rewrite Ha, Hnil in Hids.
      destruct picked; [reflexivity | discriminate]. }
  assert (Hall : available = []
                 <-> forall q, q ∈ default [] (kc_to_questions_map !! kc_name) ->
                               q ∈ test_question_ids).
  { subst available. split.
    - intros He q Hq. destruct (decide (q ∈ test_question_ids)) as [|Hn]; [assumption|].
      exfalso. assert (Hin : In q (List.filter
                 (fun qid => bool_decide (qid ∉ test_question_ids))
                 (default [] (kc_to_questions_map !! kc_name)))).
      { apply filter_In. split; [now apply list_elem_of_In|].
        now apply bool_decide_eq_true. }
      rewrite He in Hin. exact Hin.
    - intros H.
      destruct (List.filter _ _) as [|x l] eqn:Ef; [reflexivity|].
      exfalso. assert (Hin : In x (x :: l)) by now left.
      rewrite <- Ef in Hin. apply filter_In in Hin as [Hx Hd].
      apply bool_decide_eq_true in Hd. apply Hd, H. now apply list_elem_of_In. }
  split.
  - rewrite <- Hall, <- Havail. destruct picked as [|p ps]; [tauto|].
    destruct (build_prompt student_id kc_name (p :: ps)) as [sp up].
    destruct outcome; split; discriminate.
  - intros r Hr. destruct picked as [|p ps] eqn:Ep; [discriminate|].
    destruct (build_prompt student_id kc_name (p :: ps)) as [sp up].
    assert (Hex : tr_example_question_ids r = map question_id (p :: ps)
                  /\ tr_student_id r = student_id /\ tr_kc_name r = kc_name)
      by (destruct outcome; injection Hr as <-; auto).
    destruct Hex as (Hex & Hs & Hk).
    split; [exact Hs|]. split; [exact Hk|]. split; [|split; [|split]].
    + rewrite Hex, length_map. simpl in *. lia.
    + intros q Hq. rewrite Hex in Hq. apply list_elem_of_fmap in Hq as [x [-> Hx]].
      now apply Hnot.
    + intros str_e type_name ->. injection Hr as <-. auto.
    + intros rows kcs Hin.
      rewrite kcs_to_generate_filter in Hin.
      apply list_elem_of_In, filter_In in Hin as [_ Hnp].
      apply bool_decide_eq_true in Hnp. apply Hnp.
      unfold processed_pairs_of. apply elem_of_list_to_set.
      rewrite map_app. apply elem_of_app. right. simpl. rewrite Hs, Hk. left.
Qed.

Lemma tutoring_record_for_pair_witness :
  (forall l : list Z, Permutation l (rev l))
  /\ generate_tutoring_for_single_kc (@rev Z)
       (fun _ _ _ => ("You are a tutor.", "Explain the topic."))
       (Raised "Connection timed out" "TimeoutError") 7 "Fractions"
       Samples.sample_test_ids Samples.sample_questions Samples.sample_texts
       Samples.sample_choices
     <> None.
Proof.
  pose proof (@Permutation_rev Z) as H.
  split; [exact H|]. intros Hnone.
  destruct (tutoring_record_for_pair (@rev Z)
              (fun _ _ _ => ("You are a tutor.", "Explain the topic."))
              (Raised "Connection timed out" "TimeoutError") 7 "Fractions"
              Samples.sample_test_ids Samples.sample_questions
              Samples.sample_texts Samples.sample_choices H) as [Hiff _].
  pose proof (proj1 Hiff Hnone 1%Z) as Hall.
  assert (Hin : 1%Z ∈ default [] (Samples.sample_questions !! "Fractions"))
    by (vm_compute; left).
  specialize (Hall Hin). unfold Samples.sample_test_ids in Hall.
  apply elem_of_union in Hall as [Hn|Hn]; apply elem_of_singleton in Hn;
    discriminate.
Defined.

Lemma tutoring_fold (f0 : csv_file tutoring_record) (futures : list student_done)
    (recs : list tutoring_record) (st : state tutoring_record) :
  Forall (fun d => sd_write_ok d = true) futures ->
  (is_first_batch st = true -> results_file st = None) ->
  (exists written, results_file st = appended f0 written
                   /\ written ++ batch_results st = recs) ->
  let st' := fold_left on_student futures st in
  (is_first_batch st' = true -> results_file st' = None)
  /\ exists written, results_file st' = appended f0 written
                     /\ written ++ batch_results st'
                        = recs ++ concat (map kept_results futures).
Proof.
  revert recs st. induction futures as [|d ds IH]; intros recs st Hok Hfirst Hw.
  - simpl. rewrite app_nil_r. auto.
  - apply Forall_cons in Hok as [Hd Hok]. cbn [fold_left map concat].
    rewrite app_assoc. apply IH; [exact Hok| |]; clear IH.
    + unfold on_student, on_student_done, extend_and_maybe_flush.
      destruct (_ <=? _)%nat; [|exact Hfirst].
      destruct (save_results_batch _ _ _ _). discriminate.
    + destruct Hw as [written [Hfile Hrecs]].
      unfold on_student, on_student_done, extend_and_maybe_flush, kept_results.
      rewrite Hd.
      set (all := match sd_error d with
                  | Some _ => batch_results st
                  | None => batch_results st ++ sd_results d
                  end).
      assert (Hall : written ++ all
                     = recs ++ match sd_error d with
                               | Some _ => []
                               | None => sd_results d
                               end).
      { subst all. destruct (sd_error d).
        - now rewrite app_nil_r.
        - now rewrite app_assoc, Hrecs. }
      destruct (_ <=? _)%nat.
      * rewrite save_results_batch_ok by exact Hfirst.
        exists (written ++ all). cbn [results_file batch_results].
        rewrite Hfile, appended_app, app_nil_r. auto.
      * exists written. cbn [results_file batch_results]. auto.
Qed.

(** X16. When every write succeeds, [generate_tutoring_content.main]
    leaves in the results file the rows it had followed by the records
    of all the students whose future came back without error, in the
    order in which the futures ended, each record once; the records of a
    future that reports an error are not written.  The header is written
    only when the file did not exist. *)
Theorem tutoring_results_all_written (f0 : csv_file tutoring_record)
    (futures : list student_done) :
  Forall (fun d => sd_write_ok d = true) futures ->
  save_all f0 futures true = appended f0 (concat (map kept_results futures))
  /\ data_rows (save_all f0 futures true)
     = data_rows f0 ++ concat (map kept_results futures)
  /\ header_count (save_all f0 futures true)
     = (header_count f0
        + if path_exists f0 then 0
          else match concat (map kept_results futures) with
               | [] => 0
               | _ :: _ => 1
               end)%nat.
Proof.
  intros Hok.
  assert (H : save_all f0 futures true
              = appended f0 (concat (map kept_results futures))).
  { unfold save_all.
    destruct (tutoring_fold f0 futures [] (init f0) Hok)
      as [Hfirst [written [Hfile Hrecs]]].
    - destruct f0; simpl; [discriminate | reflexivity].
    - exists []. auto.
    - rewrite save_results_batch_ok by exact Hfirst. cbn [fst].
      rewrite Hfile, appended_app. now rewrite Hrecs. }
  rewrite H, data_rows_appended, header_count_appended. auto.
Qed.

Lemma tutoring_results_all_written_witness :
  Forall (fun d => sd_write_ok d = true)
    [ mkStudentDone (replicate 9 (Samples.sample_tutoring "Fractions")) None true;
      mkStudentDone [Samples.sample_tutoring "Lost"] (Some "KeyError") true;
      mkStudentDone (replicate 5 (Samples.sample_tutoring "Decimals")) None true ]
  /\ data_rows
       (save_all None
          [ mkStudentDone (replicate 9 (Samples.sample_tutoring "Fractions"))
              None true;
            mkStudentDone [Samples.sample_tutoring "Lost"] (Some "KeyError") true;
            mkStudentDone (replicate 5 (Samples.sample_tutoring "Decimals"))
              None true ] true)
     = replicate 9 (Samples.sample_tutoring "Fractions")
       ++ replicate 5 (Samples.sample_tutoring "Decimals").
Proof.
  assert (H : Forall (fun d => sd_write_ok d = true)
    [ mkStudentDone (replicate 9 (Samples.sample_tutoring "Fractions")) None true;
      mkStudentDone [Samples.sample_tutoring "Lost"] (Some "KeyError") true;
      mkStudentDone (replicate 5 (Samples.sample_tutoring "Decimals")) None true ])
    by (repeat constructor).
  split; [exact H|].
  exact (proj1 (proj2 (tutoring_results_all_written None _ H))).
Defined.

End TutoringRecords.

(** ** A save that fails *)

Section FailedSave.
Import Persister AssessMastery GenerateTutoring Spec.

(** C7 (amended). A save that fails is logged, and the caller empties
    the buffer all the same: the records of that batch are not kept for
    a later flush.  In [assess_mastery] they are counted as saved, and
    the flush after the last task finds nothing of them to write; the
    same holds when that last flush fails.  In
    [generate_tutoring_content] nothing writes them later: what the rest
    of the run adds to the file are the records of the students that end
    afterwards.  In [assess_mastery] stage 4 of [main] builds every
    record of the pass again from the gathered results and appends it to
    the file that stage 3 left, so that the records of a batch whose save
    failed reach the file then, when the writes of stage 4 succeed. *)
Theorem failed_flush_clears_batch (st : state result_record) (c : completion) :
  c_write_ok c = false ->
  (BATCH_SIZE
   <= size_after_append st (make_result_record (c_request c) (c_outcome c)))%nat ->
  let st' := on_completion st c in
  log st' = log st ++ [BatchSaveFailed]
  /\ batch_results st' = []
  /\ total_saved st'
     = (total_saved st
        + size_after_append st (make_result_record (c_request c) (c_outcome c)))%nat
  /\ (forall ok, flush_remaining st' ok = st')
  /\ (batch_results st <> [] ->
      log (flush_remaining st false) = log st ++ [BatchSaveFailed]
      /\ batch_results (flush_remaining st false) = [])
  /\ (forall (s : state tutoring_record) (results : list tutoring_record),
        (batch_size <= size_after_extend s results None)%nat ->
        let s' := on_student_done s results None false in
        log s' = log s ++ [BatchSaveFailed]
        /\ batch_results s' = []
        /\ forall later,
             Forall (fun d => sd_write_ok d = true) later ->
             save_from s' later true
             = appended (results_file s') (concat (map kept_results later)))
  /\ (forall (MODEL_NAME : string) (M : list manifest_row)
        (f0 : csv_file result_record) (p : pass),
        stage4_writes_ok p ->
        let pending :=
          snd (load_request_manifest MODEL_NAME (Some M) (read_results_csv f0)) in
        let f3 :=
          results_file
            (flush_remaining
               (fold_left on_completion (completions_of pending p) (init f0))
               (stage3_last_write_ok p)) in
        let f1 := snd (run_mode MODEL_NAME M f0 p) in
        f1 = appended f3 (pass_records pending p)
        /\ data_rows f1 = data_rows f3 ++ pass_records pending p).
Proof.
  intros Hw Hge st'. subst st'.
  unfold on_completion, append_and_maybe_flush, size_after_append in *.
  rewrite Hw. apply Nat.leb_le in Hge. rewrite Hge.
  rewrite save_results_batch_failed by (now destruct (batch_results st)).
  cbn [log results_file batch_results total_saved].
  split; [reflexivity|]. split; [reflexivity|].
  split; [reflexivity|]. split; [intros ok; reflexivity|]. split; [|split].
  - intros Hne. unfold flush_remaining.
    destruct (batch_results st) as [|x b] eqn:Hb; [contradiction|].
    split; reflexivity.
  - intros s results Hs.
    unfold on_student_done, extend_and_maybe_flush, size_after_extend in *.
    apply Nat.leb_le in Hs. rewrite Hs.
    rewrite save_results_batch_failed
      by (intros E; rewrite E in Hs; discriminate).
    cbn [log batch_results results_file].
    split; [reflexivity|]. split; [reflexivity|].
    intros later Hok. unfold save_from.
    destruct (tutoring_fold (results_file s) later []
                (mkState [] (results_file s) false (total_saved s)
                   (log s ++ [BatchSaveFailed])) Hok)
      as [Hfirst [written [Hfile Hrecs]]].
    + discriminate.
    + exists []. auto.
    + rewrite save_results_batch_ok by exact Hfirst. cbn [fst].
      rewrite Hfile, appended_app. now rewrite Hrecs.
  - intros MODEL_NAME M f0 p Hok4.
    match goal with
    | |- ?f1 = appended ?f3 ?recs /\ _ =>
        assert (Hf : f1 = appended f3 recs)
    end.
    { unfold run_mode.
      destruct (load_request_manifest MODEL_NAME (Some M) (read_results_csv f0))
        as [m pending]. cbn [snd].
      destruct pending as [|q pending].
      - rewrite completions_of_nil. cbn. now destruct f0.
      - now rewrite process_results_ok. }
    split; [exact Hf|]. now rewrite Hf, data_rows_appended.
Qed.

Lemma failed_flush_clears_batch_witness :
  let st := fold_left on_completion Samples.ninety_nine_answered (init None) in
  let c := Samples.answered_disk_full 99 in
  c_write_ok c = false
  /\ (BATCH_SIZE
      <= size_after_append st (make_result_record (c_request c) (c_outcome c)))%nat
  /\ batch_results (on_completion st c) = []
  /\ log (on_completion st c) = log st ++ [BatchSaveFailed].
Proof.
  intros st c.
  assert (H1 : c_write_ok c = false) by reflexivity.
  assert (H2 : (BATCH_SIZE
      <= size_after_append st (make_result_record (c_request c) (c_outcome c)))%nat)
    by (apply Nat.leb_le; vm_compute; reflexivity).
  split; [exact H1|]. split; [exact H2|].
  destruct (failed_flush_clears_batch st c H1 H2) as (Hl & Hb & _).
  split; [exact Hb | exact Hl].
Defined.

(** A hundred outcomes of [assess_mastery] of which the last meets a
    failing write: the failure is logged and the hundred records are
    counted as saved, but the buffer that held them is empty.  In
    [generate_tutoring_content] the ten records of a student meet a
    failing write: the buffer is emptied, and the save that follows the
    next student writes the five records of that student only. *)
Lemma failed_flush_empties_buffer :
  let cs := Samples.ninety_nine_answered ++ [Samples.answered_disk_full 99] in
  let before := fold_left on_completion Samples.ninety_nine_answered (init None) in
  let st := fold_left on_completion cs (init None) in
  let ten := replicate 10 (Samples.sample_tutoring "Fractions") in
  let five := replicate 5 (Samples.sample_tutoring "Decimals") in
  let s := on_student_done (init None) ten None false in
  length (batch_results before) = 99%nat
  /\ log st = [BatchSaveFailed]
  /\ batch_results st = []
  /\ batch_results st <> records_of cs
  /\ total_saved st = 100%nat
  /\ log s = [BatchSaveFailed]
  /\ batch_results s = []
  /\ data_rows (save_from s [mkStudentDone five None true] true) = five.
Proof.
  vm_compute. repeat split; try reflexivity. discriminate.
Qed.

End FailedSave.
